(** * Loan calculator: a shallow embedding of [loan_calculator.py]

    The amortization engine of the calculator (the four [calculate_*]
    functions, [increment_month] and the validation of their inputs,
    [validate_inputs]) is embedded over binary64 floating-point
    numbers, the representation of Python's [float].  Arithmetic is the
    primitive IEEE 754 arithmetic; [round], [**], [max] and [abs] follow
    CPython's behaviour on floats.  The clock [datetime.date.today()] is an
    explicit argument [today]. *)

From Stdlib Require Import String ZArith QArith Qabs Lia List Bool Floats.
Import ListNotations.

Close Scope Q_scope.

Set Warnings "-inexact-float".

Open Scope Z_scope.

(** ** Exceptions and results *)

Inductive exn : Type :=
| ZeroDivisionError
| OverflowError
| ValueError.

(** The result of running Python code: a value or an uncaught exception.
    A function with a [while] loop is run with fuel and yields an
    [option (result _)], [None] when the fuel is spent. *)
Inductive result (A : Type) : Type :=
| Returns (a : A)
| Raises (e : exn).

Arguments Returns {A} a.
Arguments Raises {A} e.

Definition bind {A B : Type} (c : result A) (k : A -> result B) : result B :=
  match c with
  | Returns a => k a
  | Raises e => Raises e
  end.

Notation "x <- c ;; k" := (bind c (fun x => k))
  (at level 61, c at next level, right associativity).

(** ** Python floats *)

Module PyFloat.

(** The float nearest to the rational [n / d] ([n], [d] positive), with the
    sign [s]: the IEEE division of the specification, run on exact integer
    mantissas of any size. *)
Definition of_ratio (s : bool) (n d : positive) : float :=
  SF2Prim (SFdiv prec emax (S754_finite s n 0) (S754_finite false d 0)).

(** [float(z)] for a Python [int]. *)
Definition of_int (z : Z) : float :=
  match z with
  | Z0 => 0%float
  | Zpos p => of_ratio false p 1
  | Zneg p => of_ratio true p 1
  end.

(** [x / y]: Python raises [ZeroDivisionError] on a zero divisor. *)
Definition div (x y : float) : result float :=
  if (y =? 0)%float then Raises ZeroDivisionError else Returns (x / y)%float.

(** The integer nearest to [m / 2^k], ties to the even one. *)
Definition round_half_even_shift (m : Z) (k : Z) : Z :=
  let d := 2 ^ k in
  let q := m / d in
  let r := m mod d in
  match (2 * r ?= d) with
  | Lt => q
  | Gt => q + 1
  | Eq => if Z.even q then q else q + 1
  end.

(** [round(x, ndigits)] for [ndigits >= 0]: CPython rounds the exact value
    of [x] to [ndigits] decimals, ties to even, and returns the float
    nearest to that decimal; NaN, infinities and zeros round to themselves. *)
Definition round (x : float) (ndigits : Z) : float :=
  match Prim2SF x with
  | S754_finite s m e =>
      let scaled := Zpos m * 10 ^ ndigits in
      let n := if 0 <=? e then scaled * 2 ^ e
               else round_half_even_shift scaled (- e) in
      match n with
      | Zpos p => of_ratio s p (Z.to_pos (10 ^ ndigits))
      | _ => if s then (-0)%float else 0%float
      end
  | _ => x
  end.

(** [x ** n] for a float [x] and an [int] [n].  CPython special-cases zero
    exponents, NaN, infinities, zeros and one, and hands the rest to the C
    library's [pow], modelled here as the correctly rounded power; an
    overflowing result raises [OverflowError], a zero raised to a negative
    power [ZeroDivisionError]. *)
Definition pow (x : float) (n : Z) : result float :=
  if n =? 0 then Returns 1%float
  else
    match Prim2SF x with
    | S754_nan => Returns nan
    | S754_infinity s =>
        let neg := s && Z.odd n in
        if 0 <? n then Returns (if neg then neg_infinity else infinity)
        else Returns (if neg then (-0)%float else 0%float)
    | S754_zero s =>
        let neg := s && Z.odd n in
        if 0 <? n then Returns (if neg then (-0)%float else 0%float)
        else Raises ZeroDivisionError
    | S754_finite s m e =>
        let neg := s && Z.odd n in
        let k := Z.abs n in
        let mk := Pos.pow m (Z.to_pos k) in
        let r :=
          if 0 <? n
          then binary_normalize prec emax (Zpos mk) (e * k) false
          else SFdiv prec emax (S754_finite false 1 0)
                     (S754_finite false mk (e * k)) in
        match r with
        | S754_infinity _ => Raises OverflowError
        | _ => Returns (let v := SF2Prim r in if neg then (- v)%float else v)
        end
    end.

(** [max(0, x)]: the builtin keeps its first argument unless a later one is
    strictly greater, so the result is [0] unless [x > 0] (in particular
    for NaN).  The [int] zero is written as the float zero, from which
    no later operation of the program can tell it. *)
Definition max0 (x : float) : float :=
  if (0 <? x)%float then x else 0%float.

End PyFloat.

(** [x / z] for a float [x] and an [int] [z].  A nonzero [int] converts to a
    nonzero float, so CPython's test of the converted divisor is the test
    [z = 0]. *)
Definition div_int (x : float) (z : Z) : result float :=
  if z =? 0 then Raises ZeroDivisionError
  else Returns (x / PyFloat.of_int z)%float.

(** ** Dates *)

Record date : Type := mkdate { year : Z; month : Z; day : Z }.

Definition MAXYEAR : Z := 9999.

(** [datetime.date(y, m, 1)]: the constructor rejects years outside
    [1..MAXYEAR] and months outside [1..12]. *)
Definition first_of_month (y m : Z) : result date :=
  if (1 <=? y) && (y <=? MAXYEAR) && (1 <=? m) && (m <=? 12)
  then Returns (mkdate y m 1)
  else Raises ValueError.

Definition increment_month (d : date) : result date :=
  let y := year d + month d / 12 in
  let m := month d mod 12 + 1 in
  first_of_month y m.

(** Comparison of dates, [d1 <= d2]: by year, then month, then day. *)
Definition date_leb (d1 d2 : date) : bool :=
  (year d1 <? year d2)
  || ((year d1 =? year d2)
      && ((month d1 <? month d2)
          || ((month d1 =? month d2) && (day d1 <=? day d2)))).

Definition months_until (today end_date : date) : Z :=
  (year end_date - year today) * 12 + (month end_date - month today).

(** ** Loops *)

(** What one turn of a loop does: go on to the next iteration, leave the loop
    (its guard is false, or a [break]), return from the function, or raise. *)
Inductive flow (S R : Type) : Type :=
| Next (s : S)
| Exit (s : S)
| Ret (r : R)
| Throw (e : exn).

Arguments Next {S R} s.
Arguments Exit {S R} s.
Arguments Ret {S R} r.
Arguments Throw {S R} e.

Section Loops.
Context {S R : Type}.
Variable body : S -> flow S R.

(** A [while] loop, run with fuel; the guard is tested inside [body]. *)
Fixpoint while (fuel : nat) (s : S) : option (result (S + R)) :=
  match fuel with
  | O => None
  | Datatypes.S fuel' =>
      match body s with
      | Next s' => while fuel' s'
      | Exit s' => Some (Returns (inl s'))
      | Ret r => Some (Returns (inr r))
      | Throw e => Some (Raises e)
      end
  end.

(** [for _ in range(n)]: at most [n] turns of [body]. *)
Fixpoint for_range (n : nat) (s : S) : result (S + R) :=
  match n with
  | O => Returns (inl s)
  | Datatypes.S n' =>
      match body s with
      | Next s' => for_range n' s'
      | Exit s' => Returns (inl s')
      | Ret r => Returns (inr r)
      | Throw e => Raises e
      end
  end.

(** The state at the start of the [k]-th turn, if the loop gets there. *)
Fixpoint state_at (k : nat) (s : S) : option S :=
  match k with
  | O => Some s
  | Datatypes.S k' =>
      match body s with
      | Next s' => state_at k' s'
      | _ => None
      end
  end.

(** The number of completed iterations (turns that went on to a next one)
    among the first [fuel] turns. *)
Fixpoint iterations (fuel : nat) (s : S) : nat :=
  match fuel with
  | O => O
  | Datatypes.S fuel' =>
      match body s with
      | Next s' => Datatypes.S (iterations fuel' s')
      | _ => O
      end
  end.
End Loops.

(** ** The calculator *)

Section Calculator.
Open Scope float_scope.

(** [datetime.date.today()]. *)
Variable today : date.

(** [validate_inputs]: the first complaint about the inputs, [None] when
    there is none.  A payment or a rate that is being calculated is passed
    as [None] and checked as a positive placeholder.  The target date is a
    [datetime.date] or [None], so the test of its type never fails, and the
    comparisons of numbers and of dates raise nothing for the [except]
    clause to catch. *)
Definition validate_inputs (balance : float)
           (monthly_payment interest_rate : option float)
           (end_date : option date) : option string :=
  let temp_mp :=
    match monthly_payment with Some x => x | None => 1000000 end in
  let temp_ir :=
    match interest_rate with Some x => x | None => 100 end in
  if balance <=? 0 then Some "Balance must be a positive number."%string
  else if temp_mp <=? 0
  then Some "Monthly Payment must be greater than zero."%string
  else if temp_ir <=? 0
  then Some "Interest Rate must be greater than zero."%string
  else
    match end_date with
    | Some d =>
        if date_leb d today
        then Some "End Date must be in the future."%string
        else None
    | None => None
    end.

Definition monthly_rate_of (interest_rate : float) : float :=
  (interest_rate / 100) / 12.

(** The body of the [try] block of [calculate_monthly_payment]. *)
Definition payment_formula (balance monthly_rate : float) (months : Z)
  : result float :=
  payment <-
    (if monthly_rate =? 0 then div_int balance months
     else
       pw <- PyFloat.pow (1 + monthly_rate) (- months) ;;
       PyFloat.div (balance * monthly_rate) (1 - pw)) ;;
  Returns (PyFloat.round payment 2).

Definition calculate_monthly_payment
           (balance interest_rate : float) (end_date : date) : option float :=
  let months := months_until today end_date in
  if (months <=? 0)%Z then None
  else
    let monthly_rate := monthly_rate_of interest_rate in
    match payment_formula balance monthly_rate months with
    | Returns payment => Some payment
    | Raises _ => None
    end.

Definition max_months : Z := 1200.

(** The variables of the loop of [calculate_end_date]. *)
Record sim : Type := mksim { balance_of : float; current : date; count : Z }.

Definition end_date_body (monthly_payment monthly_rate : float) (s : sim)
  : flow sim (option date) :=
  if (0 <? balance_of s) && (count s <? max_months)%Z then
    let interest := balance_of s * monthly_rate in
    if (monthly_payment <=? interest) && (0 <? count s)%Z then Ret None
    else
      let principal_paid := monthly_payment - interest in
      let balance := balance_of s - principal_paid in
      let balance := PyFloat.max0 (PyFloat.round balance 2) in
      match increment_month (current s) with
      | Returns d => Next (mksim balance d (count s + 1))
      | Raises e => Throw e
      end
  else Exit s.

(** The code after the loop: [return current if count < max_months else
    None], or the value returned from inside the loop. *)
Definition end_date_result (r : sim + option date) : option date :=
  match r with
  | inl s => if (count s <? max_months)%Z then Some (current s) else None
  | inr v => v
  end.

Definition calculate_end_date (fuel : nat)
           (balance monthly_payment interest_rate : float)
  : option (result (option date)) :=
  if monthly_payment <=? 0 then Some (Returns None)
  else
    let monthly_rate := monthly_rate_of interest_rate in
    match while (end_date_body monthly_payment monthly_rate) fuel
                (mksim balance today 0) with
    | Some (Returns r) => Some (Returns (end_date_result r))
    | Some (Raises e) => Some (Raises e)
    | None => None
    end.

Definition bisect_body (balance monthly_payment : float) (end_date : date)
           (lh : float * float) : flow (float * float) (option float) :=
  let (low, high) := lh in
  let mid := (low + high) / 2 in
  match calculate_monthly_payment balance mid end_date with
  | None => Ret None
  | Some estimated =>
      if abs (estimated - monthly_payment) <? 0.01
      then Ret (Some (PyFloat.round mid 4))
      else if monthly_payment <? estimated then Next (low, mid)
           else Next (mid, high)
  end.

Definition calculate_interest_rate
           (balance monthly_payment : float) (end_date : date)
  : result (option float) :=
  let months := months_until today end_date in
  if (months <=? 0)%Z || (monthly_payment <=? 0) then Returns None
  else
    q <- div_int balance months ;;
    if monthly_payment <=? q then Returns None
    else
      r <- for_range (bisect_body balance monthly_payment end_date) 300
                     (0.0001, 100.0) ;;
      match r with
      | inl _ => Returns None
      | inr v => Returns v
      end.

(** One line of the schedule: the values behind the formatted text. *)
Record row : Type := mkrow {
  row_date : date;
  row_payment : float;
  row_interest : float;
  row_principal : float;
  row_balance : float
}.

(** The variables of the loop of [calculate_interest_breakdown]; [rows] are
    the lines appended to [result] so far. *)
Record sched : Type := mksched {
  sched_balance : float;
  current_date : date;
  total_interest_paid : float;
  rows : list row
}.

Definition breakdown_body (monthly_payment monthly_rate : float)
           (end_date_calc : date) (s : sched) : flow sched Empty_set :=
  if (0 <? sched_balance s) && date_leb (current_date s) end_date_calc then
    let balance := sched_balance s in
    let interest := balance * monthly_rate in
    let is_final_payment :=
      ((year (current_date s) =? year end_date_calc)%Z
       && (month (current_date s) =? month end_date_calc)%Z)%bool in
    let '(principal_paid, payment, balance) :=
      if is_final_payment || (balance <? monthly_payment)
      then (balance, balance + interest, 0)
      else (monthly_payment - interest, monthly_payment,
            balance - (monthly_payment - interest)) in
    let balance := PyFloat.max0 (PyFloat.round balance 2) in
    let interest := PyFloat.round interest 2 in
    let principal_paid := PyFloat.round principal_paid 2 in
    let payment := PyFloat.round payment 2 in
    let total := total_interest_paid s + interest in
    let result :=
      (rows s ++ [mkrow (current_date s) payment interest principal_paid
                        balance])%list in
    if balance =? 0
    then Exit (mksched balance (current_date s) total result)
    else
      match increment_month (current_date s) with
      | Returns d => Next (mksched balance d total result)
      | Raises e => Throw e
      end
  else Exit s.

(** What [calculate_interest_breakdown] returns: the refusal message, or
    the schedule (its lines and the rounded total of the interest), which
    the program formats as text. *)
Inductive breakdown : Type :=
| Refused (message : string)
| Schedule (lines : list row) (total_interest : float).

(** The loop has no [return] inside; after it the total is rounded. *)
Definition breakdown_result (r : sched + Empty_set) : breakdown :=
  match r with
  | inl s => Schedule (rows s) (PyFloat.round (total_interest_paid s) 2)
  | inr v => match v with end
  end.

Definition calculate_interest_breakdown (fuel : nat)
           (balance monthly_payment interest_rate : float) (end_date : date)
  : option (result breakdown) :=
  let monthly_rate := monthly_rate_of interest_rate in
  match increment_month today with
  | Raises e => Some (Raises e)
  | Returns start =>
      match calculate_end_date fuel balance monthly_payment interest_rate with
      | None => None
      | Some (Raises e) => Some (Raises e)
      | Some (Returns None) =>
          Some (Returns (Refused
            "Breakdown cannot be generated: Monthly payment does not cover interest."))
      | Some (Returns (Some end_date_calc)) =>
          match while (breakdown_body monthly_payment monthly_rate
                                      end_date_calc)
                      fuel (mksched balance start 0 []) with
          | Some (Returns r) => Some (Returns (breakdown_result r))
          | Some (Raises e) => Some (Raises e)
          | None => None
          end
      end
  end.

End Calculator.

(** ** Auxiliary definitions for the statements *)

(** Months since year 0, and the date [k] months after [d]: [d] itself for
    [k = 0], else the first of the month, as [increment_month] builds it. *)
Definition month_index (d : date) : Z := year d * 12 + (month d - 1).

Definition add_months (d : date) (k : Z) : date :=
  if k =? 0 then d
  else
    let t := month_index d + k in
    mkdate (t / 12) (t mod 12 + 1) 1.

(** A clock for which a hundred years of months are valid dates. *)
Definition valid_today (d : date) : Prop :=
  1 <= year d <= MAXYEAR - 100 /\ 1 <= month d <= 12.

Definition map_result {A B : Type} (f : A -> B) (r : option (result (option A)))
  : option (result (option B)) :=
  match r with
  | Some (Returns v) => Some (Returns (option_map f v))
  | Some (Raises e) => Some (Raises e)
  | None => None
  end.

(** The balance after one month of [calculate_end_date]. *)
Definition balance_step (monthly_payment monthly_rate balance : float) : float :=
  PyFloat.max0
    (PyFloat.round (balance - (monthly_payment - balance * monthly_rate)) 2).

(** The loop of [calculate_end_date] without its calendar: the balance and
    the count of months. *)
Definition payoff_body (monthly_payment monthly_rate : float)
           (bc : float * Z) : flow (float * Z) (option Z) :=
  let (balance, n) := bc in
  if (0 <? balance)%float && (n <? max_months) then
    if (monthly_payment <=? balance * monthly_rate)%float && (0 <? n)
    then Ret None
    else Next (balance_step monthly_payment monthly_rate balance, n + 1)
  else Exit bc.

Definition payoff_result (r : float * Z + option Z) : option Z :=
  match r with
  | inl (_, n) => if n <? max_months then Some n else None
  | inr v => v
  end.

(** The number of months [calculate_end_date] takes, [None] when it refuses. *)
Definition payoff_months (fuel : nat)
           (balance monthly_payment interest_rate : float)
  : option (result (option Z)) :=
  if (monthly_payment <=? 0)%float then Some (Returns None)
  else
    match while (payoff_body monthly_payment (monthly_rate_of interest_rate))
                fuel (balance, 0) with
    | Some (Returns r) => Some (Returns (payoff_result r))
    | Some (Raises e) => Some (Raises e)
    | None => None
    end.

(** How a loop stops in state [s] with the result [r]. *)
Definition stops {S R : Type} (body : S -> flow S R) (s : S)
           (r : result (S + R)) : Prop :=
  match body s with
  | Next _ => False
  | Exit s' => r = Returns (inl s')
  | Ret v => r = Returns (inr v)
  | Throw e => r = Raises e
  end.

(** ** The two simulations, state by state *)

(** A state of the loop of [calculate_end_date] and a state of the loop
    without calendar that agree. *)
Definition sim_rel (today : date) (s : sim) (bc : float * Z) : Prop :=
  balance_of s = fst bc /\ count s = snd bc /\
  current s = add_months today (snd bc) /\ 0 <= snd bc.

(** The loop's variant: the months left before [max_months]. *)
Definition months_left (s : sim) : nat := Z.to_nat (max_months - count s).

(** ** Paying off *)

(** "Terminates in exactly [n] iterations with final balance 0 and returns
    [d]": the loop of [calculate_end_date] reaches its [n]-th turn with a zero
    balance, and the function returns [d]. *)
Definition pays_off_in (today : date)
           (balance monthly_payment interest_rate : float)
           (n : nat) (d : date) : Prop :=
  (exists s,
      state_at (end_date_body monthly_payment (monthly_rate_of interest_rate))
               n (mksim balance today 0) = Some s
      /\ (balance_of s =? 0)%float = true)
  /\ calculate_end_date today (Datatypes.S n) balance monthly_payment
                        interest_rate
     = Some (Returns (Some d)).

(** The scenario as the specification words it: the solved payment pays the
    loan off in exactly 24 iterations, in the target month. *)
Definition scenario_24 (today end_date : date) : Prop :=
  exists payment d,
    calculate_monthly_payment today 24000 6 end_date = Some payment
    /\ pays_off_in today 24000 payment 6 24 d
    /\ months_until today d = 24.

(** "On iteration [k], after the first, the payment does not exceed the
    month's interest": the loop starts its turn [k > 0], passes its guard,
    and finds [monthly_payment <= interest]. *)
Definition unrepayable_at (today : date)
           (balance monthly_payment interest_rate : float) (k : nat) : Prop :=
  (0 < k)%nat
  /\ exists s,
      state_at (end_date_body monthly_payment (monthly_rate_of interest_rate))
               k (mksim balance today 0) = Some s
      /\ (0 <? balance_of s)%float = true /\ count s < max_months
      /\ (monthly_payment
          <=? balance_of s * monthly_rate_of interest_rate)%float = true.

(** The loop completes [max_months] iterations. *)
Definition capped (today : date)
           (balance monthly_payment interest_rate : float) : Prop :=
  exists s,
    state_at (end_date_body monthly_payment (monthly_rate_of interest_rate))
             1200 (mksim balance today 0) = Some s.


(** ** The turns of the schedule *)

(** The schedule generator pays the balance off in this turn: it is the
    month [calculate_end_date] found, or the balance is below the payment. *)
Definition final_payment (monthly_payment : float) (end_date_calc : date)
           (s : sched) : bool :=
  ((year (current_date s) =? year end_date_calc)
   && (month (current_date s) =? month end_date_calc))
  || (sched_balance s <? monthly_payment)%float.

(** The unrounded principal of the turn. *)
Definition principal_of (monthly_payment monthly_rate : float)
           (end_date_calc : date) (s : sched) : float :=
  if final_payment monthly_payment end_date_calc s then sched_balance s
  else (monthly_payment - sched_balance s * monthly_rate)%float.

(** The guard of the loop of [calculate_interest_breakdown]. *)
Definition breakdown_guard (end_date_calc : date) (s : sched) : bool :=
  (0 <? sched_balance s)%float && date_leb (current_date s) end_date_calc.

(** A turn of the schedule loop that ran its body to the end: it goes on, or
    it leaves by the [break]. *)
Definition breakdown_step (monthly_payment monthly_rate : float)
           (end_date_calc : date) (s s' : sched) : Prop :=
  breakdown_guard end_date_calc s = true
  /\ (breakdown_body monthly_payment monthly_rate end_date_calc s = Next s'
      \/ breakdown_body monthly_payment monthly_rate end_date_calc s = Exit s').

(** The schedule loop at the start of turn [j], when the payoff month is [N]
    months after the clock: the month is [j + 1] months after the clock, not
    after the payoff month, and the balance is positive. *)
Definition sched_inv (today : date) (N : nat) (j : nat) (s : sched) : Prop :=
  current_date s = add_months today (Z.of_nat j + 1)
  /\ (0 <? sched_balance s)%float = true
  /\ (j < N)%nat.

(** A float that is zero or positive (so not a NaN). *)
Definition nonneg (x : float) : Prop := (0 <=? x)%float = true.

(** The lines of a schedule that starts in month [j] after the clock with the
    balance [b]: consecutive months; on each line the principal and the new
    balance are [round(p, 2)] and [max(0, round(b - p, 2))] for the same
    unrounded principal [p]; the balance is positive until the last line,
    where it is zero. *)
Inductive amortizes (today : date) : float -> Z -> list row -> Prop :=
| amortizes_last (b : float) (j : Z) (r : row) (p : float) :
    row_date r = add_months today j ->
    row_principal r = PyFloat.round p 2 ->
    row_balance r = PyFloat.max0 (PyFloat.round (b - p) 2) ->
    row_balance r = 0%float ->
    amortizes today b j [r]
| amortizes_cons (b : float) (j : Z) (r : row) (p : float) (rest : list row) :
    row_date r = add_months today j ->
    row_principal r = PyFloat.round p 2 ->
    row_balance r = PyFloat.max0 (PyFloat.round (b - p) 2) ->
    (0 <? row_balance r)%float = true ->
    amortizes today (row_balance r) (j + 1) rest ->
    amortizes today b j (r :: rest).

(** The first of the month for the [n] months from [j] months after the
    clock. *)
Definition month_dates (today : date) (j : Z) (n : nat) : list date :=
  map (fun i => add_months today (j + Z.of_nat i)) (seq 0 n).

(** "Exactly one row per month from the month after the clock up to and
    including [d]". *)
Definition one_row_per_month_until (today d : date) (lines : list row) : Prop :=
  map row_date lines = month_dates today 1 (Z.to_nat (months_until today d)).

(** ** The columns of the schedule *)

(** The running sum of the interest column, added up line by line as the
    loop does. *)
Definition interest_sum (lines : list row) : float :=
  fold_left (fun acc r => (acc + row_interest r)%float) lines 0%float.

(** A line that pays the fixed payment on the balance [b]. *)
Definition regular_line (monthly_payment monthly_rate b : float) (r : row)
  : Prop :=
  row_payment r = PyFloat.round monthly_payment 2
  /\ row_interest r = PyFloat.round (b * monthly_rate) 2
  /\ row_principal r = PyFloat.round (monthly_payment - b * monthly_rate) 2
  /\ row_balance r
     = PyFloat.max0
         (PyFloat.round (b - (monthly_payment - b * monthly_rate)) 2).

(** A line that pays the balance [b] off with its interest. *)
Definition closing_line (monthly_rate b : float) (r : row) : Prop :=
  row_payment r = PyFloat.round (b + b * monthly_rate) 2
  /\ row_interest r = PyFloat.round (b * monthly_rate) 2
  /\ row_principal r = PyFloat.round b 2
  /\ row_balance r = 0%float.

(** The lines of a schedule computed from the balance [b]: regular lines,
    each on the balance the line before left, and at most one closing line,
    the last. *)
Inductive tabulates (monthly_payment monthly_rate : float)
  : float -> list row -> Prop :=
| tabulates_nil (b : float) : tabulates monthly_payment monthly_rate b []
| tabulates_closing (b : float) (r : row) :
    closing_line monthly_rate b r ->
    tabulates monthly_payment monthly_rate b [r]
| tabulates_regular (b : float) (r : row) (rest : list row) :
    regular_line monthly_payment monthly_rate b r ->
    tabulates monthly_payment monthly_rate (row_balance r) rest ->
    tabulates monthly_payment monthly_rate b (r :: rest).

(** The amounts on a line of the schedule. *)
Definition amounts (r : row) : float * float * float * float :=
  (row_payment r, row_interest r, row_principal r, row_balance r).

(** Two states of the schedule loop, run from the clocks [today] and
    [today'], that differ by the calendar only: the same balance and total,
    and lines with the same amounts, as many months after either clock. *)
Definition same_ledger (today today' : date) (s s' : sched) : Prop :=
  sched_balance s = sched_balance s'
  /\ total_interest_paid s = total_interest_paid s'
  /\ map amounts (rows s) = map amounts (rows s')
  /\ map (fun r => months_until today (row_date r)) (rows s)
     = map (fun r => months_until today' (row_date r)) (rows s').

(** ** Exact totals *)




(** ** The bounds of the bisection *)

(** The bounds of the bisection, as binary64 numbers. *)
Definition lo_m : positive := 7378697629483821.
Definition hi_m : positive := 7036874417766400.

(** A float between two positive normal floats, by mantissa and exponent. *)
Definition between (ml : positive) (el : Z) (mh : positive) (eh : Z)
           (m : positive) (e : Z) : Prop :=
  Zpos (digits2_pos m) = 53
  /\ (el < e \/ (el = e /\ Zpos ml <= Zpos m))
  /\ (e < eh \/ (e = eh /\ Zpos m <= Zpos mh)).

(** A float within the bounds of the bisection. *)
Definition in_range (x : float) : Prop :=
  (0.0001 <=? x)%float = true /\ (x <=? 100)%float = true.

(** The payment stays bracketed: an end of the search interval that has
    moved is a rate whose solved payment missed the target by a cent or
    more, from below or on it at [low], from above at [high]. *)
Definition brackets (today : date) (balance monthly_payment : float)
           (end_date : date) (lh : float * float) : Prop :=
  (fst lh = 0.0001%float
   \/ exists estimated,
       calculate_monthly_payment today balance (fst lh) end_date
       = Some estimated
       /\ (abs (estimated - monthly_payment) <? 0.01)%float = false
       /\ (monthly_payment <? estimated)%float = false)
  /\ (snd lh = 100%float
      \/ exists estimated,
          calculate_monthly_payment today balance (snd lh) end_date
          = Some estimated
          /\ (abs (estimated - monthly_payment) <? 0.01)%float = false
          /\ (monthly_payment <? estimated)%float = true).

(** ** Numbers that are not numbers, and signs *)

(** A number the validation lets through: positive, or not a number. *)
Definition positive_or_nan (x : float) : Prop :=
  (0 <? x)%float = true \/ x = nan.

(** A binary64 value that is not of the sign opposite to [s]: a zero, a
    NaN, or a finite or infinite number of sign [s]. *)
Definition sign_class (s : bool) (x : spec_float) : Prop :=
  match x with
  | S754_infinity s' | S754_finite s' _ _ => s' = s
  | S754_zero _ | S754_nan => True
  end.

(** * Loops *)

Section LoopFacts.
Context {S R : Type}.
Variable body : S -> flow S R.

Lemma while_more_fuel (fuel extra : nat) (s : S) (r : result (S + R)) :
  while body fuel s = Some r -> while body (fuel + extra) s = Some r.
Proof.
  revert s. induction fuel as [|fuel IH]; intros s H; simpl in *.
  - discriminate.
  - destruct (body s); auto.
Qed.

Lemma iterations_le_fuel (fuel : nat) (s : S) :
  (iterations body fuel s <= fuel)%nat.
Proof.
  revert s. induction fuel as [|fuel IH]; intros s; simpl.
  - lia.
  - destruct (body s); try lia. specialize (IH s0). lia.
Qed.

Lemma state_at_succ (k : nat) (s : S) :
  state_at body (Datatypes.S k) s =
  match state_at body k s with
  | Some s' => match body s' with Next s'' => Some s'' | _ => None end
  | None => None
  end.
Proof.
  revert s. induction k as [|k IH]; intros s.
  - simpl. destruct (body s); reflexivity.
  - change (state_at body (Datatypes.S (Datatypes.S k)) s)
      with (match body s with
            | Next s' => state_at body (Datatypes.S k) s'
            | _ => None
            end).
    simpl (state_at body (Datatypes.S k) s).
    destruct (body s); auto.
Qed.

(** A loop that returns did so after some number of iterations. *)
Lemma while_inv (fuel : nat) (s : S) (r : result (S + R)) :
  while body fuel s = Some r ->
  exists k s', (k < fuel)%nat /\ state_at body k s = Some s' /\
               stops body s' r /\ iterations body fuel s = k.
Proof.
  revert s. induction fuel as [|fuel IH]; intros s H; simpl in *.
  - discriminate.
  - destruct (body s) as [s1|s1|v|e] eqn:E.
    + destruct (IH _ H) as (k & s' & Hk & Hs & Hst & Hit).
      exists (Datatypes.S k), s'. simpl. rewrite E. repeat split; auto. lia.
    + exists 0%nat, s. unfold stops. rewrite E. simpl.
      repeat split; auto; try lia. congruence.
    + exists 0%nat, s. unfold stops. rewrite E. simpl.
      repeat split; auto; try lia. congruence.
    + exists 0%nat, s. unfold stops. rewrite E. simpl.
      repeat split; auto; try lia. congruence.
Qed.

(** A loop that stops after [k] iterations returns with any fuel above [k]. *)
Lemma while_intro (k : nat) (s s' : S) (r : result (S + R)) :
  state_at body k s = Some s' -> stops body s' r ->
  forall fuel, (k < fuel)%nat ->
  while body fuel s = Some r /\ iterations body fuel s = k.
Proof.
  revert s. induction k as [|k IH]; intros s Hs Hst fuel Hf.
  - simpl in Hs. injection Hs as ->.
    destruct fuel as [|fuel]; [lia|]. simpl. unfold stops in Hst.
    destruct (body s'); try contradiction; subst; auto.
  - destruct fuel as [|fuel]; [lia|]. simpl in *.
    destruct (body s); try discriminate.
    destruct (IH _ Hs Hst fuel ltac:(lia)) as [H1 H2]. split; auto.
Qed.

(** Termination by a measure that every iteration decreases. *)
Lemma while_measure (mu : S -> nat) :
  (forall s s', body s = Next s' -> (mu s' < mu s)%nat) ->
  forall fuel s, (mu s < fuel)%nat ->
  while body fuel s <> None /\ (iterations body fuel s <= mu s)%nat.
Proof.
  intros Hmu. induction fuel as [|fuel IH]; intros s Hf.
  - lia.
  - simpl. destruct (body s) as [s1|s1|v|e] eqn:E; try (split; [discriminate|lia]).
    specialize (Hmu _ _ E).
    destruct (IH s1 ltac:(lia)) as [H1 H2]. split; auto. lia.
Qed.

Lemma iterations_measure (mu : S -> nat) :
  (forall s s', body s = Next s' -> (mu s' < mu s)%nat) ->
  forall fuel s, (iterations body fuel s <= mu s)%nat.
Proof.
  intros Hmu. induction fuel as [|fuel IH]; intros s; simpl.
  - lia.
  - destruct (body s) as [s1|s1|v|e] eqn:E; try lia.
    specialize (Hmu _ _ E). specialize (IH s1). lia.
Qed.

End LoopFacts.

(** * Dates *)

Lemma months_until_add_months (d : date) (k : Z) :
  months_until d (add_months d k) = k.
Proof.
  unfold months_until, add_months, month_index.
  destruct (k =? 0) eqn:E.
  - apply Z.eqb_eq in E. lia.
  - simpl. Z.div_mod_to_equations. lia.
Qed.

Lemma increment_month_add_months (d d' : date) (k : Z) :
  0 <= k -> increment_month (add_months d k) = Returns d' ->
  d' = add_months d (k + 1).
Proof.
  intros Hk. unfold increment_month, first_of_month.
  destruct (_ && _); [|discriminate]. intros H. injection H as <-.
  unfold add_months, month_index.
  replace (k + 1 =? 0) with false by (symmetry; apply Z.eqb_neq; lia).
  destruct (k =? 0) eqn:E.
  - apply Z.eqb_eq in E. subst k. f_equal; Z.div_mod_to_equations; lia.
  - simpl. f_equal; Z.div_mod_to_equations; lia.
Qed.

Lemma increment_month_valid (d : date) (k : Z) :
  valid_today d -> 0 <= k < 1200 ->
  increment_month (add_months d k) = Returns (add_months d (k + 1)).
Proof.
  intros [Hy Hm] Hk.
  destruct (increment_month (add_months d k)) as [d'|e] eqn:E.
  - f_equal. eapply increment_month_add_months; eauto. lia.
  - exfalso. revert E. unfold increment_month, first_of_month.
    match goal with |- context [if ?c then _ else _] =>
      replace c with true; [discriminate|] end.
    symmetry. unfold MAXYEAR in *.
    unfold add_months, month_index. destruct (k =? 0) eqn:E0.
    + apply Z.eqb_eq in E0. subst k.
      rewrite !andb_true_iff, !Z.leb_le.
      repeat split; Z.div_mod_to_equations; lia.
    + simpl. rewrite !andb_true_iff, !Z.leb_le.
      repeat split; Z.div_mod_to_equations; lia.
Qed.

(** * The payoff simulator and its calendar *)

Section EndDate.
Variable today : date.
Variables monthly_payment monthly_rate : float.

Let body := end_date_body monthly_payment monthly_rate.
Let pbody := payoff_body monthly_payment monthly_rate.

Lemma end_date_body_count (s s' : sim) :
  body s = Next s' -> count s' = count s + 1 /\ count s < max_months.
Proof.
  unfold body, end_date_body.
  destruct (0 <? balance_of s)%float; simpl; [|discriminate].
  destruct (count s <? max_months) eqn:E; [|discriminate].
  apply Z.ltb_lt in E.
  destruct (_ && _); [discriminate|].
  destruct (increment_month (current s)); [|discriminate].
  intros H. injection H as <-. simpl. lia.
Qed.

Lemma end_date_body_payoff (s : sim) (bc : float * Z) :
  valid_today today -> sim_rel today s bc ->
  match pbody bc with
  | Next bc' => exists s', body s = Next s' /\ sim_rel today s' bc'
  | Exit bc' => body s = Exit s /\ bc' = bc
  | Ret v => body s = Ret None /\ v = None
  | Throw _ => False
  end.
Proof.
  intros Hv (Hb & Hc & Hd & H0). destruct bc as [b n]. simpl in *.
  unfold pbody, payoff_body, body, end_date_body. rewrite Hb, Hc.
  destruct (0 <? b)%float; simpl; [|auto].
  destruct (n <? max_months) eqn:En; [|auto].
  apply Z.ltb_lt in En. unfold max_months in En.
  destruct (_ && _); [auto|].
  rewrite Hd, increment_month_valid by (auto; lia).
  eexists. split; [reflexivity|].
  unfold sim_rel, balance_step. simpl. repeat split; auto. lia.
Qed.

Lemma while_payoff (fuel : nat) (s : sim) (bc : float * Z) :
  valid_today today -> sim_rel today s bc ->
  match while body fuel s with
  | Some (Returns r) => Some (Returns (end_date_result r))
  | Some (Raises e) => Some (Raises e)
  | None => None
  end
  = map_result (add_months today)
      match while pbody fuel bc with
      | Some (Returns r) => Some (Returns (payoff_result r))
      | Some (Raises e) => Some (Raises e)
      | None => None
      end.
Proof.
  intros Hv. revert s bc. induction fuel as [|fuel IH]; intros s bc Hr.
  - reflexivity.
  - simpl. pose proof (end_date_body_payoff s bc Hv Hr) as H.
    destruct (pbody bc) as [bc'|bc'|v|e].
    + destruct H as (s' & -> & Hr'). apply IH; auto.
    + destruct H as [-> ->]. destruct Hr as (Hb & Hc & Hd & H0).
      destruct bc as [b n]. simpl in *. rewrite Hc, Hd.
      destruct (n <? max_months); reflexivity.
    + destruct H as [-> ->]. reflexivity.
    + contradiction.
Qed.

End EndDate.

(** [calculate_end_date] is the month count of [payoff_months], laid on the
    calendar from [today]. *)
Lemma calculate_end_date_payoff (today : date) (fuel : nat)
      (balance monthly_payment interest_rate : float) :
  valid_today today ->
  calculate_end_date today fuel balance monthly_payment interest_rate
  = map_result (add_months today)
               (payoff_months fuel balance monthly_payment interest_rate).
Proof.
  intros Hv. unfold calculate_end_date, payoff_months.
  destruct (monthly_payment <=? 0)%float; [reflexivity|].
  apply while_payoff; auto.
  unfold sim_rel. simpl. repeat split; auto. lia.
Qed.

Section EndDateStates.
Variable today : date.
Variables monthly_payment monthly_rate : float.
Hypothesis today_ok : valid_today today.

Let body := end_date_body monthly_payment monthly_rate.
Let pbody := payoff_body monthly_payment monthly_rate.

Lemma sim_rel_start (balance : float) :
  sim_rel today (mksim balance today 0) (balance, 0).
Proof. unfold sim_rel. simpl. repeat split; auto. lia. Qed.

Lemma state_at_payoff (k : nat) (s : sim) (bc bc' : float * Z) :
  sim_rel today s bc -> state_at pbody k bc = Some bc' ->
  exists s', state_at body k s = Some s' /\ sim_rel today s' bc'.
Proof.
  revert s bc. induction k as [|k IH]; intros s bc Hr H; simpl in *.
  - injection H as <-. eauto.
  - pose proof (end_date_body_payoff today monthly_payment monthly_rate
                  s bc today_ok Hr) as Hb.
    fold pbody body in Hb.
    destruct (pbody bc) as [bc1| | |]; try discriminate.
    destruct Hb as (s1 & -> & Hr1). eauto.
Qed.

End EndDateStates.

Lemma payoff_months_more_fuel (fuel extra : nat)
      (balance monthly_payment interest_rate : float) (r : result (option Z)) :
  payoff_months fuel balance monthly_payment interest_rate = Some r ->
  payoff_months (fuel + extra) balance monthly_payment interest_rate = Some r.
Proof.
  unfold payoff_months. destruct (monthly_payment <=? 0)%float; auto.
  destruct (while _ fuel _) as [w|] eqn:E; [|discriminate].
  rewrite (while_more_fuel _ _ extra _ _ E). auto.
Qed.

Lemma calculate_end_date_more_fuel (today : date) (fuel extra : nat)
      (balance monthly_payment interest_rate : float)
      (r : result (option date)) :
  calculate_end_date today fuel balance monthly_payment interest_rate = Some r ->
  calculate_end_date today (fuel + extra) balance monthly_payment interest_rate
  = Some r.
Proof.
  unfold calculate_end_date. destruct (monthly_payment <=? 0)%float; auto.
  destruct (while _ fuel _) as [w|] eqn:E; [|discriminate].
  rewrite (while_more_fuel _ _ extra _ _ E). auto.
Qed.

(** * The concrete scenario: 24000 at 6% over 24 months *)

Lemma payment_24000 :
  payment_formula 24000 (monthly_rate_of 6) 24 = Returns 1063.69%float.
Proof. vm_compute. reflexivity. Qed.

Lemma payoff_24000_states :
  state_at (payoff_body 1063.69 (monthly_rate_of 6)) 24 (24000%float, 0)
  = Some (0.12%float, 24)
  /\ state_at (payoff_body 1063.69 (monthly_rate_of 6)) 25 (24000%float, 0)
     = Some (0%float, 25).
Proof. split; vm_compute; reflexivity. Qed.

Lemma payoff_24000 :
  payoff_months 26 24000 1063.69 6 = Some (Returns (Some 25)).
Proof. vm_compute. reflexivity. Qed.

(** C1, as stated, fails: at the clock 2025-01-15 with the target
    2027-01-15 the solved payment is 1063.69, and after 24 iterations the
    balance is 0.12, not 0. *)
Lemma scenario_24_not_in_24_months :
  ~ scenario_24 (mkdate 2025 1 15) (mkdate 2027 1 15).
Proof.
  intros (payment & d & Hp & ((s & Hs & Hb) & _) & _).
  vm_compute in Hp. injection Hp as <-.
  vm_compute in Hs. injection Hs as <-.
  vm_compute in Hb. discriminate.
Qed.

(** C1 (amended): for balance 24000 at 6% and a target date 24 months after
    the clock, [calculate_monthly_payment] returns 1063.69, and
    [calculate_end_date] on (24000, 1063.69, 6) terminates in exactly 25
    iterations with final balance 0, returning the month after the target;
    after 24 iterations the balance is still 0.12. *)
Theorem scenario_24_takes_25_months (today end_date : date) :
  valid_today today ->
  months_until today end_date = 24 ->
  calculate_monthly_payment today 24000 6 end_date = Some 1063.69%float
  /\ pays_off_in today 24000 1063.69 6 25 (add_months today 25)
  /\ months_until today (add_months today 25) = 25
  /\ exists s,
       state_at (end_date_body 1063.69 (monthly_rate_of 6)) 24
                (mksim 24000 today 0) = Some s
       /\ balance_of s = 0.12%float.
Proof.
  intros Hv Hm. destruct payoff_24000_states as [H24 H25].
  split; [|split; [|split]].
  - unfold calculate_monthly_payment. rewrite Hm.
    change (24 <=? 0) with false. cbv iota. rewrite payment_24000. reflexivity.
  - split.
    + destruct (state_at_payoff today _ _ Hv 25 _ _ _
                  (sim_rel_start today 24000) H25) as (s & Hs & Hb & _).
      exists s. split; [exact Hs|]. rewrite Hb. reflexivity.
    + rewrite calculate_end_date_payoff by exact Hv.
      rewrite payoff_24000. reflexivity.
  - apply months_until_add_months.
  - destruct (state_at_payoff today _ _ Hv 24 _ _ _
                (sim_rel_start today 24000) H24) as (s & Hs & Hb & _).
    exists s. split; [exact Hs|exact Hb].
Qed.

Lemma scenario_24_takes_25_months_witness :
  valid_today (mkdate 2025 1 15)
  /\ months_until (mkdate 2025 1 15) (mkdate 2027 1 15) = 24
  /\ calculate_monthly_payment (mkdate 2025 1 15) 24000 6 (mkdate 2027 1 15)
     = Some 1063.69%float
  /\ pays_off_in (mkdate 2025 1 15) 24000 1063.69 6 25 (mkdate 2027 2 1).
Proof.
  assert (Hv : valid_today (mkdate 2025 1 15))
    by (unfold valid_today, MAXYEAR; simpl; lia).
  split; [exact Hv|]. split; [reflexivity|].
  destruct (scenario_24_takes_25_months (mkdate 2025 1 15) (mkdate 2027 1 15)
              Hv eq_refl) as (H1 & H2 & _).
  split; [exact H1|exact H2].
Defined.

(** * Zero rate and non-positive horizons *)

Lemma monthly_rate_of_zero : (monthly_rate_of 0 =? 0)%float = true.
Proof. reflexivity. Qed.

(** C5: at rate 0 and with a positive number of months,
    [calculate_monthly_payment] returns [round(balance / months, 2)]; for
    balance 1200 and a target 12 months out that is exactly 100.00. *)
Theorem zero_rate_payment (today end_date : date) (balance : float) :
  0 < months_until today end_date ->
  calculate_monthly_payment today balance 0 end_date
  = Some (PyFloat.round
            (balance / PyFloat.of_int (months_until today end_date)) 2)
  /\ (months_until today end_date = 12 ->
      calculate_monthly_payment today 1200 0 end_date = Some 100%float).
Proof.
  intros Hm.
  assert (H : forall b,
             calculate_monthly_payment today b 0 end_date
             = Some (PyFloat.round
                       (b / PyFloat.of_int (months_until today end_date)) 2)).
  { intros b. unfold calculate_monthly_payment, payment_formula, div_int.
    replace (months_until today end_date <=? 0) with false
      by (symmetry; apply Z.leb_gt; lia).
    rewrite monthly_rate_of_zero.
    replace (months_until today end_date =? 0) with false
      by (symmetry; apply Z.eqb_neq; lia).
    reflexivity. }
  split; [apply H|].
  intros H12. rewrite H, H12. reflexivity.
Qed.

Lemma zero_rate_payment_witness :
  0 < months_until (mkdate 2025 1 15) (mkdate 2026 1 15)
  /\ calculate_monthly_payment (mkdate 2025 1 15) 1200 0 (mkdate 2026 1 15)
     = Some 100%float.
Proof.
  split; [reflexivity|].
  exact (proj2 (zero_rate_payment (mkdate 2025 1 15) (mkdate 2026 1 15) 1200
                  eq_refl) eq_refl).
Defined.

(** C8: with a non-positive number of months to the target (in particular
    a target in the month of the clock) both solvers return [None]; the
    division by [months] is not reached and nothing is raised. *)
Theorem non_positive_horizon (today end_date : date)
        (balance interest_rate monthly_payment : float) :
  months_until today end_date <= 0
  \/ (year end_date = year today /\ month end_date = month today) ->
  calculate_monthly_payment today balance interest_rate end_date = None
  /\ calculate_interest_rate today balance monthly_payment end_date
     = Returns None.
Proof.
  intros H.
  assert (Hm : months_until today end_date <= 0).
  { destruct H as [H|[Hy Hm]]; [exact H|].
    unfold months_until. rewrite Hy, Hm. lia. }
  apply Z.leb_le in Hm.
  unfold calculate_monthly_payment, calculate_interest_rate.
  rewrite Hm. split; reflexivity.
Qed.

Lemma non_positive_horizon_witness :
  months_until (mkdate 2025 1 15) (mkdate 2025 1 31) = 0
  /\ calculate_monthly_payment (mkdate 2025 1 15) 1000 5 (mkdate 2025 1 31)
     = None
  /\ calculate_interest_rate (mkdate 2025 1 15) 1000 100 (mkdate 2025 1 31)
     = Returns None.
Proof.
  split; [reflexivity|].
  apply (non_positive_horizon (mkdate 2025 1 15) (mkdate 2025 1 31)).
  right. split; reflexivity.
Defined.

(** * Bounded termination *)

Section Termination.
Variable today : date.
Variables monthly_payment monthly_rate : float.

Let body := end_date_body monthly_payment monthly_rate.

Lemma months_left_decreases (s s' : sim) :
  body s = Next s' -> (months_left s' < months_left s)%nat.
Proof.
  intros H. apply end_date_body_count in H. unfold months_left. lia.
Qed.

Lemma state_at_count (k : nat) (s s' : sim) :
  state_at body k s = Some s' -> count s' = count s + Z.of_nat k.
Proof.
  revert s. induction k as [|k IH]; intros s H.
  - simpl in H. injection H as <-. lia.
  - simpl in H. destruct (body s) as [s1| | |] eqn:E; try discriminate.
    apply end_date_body_count in E. rewrite (IH _ H). lia.
Qed.

Lemma end_date_body_capped (s : sim) :
  max_months <= count s -> body s = Exit s.
Proof.
  intros H. unfold body, end_date_body.
  replace (count s <? max_months) with false
    by (symmetry; apply Z.ltb_ge; lia).
  rewrite andb_false_r. reflexivity.
Qed.

End Termination.

Section ForRange.
Context {S R : Type}.
Variable body : S -> flow S R.

Lemma for_range_state_at (n : nat) (s s' : S) :
  state_at body n s = Some s' -> for_range body n s = Returns (inl s').
Proof.
  revert s. induction n as [|n IH]; intros s H; simpl in *.
  - congruence.
  - destruct (body s); try discriminate. auto.
Qed.

Lemma for_range_no_throw (n : nat) (s : S) :
  (forall x e, body x <> Throw e) ->
  exists v, for_range body n s = Returns v.
Proof.
  intros Hb. revert s. induction n as [|n IH]; intros s; simpl.
  - eauto.
  - destruct (body s) eqn:E; eauto. exfalso. eapply Hb; eauto.
Qed.

(** A [for] loop that returned a value from inside did so at some turn. *)
Lemma for_range_ret (n : nat) (s : S) (v : R) :
  for_range body n s = Returns (inr v) ->
  exists k s', (k < n)%nat /\ state_at body k s = Some s' /\ body s' = Ret v.
Proof.
  revert s. induction n as [|n IH]; intros s H; simpl in *.
  - discriminate.
  - destruct (body s) as [s1|s1|w|e] eqn:E; try discriminate.
    + destruct (IH _ H) as (k & s' & Hk & Hs & Hb).
      exists (Datatypes.S k), s'. simpl. rewrite E. repeat split; auto. lia.
    + injection H as <-. exists 0%nat, s. repeat split; auto. lia.
Qed.

End ForRange.

Lemma bisect_body_no_throw (today : date) (balance monthly_payment : float)
      (end_date : date) (lh : float * float) (e : exn) :
  bisect_body today balance monthly_payment end_date lh <> Throw e.
Proof.
  unfold bisect_body. destruct lh as [low high].
  destruct (calculate_monthly_payment _ _ _ _); [|discriminate].
  destruct (_ <? _)%float; [discriminate|].
  destruct (_ <? _)%float; discriminate.
Qed.

(** The division by [months] cannot raise behind the guard. *)
Lemma calculate_interest_rate_guarded (today : date)
      (balance monthly_payment : float) (end_date : date) :
  calculate_interest_rate today balance monthly_payment end_date
  = if (months_until today end_date <=? 0) || (monthly_payment <=? 0)%float
    then Returns None
    else if (monthly_payment
             <=? balance / PyFloat.of_int (months_until today end_date))%float
         then Returns None
         else
           match for_range (bisect_body today balance monthly_payment end_date)
                           300 (0.0001, 100.0)%float with
           | Returns (inl _) => Returns None
           | Returns (inr v) => Returns v
           | Raises e => Raises e
           end.
Proof.
  unfold calculate_interest_rate.
  destruct (months_until today end_date <=? 0) eqn:Em; [reflexivity|].
  destruct (monthly_payment <=? 0)%float; [reflexivity|].
  unfold div_int, orb.
  replace (months_until today end_date =? 0) with false.
  2:{ symmetry. apply Z.eqb_neq. apply Z.leb_gt in Em. lia. }
  unfold bind.
  destruct (monthly_payment <=? _)%float; [reflexivity|].
  destruct (for_range _ _ _) as [[lh|v]|e]; reflexivity.
Qed.

(** C6: the loop of [calculate_end_date] completes at most 1200
    iterations and the function gives one and the same result with any fuel
    above 1200; once 1200 iterations are completed it returns [None].  The
    loop of [calculate_interest_rate] runs at most 300 iterations, the
    function always returns without raising, and after 300 iterations
    without convergence it returns [None]. *)
Theorem bounded_termination (today : date)
        (balance monthly_payment interest_rate : float) (end_date : date) :
  let body := end_date_body monthly_payment (monthly_rate_of interest_rate) in
  let start := mksim balance today 0 in
  let bisect := bisect_body today balance monthly_payment end_date in
  (forall fuel, (iterations body fuel start <= 1200)%nat)
  /\ (exists r, forall extra,
         calculate_end_date today (1201 + extra) balance monthly_payment
                            interest_rate = Some r)
  /\ (forall s, state_at body 1200 start = Some s ->
        forall extra,
          calculate_end_date today (1201 + extra) balance monthly_payment
                             interest_rate = Some (Returns None))
  /\ (iterations bisect 300 (0.0001, 100.0)%float <= 300)%nat
  /\ (exists v,
         calculate_interest_rate today balance monthly_payment end_date
         = Returns v)
  /\ (forall lh, state_at bisect 300 (0.0001, 100.0)%float = Some lh ->
        calculate_interest_rate today balance monthly_payment end_date
        = Returns None).
Proof.
  intros body start bisect.
  assert (Hstart : months_left start = 1200%nat) by reflexivity.
  split; [|split; [|split; [|split; [|split]]]].
  - intros fuel. rewrite <- Hstart.
    apply iterations_measure.
    apply months_left_decreases.
  - assert (Hr : exists r,
               calculate_end_date today 1201 balance monthly_payment
                                  interest_rate = Some r).
    { unfold calculate_end_date.
      destruct (monthly_payment <=? 0)%float; [eauto|].
      destruct (while_measure body months_left
                  (months_left_decreases monthly_payment
                     (monthly_rate_of interest_rate))
                  1201%nat start) as [Hw _].
      { rewrite Hstart. lia. }
      fold body start. destruct (while body 1201 start) as [[w|e]|].
      - eauto.
      - eauto.
      - contradiction. }
    destruct Hr as [r Hr]. exists r. intros extra.
    apply calculate_end_date_more_fuel. exact Hr.
  - intros s Hs extra. unfold calculate_end_date.
    destruct (monthly_payment <=? 0)%float; [reflexivity|].
    pose proof (state_at_count _ _ _ _ _ Hs) as Hc. simpl in Hc.
    assert (Hexit : body s = Exit s).
    { apply end_date_body_capped. unfold max_months. lia. }
    destruct (while_intro body 1200 start s (Returns (inl s)) Hs) with
      (fuel := (1201 + extra)%nat) as [Hw _].
    { unfold stops. rewrite Hexit. reflexivity. }
    { lia. }
    fold body start. rewrite Hw. unfold end_date_result.
    replace (count s <? max_months) with false; [reflexivity|].
    symmetry. apply Z.ltb_ge. unfold max_months. lia.
  - apply iterations_le_fuel.
  - rewrite calculate_interest_rate_guarded.
    destruct (_ || _); [eauto|].
    destruct (monthly_payment <=? _)%float; [eauto|].
    destruct (for_range_no_throw bisect 300 (0.0001, 100.0)%float) as [v Hv].
    { intros x e. apply bisect_body_no_throw. }
    fold bisect. rewrite Hv. destruct v; eauto.
  - intros lh Hs. rewrite calculate_interest_rate_guarded.
    destruct (_ || _); [reflexivity|].
    destruct (monthly_payment <=? _)%float; [reflexivity|].
    fold bisect. rewrite (for_range_state_at bisect 300 _ _ Hs). reflexivity.
Qed.

(** * Floats: the clamp *)

Lemma Prim2SF_zero : Prim2SF 0 = S754_zero false.
Proof. reflexivity. Qed.

Lemma ltb_leb (x y : float) : (x <? y)%float = true -> (x <=? y)%float = true.
Proof.
  rewrite ltb_spec, leb_spec. unfold SFltb, SFleb.
  destruct (SFcompare _ _) as [[]|]; congruence.
Qed.

Lemma max0_nonneg (x : float) : (0 <=? PyFloat.max0 x)%float = true.
Proof.
  unfold PyFloat.max0. destruct (0 <? x)%float eqn:E.
  - apply ltb_leb. exact E.
  - reflexivity.
Qed.

(** A clamped value is zero or strictly positive. *)
Lemma max0_cases (x : float) :
  PyFloat.max0 x = 0%float \/ (0 <? PyFloat.max0 x)%float = true.
Proof.
  unfold PyFloat.max0. destruct (0 <? x)%float eqn:E; auto.
Qed.

Lemma sub_diag_spec (b : float) :
  Prim2SF (b - b) = S754_zero false \/ Prim2SF (b - b) = S754_nan.
Proof.
  rewrite sub_spec. unfold SF64sub, SFsub.
  destruct (Prim2SF b) as [[]|[]| |s m e]; auto.
  rewrite Z.sub_diag. auto.
Qed.

(** Paying the whole balance leaves exactly zero after the clamp. *)
Lemma clamp_sub_diag (b : float) :
  PyFloat.max0 (PyFloat.round (b - b) 2) = 0%float.
Proof.
  assert (H : PyFloat.round (b - b) 2 = (b - b)%float).
  { unfold PyFloat.round. destruct (sub_diag_spec b) as [-> | ->]; reflexivity. }
  rewrite H. unfold PyFloat.max0. rewrite ltb_spec, Prim2SF_zero.
  destruct (sub_diag_spec b) as [-> | ->]; reflexivity.
Qed.

Lemma clamp_zero : PyFloat.max0 (PyFloat.round 0 2) = 0%float.
Proof. reflexivity. Qed.

(** * The steps of the two simulations *)

(** One month of [calculate_end_date]. *)
Lemma end_date_body_next (monthly_payment monthly_rate : float) (s s' : sim) :
  end_date_body monthly_payment monthly_rate s = Next s' ->
  (0 <? balance_of s)%float = true
  /\ balance_of s'
     = balance_step monthly_payment monthly_rate (balance_of s)
  /\ increment_month (current s) = Returns (current s')
  /\ count s' = count s + 1.
Proof.
  unfold end_date_body.
  destruct (0 <? balance_of s)%float; simpl; [|discriminate].
  destruct (count s <? max_months); [|discriminate].
  destruct (_ && _); [discriminate|].
  destruct (increment_month (current s)); [|discriminate].
  intros H. injection H as <-. simpl. auto.
Qed.

Lemma breakdown_body_guard_false (monthly_payment monthly_rate : float)
      (end_date_calc : date) (s : sched) :
  breakdown_guard end_date_calc s = false ->
  breakdown_body monthly_payment monthly_rate end_date_calc s = Exit s.
Proof.
  unfold breakdown_guard, breakdown_body. intros ->. reflexivity.
Qed.

Lemma breakdown_step_spec (monthly_payment monthly_rate : float)
      (end_date_calc : date) (s s' : sched) :
  breakdown_step monthly_payment monthly_rate end_date_calc s s' ->
  let p := principal_of monthly_payment monthly_rate end_date_calc s in
  sched_balance s' = PyFloat.max0 (PyFloat.round (sched_balance s - p) 2)
  /\ (if final_payment monthly_payment end_date_calc s
      then sched_balance s' = 0%float else True)
  /\ (exists payment interest,
         rows s' = (rows s ++ [mkrow (current_date s) payment interest
                                     (PyFloat.round p 2) (sched_balance s')])%list)
  /\ (breakdown_body monthly_payment monthly_rate end_date_calc s = Next s' ->
      (0 <? sched_balance s')%float = true
      /\ increment_month (current_date s) = Returns (current_date s'))
  /\ (breakdown_body monthly_payment monthly_rate end_date_calc s = Exit s' ->
      sched_balance s' = 0%float /\ current_date s' = current_date s).
Proof.
  intros [Hg Hb]. unfold principal_of.
  unfold breakdown_guard in Hg. unfold breakdown_body in *. rewrite Hg in *.
  fold (final_payment monthly_payment end_date_calc s) in *.
  destruct (final_payment monthly_payment end_date_calc s) eqn:Ef.
  - (* the final payment *)
    cbv zeta in *. rewrite clamp_zero in *.
    change (0 =? 0)%float with true in *. cbv iota in *.
    destruct Hb as [Hb|Hb]; [discriminate|]. injection Hb as <-. simpl.
    rewrite clamp_sub_diag.
    split; [reflexivity|]. split; [reflexivity|]. split; [eauto|].
    split; [discriminate|]. auto.
  - cbv zeta in *.
    set (nb := PyFloat.max0 (PyFloat.round
                 (sched_balance s
                  - (monthly_payment - sched_balance s * monthly_rate)) 2)) in *.
    destruct (nb =? 0)%float eqn:Ez.
    + destruct Hb as [Hb|Hb]; [discriminate|]. injection Hb as <-. simpl.
      split; [reflexivity|]. split; [exact I|]. split; [eauto|].
      split; [discriminate|]. intros _. split; [|reflexivity].
      destruct (max0_cases (PyFloat.round
                 (sched_balance s
                  - (monthly_payment - sched_balance s * monthly_rate)) 2))
        as [H|H]; fold nb in H; [exact H|].
      exfalso. revert Ez H. rewrite eqb_spec, ltb_spec, Prim2SF_zero.
      unfold SFeqb, SFltb.
      destruct (Prim2SF nb) as [[]|[]| |[] m e]; simpl; congruence.
    + destruct (increment_month (current_date s)) as [d|e] eqn:Ei.
      * destruct Hb as [Hb|Hb]; [|discriminate]. injection Hb as <-. simpl.
        split; [reflexivity|]. split; [exact I|]. split; [eauto|].
        split; [|discriminate]. intros _. split; [|reflexivity].
        destruct (max0_cases (PyFloat.round
                   (sched_balance s
                    - (monthly_payment - sched_balance s * monthly_rate)) 2))
          as [H|H]; fold nb in H; [|exact H].
        rewrite H in Ez. discriminate.
      * destruct Hb as [Hb|Hb]; discriminate.
Qed.

Lemma breakdown_body_next (monthly_payment monthly_rate : float)
      (end_date_calc : date) (s s' : sched) :
  breakdown_body monthly_payment monthly_rate end_date_calc s = Next s' ->
  breakdown_step monthly_payment monthly_rate end_date_calc s s'.
Proof.
  intros H. split; [|auto].
  destruct (breakdown_guard end_date_calc s) eqn:E; [reflexivity|].
  rewrite breakdown_body_guard_false in H by exact E. discriminate.
Qed.

Lemma breakdown_body_exit (monthly_payment monthly_rate : float)
      (end_date_calc : date) (s s' : sched) :
  breakdown_body monthly_payment monthly_rate end_date_calc s = Exit s' ->
  (breakdown_guard end_date_calc s = false /\ s' = s)
  \/ breakdown_step monthly_payment monthly_rate end_date_calc s s'.
Proof.
  intros H. destruct (breakdown_guard end_date_calc s) eqn:E.
  - right. split; auto.
  - left. rewrite breakdown_body_guard_false in H by exact E.
    injection H as <-. auto.
Qed.

Section Invariants.
Context {S R : Type}.
Variable body : S -> flow S R.
Variable P : S -> Prop.
Hypothesis P_next : forall s s', P s -> body s = Next s' -> P s'.

Lemma state_at_invariant (k : nat) (s s' : S) :
  P s -> state_at body k s = Some s' -> P s'.
Proof.
  revert s. induction k as [|k IH]; intros s Hp H; simpl in H.
  - injection H as <-. exact Hp.
  - destruct (body s) as [s1| | |] eqn:E; try discriminate.
    eapply IH; [|exact H]. eapply P_next; eauto.
Qed.

Lemma while_invariant (fuel : nat) (s : S) (r : result (S + R)) :
  P s -> while body fuel s = Some r ->
  exists s', P s' /\ stops body s' r.
Proof.
  intros Hp H. destruct (while_inv body fuel s r H) as (k & s' & _ & Hs & Hst & _).
  exists s'. split; [|exact Hst]. eapply state_at_invariant; eauto.
Qed.

End Invariants.

Lemma breakdown_step_rows_nonneg (monthly_payment monthly_rate : float)
      (end_date_calc : date) (s s' : sched) :
  breakdown_step monthly_payment monthly_rate end_date_calc s s' ->
  Forall (fun r => nonneg (row_balance r)) (rows s) ->
  Forall (fun r => nonneg (row_balance r)) (rows s').
Proof.
  intros Hst Hf.
  destruct (breakdown_step_spec _ _ _ _ _ Hst) as (Hb & _ & (p & i & Hr) & _).
  rewrite Hr. apply Forall_app. split; [exact Hf|].
  constructor; [|constructor]. simpl. rewrite Hb. apply max0_nonneg.
Qed.

(** C9: in [calculate_end_date] and in [calculate_interest_breakdown] every
    step leaves the balance [max(0, round(balance - principal_paid, 2))],
    which is never negative: so are all balances the payoff loop reaches
    after its first step and all balances on the lines of a schedule. *)
Theorem balance_never_negative (today : date)
        (monthly_payment interest_rate : float) :
  let monthly_rate := monthly_rate_of interest_rate in
  (forall s s',
      end_date_body monthly_payment monthly_rate s = Next s' ->
      balance_of s'
      = PyFloat.max0
          (PyFloat.round
             (balance_of s - (monthly_payment - balance_of s * monthly_rate)) 2)
      /\ nonneg (balance_of s'))
  /\ (forall end_date_calc s s',
         breakdown_step monthly_payment monthly_rate end_date_calc s s' ->
         sched_balance s'
         = PyFloat.max0
             (PyFloat.round
                (sched_balance s
                 - principal_of monthly_payment monthly_rate end_date_calc s) 2)
         /\ nonneg (sched_balance s'))
  /\ (forall balance k s,
         (0 < k)%nat ->
         state_at (end_date_body monthly_payment monthly_rate) k
                  (mksim balance today 0) = Some s ->
         nonneg (balance_of s))
  /\ (forall fuel balance end_date lines total,
         calculate_interest_breakdown today fuel balance monthly_payment
                                      interest_rate end_date
         = Some (Returns (Schedule lines total)) ->
         Forall (fun r => nonneg (row_balance r)) lines).
Proof.
  intros monthly_rate.
  assert (H1 : forall s s',
             end_date_body monthly_payment monthly_rate s = Next s' ->
             balance_of s'
             = PyFloat.max0
                 (PyFloat.round
                    (balance_of s
                     - (monthly_payment - balance_of s * monthly_rate)) 2)
             /\ nonneg (balance_of s')).
  { intros s s' H. apply end_date_body_next in H. destruct H as (_ & Hb & _).
    rewrite Hb. split; [reflexivity|]. apply max0_nonneg. }
  split; [exact H1|]. split; [|split].
  - intros D s s' Hst.
    destruct (breakdown_step_spec _ _ _ _ _ Hst) as (Hb & _).
    split; [exact Hb|]. unfold nonneg. rewrite Hb. apply max0_nonneg.
  - intros balance k s Hk Hs. destruct k as [|k]; [lia|].
    rewrite state_at_succ in Hs.
    destruct (state_at _ k _) as [s1|]; [|discriminate].
    destruct (end_date_body monthly_payment monthly_rate s1) as [s2| | |] eqn:E;
      try discriminate.
    injection Hs as <-. apply (H1 _ _ E).
  - intros fuel balance end_date lines total.
    unfold calculate_interest_breakdown.
    destruct (increment_month today) as [start|]; [|discriminate].
    destruct (calculate_end_date _ _ _ _ _) as [[[D|]|]|]; try discriminate.
    fold monthly_rate.
    destruct (while _ fuel _) as [[w|]|] eqn:Ew; try discriminate.
    intros H. injection H as H.
    destruct (while_invariant
                (breakdown_body monthly_payment monthly_rate D)
                (fun s => Forall (fun r => nonneg (row_balance r)) (rows s)))
      with (fuel := fuel) (s := mksched balance start 0 []) (r := Returns w)
      as (s' & Hp & Hst).
    + intros s s' Hp Hn. apply breakdown_body_next in Hn.
      eapply breakdown_step_rows_nonneg; eauto.
    + constructor.
    + exact Ew.
    + unfold stops in Hst.
      destruct (breakdown_body monthly_payment monthly_rate D s')
        as [s2|s2|v|e] eqn:E.
      * contradiction.
      * injection Hst as ->. simpl in H. injection H as <- _.
        destruct (breakdown_body_exit _ _ _ _ _ E) as [[_ ->]|Hs]; [exact Hp|].
        eapply breakdown_step_rows_nonneg; eauto.
      * destruct v.
      * discriminate.
Qed.

(** * The schedule generator *)

Lemma date_leb_add_months (d : date) (a b : Z) :
  1 <= a <= b -> date_leb (add_months d a) (add_months d b) = true.
Proof.
  intros H. unfold date_leb, add_months.
  replace (a =? 0) with false by (symmetry; apply Z.eqb_neq; lia).
  replace (b =? 0) with false by (symmetry; apply Z.eqb_neq; lia).
  simpl.
  rewrite !orb_true_iff, !andb_true_iff, !orb_true_iff, !andb_true_iff,
    !Z.ltb_lt, !Z.eqb_eq, Z.leb_le.
  Z.div_mod_to_equations. lia.
Qed.

Lemma breakdown_body_throw (monthly_payment monthly_rate : float)
      (end_date_calc : date) (s : sched) (e : exn) :
  breakdown_body monthly_payment monthly_rate end_date_calc s = Throw e ->
  increment_month (current_date s) = Raises e.
Proof.
  unfold breakdown_body.
  destruct (_ && _); [|discriminate].
  destruct (_ || _); cbv zeta.
  - destruct (_ =? _)%float; [discriminate|].
    destruct (increment_month (current_date s)); [discriminate|].
    intros H. injection H as <-. reflexivity.
  - destruct (_ =? _)%float; [discriminate|].
    destruct (increment_month (current_date s)); [discriminate|].
    intros H. injection H as <-. reflexivity.
Qed.

Section Schedule.
Variable today : date.
Variables monthly_payment monthly_rate : float.
Variable N : nat.
Hypothesis today_ok : valid_today today.
Hypothesis N_bound : (N < 1200)%nat.

Let D := add_months today (Z.of_nat N).
Let body := breakdown_body monthly_payment monthly_rate D.

Lemma sched_inv_guard (j : nat) (s : sched) :
  sched_inv today N j s -> breakdown_guard D s = true.
Proof.
  intros (Hd & Hb & Hj). unfold breakdown_guard. rewrite Hb, Hd. simpl.
  apply date_leb_add_months. lia.
Qed.

Lemma sched_inv_turn (j : nat) (s : sched) :
  sched_inv today N j s ->
  exists s',
    breakdown_step monthly_payment monthly_rate D s s'
    /\ ((body s = Exit s' /\ sched_balance s' = 0%float)
        \/ (body s = Next s' /\ sched_inv today N (Datatypes.S j) s')).
Proof.
  intros Hi. pose proof (sched_inv_guard j s Hi) as Hg.
  destruct Hi as (Hd & Hb & Hj).
  destruct (body s) as [s'|s'|v|e] eqn:E.
  - exists s'. assert (Hst : breakdown_step monthly_payment monthly_rate D s s')
      by (split; auto).
    split; [exact Hst|]. right. split; [reflexivity|].
    destruct (breakdown_step_spec _ _ _ _ _ Hst) as (_ & Hf & _ & Hn & _).
    destruct (Hn E) as [Hpos Hinc].
    assert (Hnf : final_payment monthly_payment D s = false).
    { destruct (final_payment monthly_payment D s); [|reflexivity].
      rewrite Hf in Hpos. discriminate. }
    rewrite Hd in Hinc.
    rewrite increment_month_valid in Hinc by (auto; lia).
    injection Hinc as Hinc.
    unfold sched_inv. split; [|split; [exact Hpos|]].
    + rewrite <- Hinc. f_equal. lia.
    + unfold final_payment in Hnf. apply orb_false_iff in Hnf.
      destruct Hnf as [Hnf _]. rewrite Hd in Hnf. unfold D in Hnf.
      destruct (Nat.eq_dec (Datatypes.S j) N) as [Heq|Hne]; [|lia].
      exfalso. rewrite <- Heq in Hnf.
      replace (Z.of_nat (Datatypes.S j)) with (Z.of_nat j + 1) in Hnf by lia.
      rewrite !Z.eqb_refl in Hnf. discriminate.
  - exists s'. assert (Hst : breakdown_step monthly_payment monthly_rate D s s')
      by (split; auto).
    split; [exact Hst|]. left. split; [reflexivity|].
    destruct (breakdown_step_spec _ _ _ _ _ Hst) as (_ & _ & _ & _ & Hx).
    apply Hx. exact E.
  - destruct v.
  - apply breakdown_body_throw in E. rewrite Hd in E.
    rewrite increment_month_valid in E by (auto; lia). discriminate.
Qed.

(** From turn [j] the loop runs to a zero balance within the months left,
    adding the lines of an amortization. *)
Lemma schedule_run (m : nat) :
  forall (j : nat) (s : sched) (fuel : nat),
    sched_inv today N j s -> (N - j <= m)%nat -> (m <= fuel)%nat ->
    exists s' lines,
      while body fuel s = Some (Returns (inl s'))
      /\ rows s' = (rows s ++ lines)%list
      /\ amortizes today (sched_balance s) (Z.of_nat j + 1) lines
      /\ (List.length lines <= N - j)%nat.
Proof.
  induction m as [|m IH]; intros j s fuel Hi Hm Hf.
  - destruct Hi as (_ & _ & Hj). lia.
  - destruct fuel as [|fuel]; [lia|].
    destruct (sched_inv_turn j s Hi) as (s1 & Hst & Hcase).
    destruct (breakdown_step_spec _ _ _ _ _ Hst)
      as (Hb & _ & (pay & int & Hr) & _).
    destruct Hi as (Hd & Hpos & Hj).
    simpl. destruct Hcase as [[E Hz]|[E Hi1]]; fold body; rewrite E.
    + exists s1, [mkrow (current_date s) pay int
                        (PyFloat.round
                           (principal_of monthly_payment monthly_rate D s) 2)
                        (sched_balance s1)].
      split; [reflexivity|]. split; [exact Hr|]. split.
      * eapply amortizes_last; simpl; eauto.
      * simpl. lia.
    + destruct (IH (Datatypes.S j) s1 fuel Hi1 ltac:(lia) ltac:(lia))
        as (s' & lines & Hw & Hrows & Ham & Hlen).
      exists s', (mkrow (current_date s) pay int
                        (PyFloat.round
                           (principal_of monthly_payment monthly_rate D s) 2)
                        (sched_balance s1) :: lines).
      split; [exact Hw|]. split.
      * rewrite Hrows, Hr, <- app_assoc. reflexivity.
      * split.
        -- eapply amortizes_cons; simpl; eauto.
           ++ destruct Hi1 as (_ & Hp1 & _). exact Hp1.
           ++ replace (Z.of_nat j + 1 + 1) with (Z.of_nat (Datatypes.S j) + 1)
                by lia.
              exact Ham.
        -- simpl. destruct Hi1 as (_ & _ & Hj1). lia.
Qed.

End Schedule.

Section Payoff.
Variables monthly_payment monthly_rate : float.

Let pbody := payoff_body monthly_payment monthly_rate.

Lemma payoff_body_next (bc bc' : float * Z) :
  pbody bc = Next bc' ->
  (0 <? fst bc)%float = true /\ snd bc < max_months
  /\ bc' = (balance_step monthly_payment monthly_rate (fst bc), snd bc + 1).
Proof.
  unfold pbody, payoff_body. destruct bc as [b n]. simpl.
  destruct (0 <? b)%float; simpl; [|discriminate].
  destruct (n <? max_months) eqn:E; [|discriminate].
  destruct (_ && _); [discriminate|].
  intros H. injection H as <-. apply Z.ltb_lt in E. auto.
Qed.

Lemma payoff_state_count (k : nat) (bc bc' : float * Z) :
  state_at pbody k bc = Some bc' -> snd bc' = snd bc + Z.of_nat k.
Proof.
  revert bc. induction k as [|k IH]; intros bc H; simpl in H.
  - injection H as <-. lia.
  - destruct (pbody bc) as [bc1| | |] eqn:E; try discriminate.
    apply payoff_body_next in E. destruct E as (_ & _ & ->).
    rewrite (IH _ H). simpl. lia.
Qed.

Lemma payoff_body_first (balance : float) :
  (0 <? balance)%float = true ->
  pbody (balance, 0)
  = Next (balance_step monthly_payment monthly_rate balance, 1).
Proof.
  intros H. unfold pbody, payoff_body. rewrite H. simpl.
  rewrite andb_false_r. reflexivity.
Qed.

Lemma payoff_body_ret (bc : float * Z) (v : option Z) :
  pbody bc = Ret v -> v = None.
Proof.
  unfold pbody, payoff_body. destruct bc as [b n].
  destruct (_ && _); [|discriminate].
  destruct (_ && _); [|discriminate].
  intros H. injection H as <-. reflexivity.
Qed.

Lemma payoff_body_exit (bc bc' : float * Z) :
  pbody bc = Exit bc' -> bc' = bc.
Proof.
  unfold pbody, payoff_body. destruct bc as [b n].
  destruct (_ && _).
  - destruct (_ && _); discriminate.
  - intros H. injection H as <-. reflexivity.
Qed.

End Payoff.

(** A payoff date of a positive balance is between 1 and 1199 months after
    the clock, and the loop found it within the fuel. *)
Lemma payoff_date_months (today : date) (fuel : nat)
      (balance monthly_payment interest_rate : float) (d : date) :
  valid_today today ->
  (0 <? balance)%float = true ->
  calculate_end_date today fuel balance monthly_payment interest_rate
  = Some (Returns (Some d)) ->
  exists n : nat,
    (1 <= n < 1200)%nat /\ (n < fuel)%nat /\ d = add_months today (Z.of_nat n).
Proof.
  intros Hv Hpos. rewrite calculate_end_date_payoff by exact Hv.
  unfold payoff_months. destruct (monthly_payment <=? 0)%float; [discriminate|].
  destruct (while _ fuel _) as [[r|e]|] eqn:Ew; try discriminate.
  simpl. intros H. injection H as H.
  destruct (while_inv _ _ _ _ Ew) as (k & bc & Hk & Hs & Hst & _).
  pose proof (payoff_state_count _ _ _ _ _ Hs) as Hc. simpl in Hc.
  assert (Hk1 : (1 <= k)%nat).
  { destruct k as [|k]; [|lia]. exfalso. simpl in Hs. injection Hs as <-.
    unfold stops in Hst. rewrite payoff_body_first in Hst by exact Hpos.
    exact Hst. }
  unfold stops in Hst.
  destruct (payoff_body monthly_payment (monthly_rate_of interest_rate) bc)
    as [x|x|v|e] eqn:E.
  - contradiction.
  - apply payoff_body_exit in E. subst x. injection Hst as ->.
    destruct bc as [b n]. simpl in *.
    destruct (n <? max_months) eqn:En; [|discriminate].
    apply Z.ltb_lt in En. unfold max_months in En.
    injection H as <-. exists k. subst n.
    split; [lia|]. split; [exact Hk|reflexivity].
  - apply payoff_body_ret in E. subst v. injection Hst as ->.
    simpl in H. discriminate.
  - discriminate.
Qed.

Lemma increment_month_today (today : date) :
  valid_today today -> increment_month today = Returns (add_months today 1).
Proof.
  intros Hv. exact (increment_month_valid today 0 Hv ltac:(lia)).
Qed.

(** The shape of a schedule: when [calculate_end_date] finds the payoff date
    [n] months after the clock for a positive balance, the schedule has
    between 1 and [n] lines, which amortize the balance from the month after
    the clock. *)
Lemma schedule_shape (today : date) (fuel : nat)
      (balance monthly_payment interest_rate : float) (end_date d : date) :
  valid_today today ->
  (0 <? balance)%float = true ->
  calculate_end_date today fuel balance monthly_payment interest_rate
  = Some (Returns (Some d)) ->
  exists (n : nat) (lines : list row) (total : float),
    d = add_months today (Z.of_nat n)
    /\ calculate_interest_breakdown today fuel balance monthly_payment
                                    interest_rate end_date
       = Some (Returns (Schedule lines total))
    /\ amortizes today balance 1 lines
    /\ (List.length lines <= n)%nat.
Proof.
  intros Hv Hpos Hd.
  destruct (payoff_date_months _ _ _ _ _ _ Hv Hpos Hd) as (n & Hn & Hf & ->).
  unfold calculate_interest_breakdown. rewrite Hd.
  rewrite increment_month_today by exact Hv.
  destruct (schedule_run today monthly_payment (monthly_rate_of interest_rate)
              n Hv ltac:(lia) fuel 0%nat
              (mksched balance (add_months today 1) 0 []) fuel)
    as (s' & lines & Hw & Hrows & Ham & Hlen).
  - unfold sched_inv. simpl. repeat split; auto. lia.
  - lia.
  - lia.
  - rewrite Hw. simpl in Hrows. exists n, lines, (PyFloat.round (total_interest_paid s') 2).
    split; [reflexivity|]. split.
    + simpl. rewrite Hrows. reflexivity.
    + split; [exact Ham|lia].
Qed.

(** * Two passes: the payoff date and the lines of the schedule *)

Lemma amortizes_dates (today : date) (b : float) (j : Z) (lines : list row) :
  amortizes today b j lines ->
  map row_date lines = month_dates today j (List.length lines)
  /\ (1 <= List.length lines)%nat.
Proof.
  induction 1 as [b j r p Hd _ _ _|b j r p rest Hd _ _ _ _ [IH1 IH2]].
  - unfold month_dates. simpl. rewrite Hd, Z.add_0_r. split; [reflexivity|lia].
  - split; [|simpl; lia].
    unfold month_dates in *. simpl. rewrite Hd, Z.add_0_r. f_equal.
    rewrite IH1, <- seq_shift, map_map.
    apply map_ext. intros i. f_equal. lia.
Qed.

(** The last line of an amortization has balance zero, the lines before it
    a positive balance. *)
Lemma amortizes_last_line (today : date) (b : float) (j : Z) (lines : list row) :
  amortizes today b j lines ->
  exists before last,
    lines = (before ++ [last])%list
    /\ row_balance last = 0%float
    /\ row_date last = add_months today (j + Z.of_nat (List.length before))
    /\ Forall (fun r => (0 <? row_balance r)%float = true) before.
Proof.
  induction 1 as [b j r p Hd _ _ Hz
                 |b j r p rest Hd _ _ Hpos _ (before & last & -> & Hz & Hl & Hf)].
  - exists [], r. simpl. rewrite Z.add_0_r. auto.
  - exists (r :: before), last. simpl. repeat split; auto.
    rewrite Hl. f_equal. lia.
Qed.

(** C2, as stated, fails: for (24000, 1063.69, 6) at the clock 2025-01-15
    [calculate_end_date] returns 2027-02-01, 25 months out, and the schedule
    has 24 lines, the last dated 2027-01-01. *)
Lemma two_pass_disagreement :
  exists d lines total,
    calculate_end_date (mkdate 2025 1 15) 1201 24000 1063.69 6
    = Some (Returns (Some d))
    /\ calculate_interest_breakdown (mkdate 2025 1 15) 1201 24000 1063.69 6
                                    (mkdate 2027 1 15)
       = Some (Returns (Schedule lines total))
    /\ ~ one_row_per_month_until (mkdate 2025 1 15) d lines
    /\ List.length lines = 24%nat
    /\ months_until (mkdate 2025 1 15) d = 25.
Proof.
  eexists. eexists. eexists.
  split; [vm_compute; reflexivity|].
  split; [vm_compute; reflexivity|].
  split; [|split; reflexivity].
  intros H. apply (f_equal (@List.length date)) in H.
  unfold month_dates in H. rewrite !length_map, length_seq in H.
  vm_compute in H. discriminate.
Qed.

(** C2 (amended): when [calculate_end_date] returns the payoff date [d] for
    a positive balance, [calculate_interest_breakdown] emits exactly one row
    per month from the month after the clock, at least one row and never a
    row after [d]: the last row is dated [d] or, when the final payment
    is taken early, a month before [d]. *)
Theorem two_pass_never_later (today : date) (fuel : nat)
        (balance monthly_payment interest_rate : float) (end_date d : date) :
  valid_today today ->
  (0 <? balance)%float = true ->
  calculate_end_date today fuel balance monthly_payment interest_rate
  = Some (Returns (Some d)) ->
  exists lines total,
    calculate_interest_breakdown today fuel balance monthly_payment
                                 interest_rate end_date
    = Some (Returns (Schedule lines total))
    /\ map row_date lines = month_dates today 1 (List.length lines)
    /\ (1 <= Z.of_nat (List.length lines) <= months_until today d)
    /\ exists before last,
         lines = (before ++ [last])%list
         /\ months_until today (row_date last) = Z.of_nat (List.length lines).
Proof.
  intros Hv Hpos Hd.
  destruct (schedule_shape today fuel balance monthly_payment interest_rate
              end_date d Hv Hpos Hd) as (n & lines & total & -> & Hb & Ham & Hlen).
  exists lines, total. split; [exact Hb|].
  destruct (amortizes_dates _ _ _ _ Ham) as [Hdates H1].
  split; [exact Hdates|]. rewrite months_until_add_months.
  split; [lia|].
  destruct (amortizes_last_line _ _ _ _ Ham) as (before & last & -> & _ & Hl & _).
  exists before, last. split; [reflexivity|].
  rewrite Hl, months_until_add_months, length_app.
  change (List.length [last]) with 1%nat. lia.
Qed.

Lemma two_pass_never_later_witness :
  valid_today (mkdate 2025 1 15)
  /\ (0 <? 24000)%float = true
  /\ calculate_end_date (mkdate 2025 1 15) 1201 24000 1063.69 6
     = Some (Returns (Some (mkdate 2027 2 1)))
  /\ exists lines total,
       calculate_interest_breakdown (mkdate 2025 1 15) 1201 24000 1063.69 6
                                    (mkdate 2027 1 15)
       = Some (Returns (Schedule lines total))
       /\ (1 <= Z.of_nat (List.length lines) <= 25).
Proof.
  assert (Hv : valid_today (mkdate 2025 1 15))
    by (unfold valid_today, MAXYEAR; simpl; lia).
  assert (Hd : calculate_end_date (mkdate 2025 1 15) 1201 24000 1063.69 6
               = Some (Returns (Some (mkdate 2027 2 1))))
    by (vm_compute; reflexivity).
  split; [exact Hv|]. split; [reflexivity|]. split; [exact Hd|].
  destruct (two_pass_never_later (mkdate 2025 1 15) 1201 24000 1063.69 6
              (mkdate 2027 1 15) (mkdate 2027 2 1) Hv eq_refl Hd)
    as (lines & total & Hb & _ & Hlen & _).
  exists lines, total. split; [exact Hb|exact Hlen].
Defined.

(** * Schedule totals *)


Lemma breakdown_schedule_end_date (today : date) (fuel : nat)
      (balance monthly_payment interest_rate : float) (end_date : date)
      (lines : list row) (total : float) :
  calculate_interest_breakdown today fuel balance monthly_payment
                               interest_rate end_date
  = Some (Returns (Schedule lines total)) ->
  exists d,
    calculate_end_date today fuel balance monthly_payment interest_rate
    = Some (Returns (Some d)).
Proof.
  unfold calculate_interest_breakdown.
  destruct (increment_month today); [|discriminate].
  destruct (calculate_end_date _ _ _ _ _) as [[[d|]|]|]; try discriminate.
  eauto.
Qed.



(** * Unrepayable loans *)

Section Unrepayable.
Variable today : date.
Variables monthly_payment monthly_rate : float.

Let body := end_date_body monthly_payment monthly_rate.

Lemma end_date_body_exit (s x : sim) :
  body s = Exit x ->
  x = s /\ (0 <? balance_of s)%float && (count s <? max_months) = false.
Proof.
  unfold body, end_date_body.
  destruct ((0 <? balance_of s)%float && (count s <? max_months)).
  - destruct (_ && _); [discriminate|].
    destruct (increment_month (current s)); discriminate.
  - intros H. injection H as <-. auto.
Qed.

Lemma end_date_body_ret (s : sim) (v : option date) :
  body s = Ret v ->
  v = None
  /\ (0 <? balance_of s)%float = true /\ count s < max_months
  /\ (monthly_payment <=? balance_of s * monthly_rate)%float = true
  /\ 0 < count s.
Proof.
  unfold body, end_date_body.
  destruct (0 <? balance_of s)%float; simpl; [|discriminate].
  destruct (count s <? max_months) eqn:Ec; [|discriminate].
  destruct (monthly_payment <=? _)%float; simpl.
  - destruct (0 <? count s) eqn:E0.
    + intros H. injection H as <-.
      apply Z.ltb_lt in Ec. apply Z.ltb_lt in E0. auto.
    + destruct (increment_month (current s)); discriminate.
  - destruct (increment_month (current s)); discriminate.
Qed.

Lemma end_date_body_unrepayable (s : sim) :
  (0 <? balance_of s)%float = true -> count s < max_months ->
  (monthly_payment <=? balance_of s * monthly_rate)%float = true ->
  0 < count s ->
  body s = Ret None.
Proof.
  intros Hb Hc Hi H0. unfold body, end_date_body. rewrite Hb, Hi.
  replace (count s <? max_months) with true by (symmetry; apply Z.ltb_lt; lia).
  replace (0 <? count s) with true by (symmetry; apply Z.ltb_lt; lia).
  reflexivity.
Qed.

Lemma state_at_count_bound (k : nat) (s s' : sim) :
  count s <= max_months -> state_at body k s = Some s' ->
  count s + Z.of_nat k <= max_months.
Proof.
  revert s. induction k as [|k IH]; intros s Hc H.
  - lia.
  - simpl in H. destruct (body s) as [s1| | |] eqn:E; try discriminate.
    apply end_date_body_count in E. destruct E as [E1 E2].
    specialize (IH s1 ltac:(lia) H). lia.
Qed.

End Unrepayable.

Lemma calculate_end_date_capped (today : date) (extra : nat)
      (balance monthly_payment interest_rate : float) :
  capped today balance monthly_payment interest_rate ->
  calculate_end_date today (1201 + extra) balance monthly_payment interest_rate
  = Some (Returns None).
Proof.
  intros [s Hs]. unfold calculate_end_date.
  destruct (monthly_payment <=? 0)%float; [reflexivity|].
  pose proof (state_at_count _ _ _ _ _ Hs) as Hc. simpl in Hc.
  destruct (while_intro _ 1200 _ s (Returns (inl s)) Hs) with
    (fuel := (1201 + extra)%nat) as [Hw _].
  { unfold stops. rewrite end_date_body_capped; [reflexivity|].
    unfold max_months. lia. }
  { lia. }
  rewrite Hw. unfold end_date_result.
  replace (count s <? max_months) with false; [reflexivity|].
  symmetry. apply Z.ltb_ge. unfold max_months. lia.
Qed.

Lemma calculate_end_date_unrepayable (today : date) (extra : nat)
      (balance monthly_payment interest_rate : float) (k : nat) :
  unrepayable_at today balance monthly_payment interest_rate k ->
  calculate_end_date today (1201 + extra) balance monthly_payment interest_rate
  = Some (Returns None).
Proof.
  intros (Hk & s & Hs & Hb & Hc & Hi). unfold calculate_end_date.
  destruct (monthly_payment <=? 0)%float; [reflexivity|].
  pose proof (state_at_count _ _ _ _ _ Hs) as Hn. simpl in Hn.
  destruct (while_intro _ k _ s (Returns (inr None)) Hs) with
    (fuel := (1201 + extra)%nat) as [Hw _].
  { unfold stops. rewrite end_date_body_unrepayable; auto. lia. }
  { unfold max_months in Hc. lia. }
  rewrite Hw. reflexivity.
Qed.

Lemma calculate_end_date_none (today : date) (fuel : nat)
      (balance monthly_payment interest_rate : float) :
  calculate_end_date today fuel balance monthly_payment interest_rate
  = Some (Returns None) ->
  (monthly_payment <=? 0)%float = true
  \/ (exists k, unrepayable_at today balance monthly_payment interest_rate k)
  \/ capped today balance monthly_payment interest_rate.
Proof.
  unfold calculate_end_date.
  destruct (monthly_payment <=? 0)%float; [auto|]. intros H. right.
  destruct (while _ fuel _) as [[r|e]|] eqn:Ew; try discriminate.
  injection H as H.
  destruct (while_inv _ _ _ _ Ew) as (k & s & _ & Hs & Hst & _).
  pose proof (state_at_count _ _ _ _ _ Hs) as Hc. simpl in Hc.
  assert (Hb : 0 + Z.of_nat k <= max_months).
  { apply (state_at_count_bound monthly_payment (monthly_rate_of interest_rate)
             k (mksim balance today 0) s); [|exact Hs].
    unfold max_months. simpl. lia. }
  unfold stops in Hst.
  destruct (end_date_body monthly_payment (monthly_rate_of interest_rate) s)
    as [x|x|v|e] eqn:E.
  - contradiction.
  - right. apply end_date_body_exit in E. destruct E as [-> _].
    injection Hst as ->. simpl in H.
    destruct (count s <? max_months) eqn:Ec; [discriminate|].
    apply Z.ltb_ge in Ec. unfold max_months in *.
    assert (k = 1200%nat) by lia. subst k. exists s. exact Hs.
  - left. apply end_date_body_ret in E.
    destruct E as (-> & Hpos & Hlt & Hle & H0).
    exists k. split; [lia|]. exists s. auto.
  - discriminate.
Qed.

Lemma stuck_balance :
  balance_step 10000.001 (monthly_rate_of 12) 1000000 = 1000000%float
  /\ (10000.001 <=? 1000000 * monthly_rate_of 12)%float = false.
Proof. split; reflexivity. Qed.

(** C4, as stated, fails: for (1000000, 10000.001, 12) the payment exceeds
    the interest on every iteration, yet the balance never moves (the
    principal of a tenth of a cent is rounded away) and after 1200
    iterations [calculate_end_date] returns [None]. *)
Lemma none_without_unrepayable_iteration :
  calculate_end_date (mkdate 2025 1 15) 1201 1000000 10000.001 12
  = Some (Returns None)
  /\ ~ exists k, unrepayable_at (mkdate 2025 1 15) 1000000 10000.001 12 k.
Proof.
  split; [vm_compute; reflexivity|].
  intros (k & _ & s & Hs & _ & _ & Hle).
  assert (Hb : balance_of s = 1000000%float).
  { apply (state_at_invariant
             (end_date_body 10000.001 (monthly_rate_of 12))
             (fun s => balance_of s = 1000000%float)) with (k := k)
            (s := mksim 1000000 (mkdate 2025 1 15) 0).
    - intros s1 s2 H1 H2. apply end_date_body_next in H2.
      destruct H2 as (_ & -> & _). rewrite H1. apply stuck_balance.
    - reflexivity.
    - exact Hs. }
  rewrite Hb in Hle. rewrite (proj2 stuck_balance) in Hle. discriminate.
Qed.

Lemma payoff_unrepayable_example :
  payoff_months 3 10000 10 12 = Some (Returns None)
  /\ state_at (payoff_body 10 (monthly_rate_of 12)) 1 (10000%float, 0)
     = Some (10090%float, 1)
  /\ (10 <=? 10000 * monthly_rate_of 12)%float = true
  /\ (10 <=? 10090 * monthly_rate_of 12)%float = true.
Proof. repeat split; vm_compute; reflexivity. Qed.

(** C4 (amended): [calculate_end_date] returns [None] exactly when the
    payment is not positive, or the payment does not exceed the month's
    interest on some iteration after the first, or 1200 iterations are
    completed.  The first iteration is exempt: (10000, 10, 12) passes it
    with payment 10 below interest 100, and returns [None] on the second. *)
Theorem none_exactly_when (today : date)
        (balance monthly_payment interest_rate : float) :
  (forall extra,
      calculate_end_date today (1201 + extra) balance monthly_payment
                         interest_rate = Some (Returns None)
      <-> ((monthly_payment <=? 0)%float = true
           \/ (exists k,
                  unrepayable_at today balance monthly_payment interest_rate k)
           \/ capped today balance monthly_payment interest_rate))
  /\ (valid_today today ->
      (forall extra,
          calculate_end_date today (1201 + extra) 10000 10 12
          = Some (Returns None))
      /\ (10 <=? 10000 * monthly_rate_of 12)%float = true
      /\ unrepayable_at today 10000 10 12 1).
Proof.
  split.
  - intros extra. split.
    + apply calculate_end_date_none.
    + intros [H|[[k H]|H]].
      * unfold calculate_end_date. rewrite H. reflexivity.
      * eapply calculate_end_date_unrepayable; eauto.
      * apply calculate_end_date_capped; auto.
  - intros Hv. destruct payoff_unrepayable_example as (Hp & Hs & H0 & H1).
    split; [|split; [exact H0|]].
    + intros extra. rewrite calculate_end_date_payoff by exact Hv.
      replace (1201 + extra)%nat with (3 + (1198 + extra))%nat by lia.
      rewrite (payoff_months_more_fuel _ _ _ _ _ _ Hp). reflexivity.
    + split; [lia|].
      destruct (state_at_payoff today _ _ Hv 1 _ _ _
                  (sim_rel_start today 10000) Hs) as (s & Hst & Hb & Hc & _).
      exists s. split; [exact Hst|]. simpl in Hb, Hc. rewrite Hb, Hc.
      split; [reflexivity|]. split; [reflexivity|exact H1].
Qed.

Lemma none_exactly_when_witness :
  valid_today (mkdate 2025 1 15)
  /\ calculate_end_date (mkdate 2025 1 15) 1201 10000 10 12
     = Some (Returns None)
  /\ unrepayable_at (mkdate 2025 1 15) 10000 10 12 1.
Proof.
  assert (Hv : valid_today (mkdate 2025 1 15))
    by (unfold valid_today, MAXYEAR; simpl; lia).
  split; [exact Hv|].
  destruct (proj2 (none_exactly_when (mkdate 2025 1 15) 10000 10 12) Hv)
    as (H1 & _ & H2).
  split; [exact (H1 0%nat)|exact H2].
Defined.

(** * The rate solver *)

Lemma bisect_body_ret (today : date) (balance monthly_payment : float)
      (end_date : date) (lh : float * float) (r : float) :
  bisect_body today balance monthly_payment end_date lh = Ret (Some r) ->
  let mid := ((fst lh + snd lh) / 2)%float in
  r = PyFloat.round mid 4
  /\ exists estimated,
       calculate_monthly_payment today balance mid end_date = Some estimated
       /\ (abs (estimated - monthly_payment) <? 0.01)%float = true.
Proof.
  unfold bisect_body. destruct lh as [low high]. simpl.
  destruct (calculate_monthly_payment _ _ _ _) as [est|]; [|discriminate].
  destruct (abs (est - monthly_payment) <? 0.01)%float eqn:E.
  - intros H. injection H as <-. eauto.
  - destruct (monthly_payment <? est)%float; discriminate.
Qed.

(** A rate returned by [calculate_interest_rate] is the rounded midpoint of
    a turn of the bisection, at which the solved payment is within a cent of
    the payment given. *)
Lemma calculate_interest_rate_some (today : date)
      (balance monthly_payment : float) (end_date : date) (r : float) :
  calculate_interest_rate today balance monthly_payment end_date
  = Returns (Some r) ->
  exists k lh,
    (k < 300)%nat
    /\ state_at (bisect_body today balance monthly_payment end_date) k
                (0.0001, 100.0)%float = Some lh
    /\ bisect_body today balance monthly_payment end_date lh = Ret (Some r).
Proof.
  rewrite calculate_interest_rate_guarded.
  destruct (_ || _); [discriminate|].
  destruct (monthly_payment <=? _)%float; [discriminate|].
  destruct (for_range _ _ _) as [[lh|v]|e] eqn:E; try discriminate.
  intros H. injection H as ->.
  apply for_range_ret in E. exact E.
Qed.




(** * Binary64 rounding in the normal range *)

Lemma digits2_pos_bounds (p : positive) :
  2 ^ (Zpos (digits2_pos p) - 1) <= Zpos p < 2 ^ Zpos (digits2_pos p).
Proof.
  induction p as [p IH|p IH|]; simpl digits2_pos.
  - rewrite Pos2Z.inj_succ.
    replace (Z.succ (Zpos (digits2_pos p)) - 1) with (Z.succ (Zpos (digits2_pos p) - 1)) by lia.
    rewrite !Z.pow_succ_r by lia. lia.
  - rewrite Pos2Z.inj_succ.
    replace (Z.succ (Zpos (digits2_pos p)) - 1) with (Z.succ (Zpos (digits2_pos p) - 1)) by lia.
    rewrite !Z.pow_succ_r by lia. lia.
  - simpl. lia.
Qed.

Lemma digits2_pos_unique (p : positive) (d : Z) :
  2 ^ (d - 1) <= Zpos p < 2 ^ d -> Zpos (digits2_pos p) = d.
Proof.
  intros [H1 H2]. pose proof (digits2_pos_bounds p) as [B1 B2].
  assert (0 < d).
  { destruct (Z_lt_le_dec 0 d); auto. exfalso.
    assert (2 ^ d <= 2 ^ 0) by (apply Z.pow_le_mono_r; lia). simpl in *. lia. }
  destruct (Z.lt_trichotomy (Zpos (digits2_pos p)) d) as [L|[E|G]]; auto; exfalso.
  - assert (2 ^ Zpos (digits2_pos p) <= 2 ^ (d - 1)) by (apply Z.pow_le_mono_r; lia). lia.
  - assert (2 ^ d <= 2 ^ (Zpos (digits2_pos p) - 1)) by (apply Z.pow_le_mono_r; lia). lia.
Qed.

Lemma shr_1_spec (m : Z) (r s : bool) :
  0 <= m ->
  shr_1 (Build_shr_record m r s) = Build_shr_record (m / 2) (Z.odd m) (r || s).
Proof.
  intros Hm. destruct m as [|p|p]; try lia.
  - reflexivity.
  - destruct p as [p|p|]; simpl shr_1.
    + f_equal. rewrite Pos2Z.inj_xI. apply Z.div_unique with 1; lia.
    + f_equal. rewrite Pos2Z.inj_xO. apply Z.div_unique with 0; lia.
    + reflexivity.
Qed.

Lemma iter_pos_nat {A} (f : A -> A) (p : positive) (x : A) :
  iter_pos f p x = Nat.iter (Pos.to_nat p) f x.
Proof.
  revert x. induction p as [p IH|p IH|]; intros x; cbn [iter_pos].
  - rewrite !IH, Pos2Nat.inj_xI, Nat.iter_succ_r.
    replace (2 * Pos.to_nat p)%nat with (Pos.to_nat p + Pos.to_nat p)%nat by lia.
    rewrite Nat.iter_add. reflexivity.
  - rewrite !IH, Pos2Nat.inj_xO.
    replace (2 * Pos.to_nat p)%nat with (Pos.to_nat p + Pos.to_nat p)%nat by lia.
    rewrite Nat.iter_add. reflexivity.
  - reflexivity.
Qed.

(** [k] right shifts of a non-negative mantissa starting exact. *)
Lemma shr_nat_spec (k : nat) (m : Z) (r s : bool) :
  0 <= m ->
  shr_m (Nat.iter k shr_1 (Build_shr_record m r s)) = m / 2 ^ Z.of_nat k
  /\ (r = false -> s = false -> m mod 2 ^ Z.of_nat k = 0 ->
      shr_r (Nat.iter k shr_1 (Build_shr_record m r s)) = false
      /\ shr_s (Nat.iter k shr_1 (Build_shr_record m r s)) = false).
Proof.
  intros Hm. induction k as [|k IH].
  - simpl. rewrite Z.div_1_r. split; auto.
  - rewrite Nat2Z.inj_succ, Z.pow_succ_r by lia.
    rewrite Nat.iter_succ. destruct IH as [IH1 IH2].
    destruct (Nat.iter k shr_1 (Build_shr_record m r s)) as [m' r' s'] eqn:E.
    simpl in IH1, IH2. subst m'.
    assert (Hp : 0 < 2 ^ Z.of_nat k) by (apply Z.pow_pos_nonneg; lia).
    rewrite shr_1_spec by (apply Z.div_pos; lia). cbn [shr_m shr_r shr_s].
    split.
    + rewrite Z.div_div by lia. rewrite (Z.mul_comm 2). reflexivity.
    + intros Hr Hs Hmod.
      rewrite Z.mul_comm in Hmod. rewrite Z.rem_mul_r in Hmod by lia.
      pose proof (Z.mod_pos_bound m (2 ^ Z.of_nat k) Hp) as B1.
      pose proof (Z.mod_pos_bound (m / 2 ^ Z.of_nat k) 2 ltac:(lia)) as B2.
      assert (Hmod' : m mod 2 ^ Z.of_nat k = 0) by nia.
      destruct (IH2 Hr Hs Hmod') as [-> ->]. split; [|reflexivity].
      assert (Hz : (m / 2 ^ Z.of_nat k) mod 2 = 0) by nia.
      rewrite <- Z.negb_even. rewrite Zeven_mod. rewrite Hz. reflexivity.
Qed.

Lemma shr_m_of_loc (m : Z) (l : location) : shr_m (shr_record_of_loc m l) = m.
Proof. destruct l as [|[]]; reflexivity. Qed.

Lemma round_nearest_even_cases (m : Z) (l : location) :
  round_nearest_even m l = m
  \/ (round_nearest_even m l = m + 1 /\ l <> loc_Exact).
Proof.
  destruct l as [|[]]; simpl; auto.
  - destruct (Z.even m); auto. right. split; [reflexivity|discriminate].
  - right. split; [reflexivity|discriminate].
Qed.

Lemma fexp_normal (x : Z) : -1021 <= x -> fexp prec emax x = x - 53.
Proof. intros H. unfold fexp, SpecFloat.emin, prec, emax. lia. Qed.

(** The first shift of [binary_round_aux]: a mantissa of [53 + k] digits
    is cut to its 53 leading digits. *)
Lemma shr_fexp_normal (M : positive) (e k : Z) (l : location) :
  k = Zpos (digits2_pos M) - 53 -> 0 <= k -> -1074 <= e ->
  exists mrs,
    shr_fexp prec emax (Zpos M) e l = (mrs, e + k)
    /\ shr_m mrs = Zpos M / 2 ^ k
    /\ (l = loc_Exact -> Zpos M mod 2 ^ k = 0 ->
        loc_of_shr_record mrs = loc_Exact).
Proof.
  intros Hk Hd He. unfold shr_fexp.
  change (Zdigits2 (Zpos M)) with (Zpos (digits2_pos M)).
  rewrite fexp_normal by lia.
  replace (Zpos (digits2_pos M) + e - 53 - e) with k by lia.
  clear Hk. destruct k as [|p|p]; try lia.
  - exists (shr_record_of_loc (Zpos M) l). simpl shr.
    rewrite Z.add_0_r, shr_m_of_loc, Z.div_1_r.
    split; [reflexivity|]. split; [reflexivity|].
    intros -> _. reflexivity.
  - exists (iter_pos shr_1 p (shr_record_of_loc (Zpos M) l)).
    cbn [shr]. split; [reflexivity|].
    rewrite iter_pos_nat.
    assert (Hrec : forall r s, shr_record_of_loc (Zpos M) l
                               = Build_shr_record (Zpos M) r s ->
             shr_m (Nat.iter (Pos.to_nat p) shr_1 (shr_record_of_loc (Zpos M) l))
             = Zpos M / 2 ^ Zpos p
             /\ (l = loc_Exact -> Zpos M mod 2 ^ Zpos p = 0 ->
                 loc_of_shr_record
                   (Nat.iter (Pos.to_nat p) shr_1 (shr_record_of_loc (Zpos M) l))
                 = loc_Exact)).
    { intros r s Hrs. rewrite Hrs.
      destruct (shr_nat_spec (Pos.to_nat p) (Zpos M) r s ltac:(lia)) as [H1 H2].
      rewrite positive_nat_Z in H1, H2. split; [exact H1|].
      intros Hl Hmod. subst l. simpl in Hrs. injection Hrs as <- <-.
      destruct (H2 eq_refl eq_refl Hmod) as [Hr Hs].
      destruct (Nat.iter _ _ _) as [m' r' s']. simpl in Hr, Hs. subst.
      reflexivity. }
    destruct l as [|[]]; eapply Hrec; reflexivity.
Qed.

(** Rounding a mantissa of [53 + k] digits in the normal range: the result
    is the truncation [T] to 53 digits or its successor, and the truncation
    itself when nothing is cut off. *)
Lemma binary_round_aux_normal (M : positive) (e k T : Z) (l : location) :
  k = Zpos (digits2_pos M) - 53 -> T = Zpos M / 2 ^ k ->
  0 <= k -> -1074 <= e -> e + k < 971 ->
  2 ^ 52 <= T < 2 ^ 53
  /\ exists m' e',
      binary_round_aux prec emax false (Zpos M) e l = S754_finite false m' e'
      /\ Zpos (digits2_pos m') = 53
      /\ ((Zpos m' = T /\ e' = e + k)
          \/ ((l = loc_Exact -> Zpos M mod 2 ^ k = 0 -> False)
              /\ ((Zpos m' = T + 1 /\ e' = e + k)
                  \/ (T + 1 = 2 ^ 53 /\ Zpos m' = 2 ^ 52 /\ e' = e + k + 1)))).
Proof.
  intros Hk HTdef Hd He Hek.
  assert (HT : 2 ^ 52 <= T < 2 ^ 53).
  { pose proof (digits2_pos_bounds M) as [B1 B2].
    assert (Hp : 0 < 2 ^ k) by (apply Z.pow_pos_nonneg; lia).
    replace (Zpos (digits2_pos M) - 1) with (52 + k) in B1 by lia.
    replace (Zpos (digits2_pos M)) with (53 + k) in B2 by lia.
    rewrite Z.pow_add_r in B1, B2 by lia.
    subst T. split.
    - apply Z.div_le_lower_bound; lia.
    - apply Z.div_lt_upper_bound; lia. }
  split; [exact HT|].
  unfold binary_round_aux.
  destruct (shr_fexp_normal M e k l Hk Hd He) as (mrs & -> & Hm & Hex).
  rewrite <- HTdef in Hm. rewrite Hm. clear HTdef.
  destruct (round_nearest_even_cases T (loc_of_shr_record mrs)) as [Hr|[Hr Hne]];
    rewrite Hr.
  - (* the truncation *)
    destruct T as [|pT|pT]; try lia.
    assert (HdT : 0 = Zpos (digits2_pos pT) - 53)
      by (rewrite (digits2_pos_unique pT 53); simpl; lia).
    destruct (shr_fexp_normal pT (e + k) 0 loc_Exact HdT ltac:(lia) ltac:(lia))
      as (mrs2 & -> & Hm2 & _).
    rewrite Z.div_1_r in Hm2. rewrite Hm2.
    replace (e + k + 0 <=? emax - prec) with true
      by (symmetry; apply Z.leb_le; unfold emax, prec; lia).
    exists pT, (e + k + 0). split; [reflexivity|]. split; [lia|].
    left. split; [reflexivity|lia].
  - (* the successor *)
    assert (Hnex : l = loc_Exact -> Zpos M mod 2 ^ k = 0 -> False)
      by (intros H1 H2; apply Hne; auto).
    destruct (T + 1) as [|pT|pT] eqn:ET; try lia.
    destruct (Z_lt_le_dec (Zpos pT) (2 ^ 53)) as [Hlt|Hge].
    + assert (HdT : 0 = Zpos (digits2_pos pT) - 53)
        by (rewrite (digits2_pos_unique pT 53); simpl; lia).
      destruct (shr_fexp_normal pT (e + k) 0 loc_Exact HdT ltac:(lia) ltac:(lia))
        as (mrs2 & -> & Hm2 & _).
      rewrite Z.div_1_r in Hm2. rewrite Hm2.
      replace (e + k + 0 <=? emax - prec) with true
        by (symmetry; apply Z.leb_le; unfold emax, prec; lia).
      exists pT, (e + k + 0). split; [reflexivity|]. split; [lia|].
      right. split; [exact Hnex|]. left. split; [reflexivity|lia].
    + assert (HpT : Zpos pT = 2 ^ 53) by lia.
      assert (HdT : 1 = Zpos (digits2_pos pT) - 53)
        by (rewrite (digits2_pos_unique pT 54); [lia|rewrite HpT; simpl; lia]).
      destruct (shr_fexp_normal pT (e + k) 1 loc_Exact HdT ltac:(lia) ltac:(lia))
        as (mrs2 & -> & Hm2 & _).
      rewrite HpT in Hm2. change (2 ^ 53 / 2 ^ 1) with (Zpos 4503599627370496) in Hm2.
      rewrite Hm2.
      replace (e + k + 1 <=? emax - prec) with true
        by (symmetry; apply Z.leb_le; unfold emax, prec; lia).
      exists 4503599627370496%positive, (e + k + 1).
      split; [reflexivity|]. split; [reflexivity|].
      right. split; [exact Hnex|]. right.
      split; [lia|]. split; reflexivity.
Qed.

Lemma pos_iter_xO (m d : positive) :
  Zpos (Pos.iter xO m d) = Zpos m * 2 ^ Zpos d.
Proof.
  induction d as [|d IH] using Pos.peano_ind.
  - simpl. lia.
  - rewrite Pos.iter_succ, Pos2Z.inj_xO, IH, Pos2Z.inj_succ, Z.pow_succ_r by lia.
    lia.
Qed.

Lemma shl_align_spec (mx : positive) (ex ez : Z) :
  ez <= ex -> Zpos (fst (shl_align mx ex ez)) = Zpos mx * 2 ^ (ex - ez).
Proof.
  intros H. unfold shl_align. destruct (ez - ex) as [|d|d] eqn:E; try lia.
  - replace (ex - ez) with 0 by lia. simpl. lia.
  - cbn [fst]. rewrite pos_iter_xO. replace (ex - ez) with (Zpos d) by lia.
    reflexivity.
Qed.

Lemma SFleb_finite (m1 m2 : positive) (e1 e2 : Z) :
  SFleb (S754_finite false m1 e1) (S754_finite false m2 e2) = true
  <-> (e1 < e2 \/ (e1 = e2 /\ Zpos m1 <= Zpos m2)).
Proof.
  unfold SFleb, SFcompare.
  destruct (Z.compare_spec e1 e2) as [E|E|E].
  - rewrite Pos.compare_cont_spec. simpl.
    destruct (Pos.compare_spec m1 m2) as [H|H|H]; split; intros; try lia;
      try reflexivity; try discriminate.
  - split; [lia|reflexivity].
  - split; [discriminate|lia].
Qed.

Lemma SFltb_finite (m1 m2 : positive) (e1 e2 : Z) :
  SFltb (S754_finite false m1 e1) (S754_finite false m2 e2) = true
  <-> (e1 < e2 \/ (e1 = e2 /\ Zpos m1 < Zpos m2)).
Proof.
  unfold SFltb, SFcompare.
  destruct (Z.compare_spec e1 e2) as [E|E|E].
  - rewrite Pos.compare_cont_spec. simpl.
    destruct (Pos.compare_spec m1 m2) as [H|H|H]; split; intros; try lia;
      try reflexivity; try discriminate.
  - split; [lia|reflexivity].
  - split; [discriminate|lia].
Qed.

Lemma Prim2SF_lo : Prim2SF 0.0001 = S754_finite false lo_m (-66).
Proof. reflexivity. Qed.
Lemma Prim2SF_hi : Prim2SF 100 = S754_finite false hi_m (-46).
Proof. reflexivity. Qed.

Lemma valid_normal_digits (s : bool) (m : positive) (e : Z) :
  valid_binary (S754_finite s m e) = true -> -1074 < e ->
  Zpos (digits2_pos m) = 53.
Proof.
  unfold SpecFloat.valid_binary, bounded, canonical_mantissa, fexp,
    SpecFloat.emin, prec, emax.
  intros H He. apply andb_true_iff in H. destruct H as [H _].
  apply Z.eqb_eq in H. lia.
Qed.

Lemma in_range_between (ml : positive) (el : Z) (mh : positive) (eh : Z)
      (l h x : float) :
  Prim2SF l = S754_finite false ml el -> Prim2SF h = S754_finite false mh eh ->
  -1074 < el ->
  (l <=? x)%float = true -> (x <=? h)%float = true ->
  exists m e, Prim2SF x = S754_finite false m e /\ between ml el mh eh m e.
Proof.
  intros Hl Hh Hel. rewrite !leb_spec, Hl, Hh.
  pose proof (Prim2SF_valid x) as Hv.
  destruct (Prim2SF x) as [s|s| |s m e].
  - discriminate.
  - destruct s; discriminate.
  - discriminate.
  - destruct s; [discriminate|]. intros H1 H2.
    apply SFleb_finite in H1. apply SFleb_finite in H2.
    exists m, e. split; [reflexivity|]. split; [|split; assumption].
    apply (valid_normal_digits false m e Hv). lia.
Qed.

Lemma between_in_range (ml : positive) (el : Z) (mh : positive) (eh : Z)
      (l h x : float) (m : positive) (e : Z) :
  Prim2SF l = S754_finite false ml el -> Prim2SF h = S754_finite false mh eh ->
  Prim2SF x = S754_finite false m e -> between ml el mh eh m e ->
  (l <=? x)%float = true /\ (x <=? h)%float = true.
Proof.
  intros Hl Hh Hx (_ & H1 & H2). rewrite !leb_spec, Hl, Hh, Hx.
  split; apply SFleb_finite; assumption.
Qed.

Lemma digits_53_bounds (m : positive) :
  Zpos (digits2_pos m) = 53 -> 2 ^ 52 <= Zpos m < 2 ^ 53.
Proof.
  intros H. pose proof (digits2_pos_bounds m) as B. rewrite H in B. exact B.
Qed.

Lemma pow2_pos (k : Z) : 0 <= k -> 0 < 2 ^ k.
Proof. intros. apply Z.pow_pos_nonneg; lia. Qed.

Lemma pow2_ge_2 (k : Z) : 1 <= k -> 2 <= 2 ^ k.
Proof.
  intros H. change 2 with (2 ^ 1) at 1. apply Z.pow_le_mono_r; lia.
Qed.

(** A mantissa between the bounds, on the scale of a smaller exponent. *)
Lemma scaled_between (ml : positive) (el : Z) (mh : positive) (eh : Z)
      (m : positive) (e ez : Z) :
  2 ^ 52 <= Zpos mh -> 2 ^ 52 <= Zpos m < 2 ^ 53 ->
  ez <= e -> ez <= eh ->
  (el < e \/ (el = e /\ Zpos ml <= Zpos m)) ->
  (e < eh \/ (e = eh /\ Zpos m <= Zpos mh)) ->
  Zpos ml < 2 ^ 53 ->
  Zpos m <= Zpos m * 2 ^ (e - ez)
  /\ Zpos m * 2 ^ (e - ez) <= Zpos mh * 2 ^ (eh - ez)
  /\ (ez = el -> Zpos ml <= Zpos m * 2 ^ (e - ez)).
Proof.
  intros Hmh Hm Hez Hezh Hl Hh Hml.
  set (P := 2 ^ (e - ez)). set (Q := 2 ^ (eh - ez)).
  assert (HP : 1 <= P) by (pose proof (pow2_pos (e - ez)); unfold P; lia).
  assert (HQ : 0 < Q) by (apply pow2_pos; lia).
  assert (H1 : Zpos m * 1 <= Zpos m * P)
    by (apply Z.mul_le_mono_nonneg_l; lia).
  split; [lia|]. split.
  - destruct Hh as [Hlt|[Heq Hle]].
    + assert (HPQ : 2 * P <= Q).
      { unfold P, Q. replace (eh - ez) with ((e - ez) + (eh - e)) by lia.
        rewrite Z.pow_add_r by lia.
        pose proof (pow2_ge_2 (eh - e) ltac:(lia)) as H2.
        rewrite (Z.mul_comm 2). apply Z.mul_le_mono_nonneg_l; lia. }
      assert (H2 : Zpos m * P <= 2 ^ 53 * P)
        by (apply Z.mul_le_mono_nonneg_r; lia).
      assert (H3 : 2 ^ 52 * Q <= Zpos mh * Q)
        by (apply Z.mul_le_mono_nonneg_r; lia).
      change (2 ^ 53) with (2 ^ 52 * 2) in H2.
      clear - H2 H3 HPQ. lia.
    + unfold P, Q. rewrite Heq. apply Z.mul_le_mono_nonneg_r; [|exact Hle].
      apply Z.lt_le_incl, pow2_pos. lia.
  - intros Hzl. destruct Hl as [Hlt|[Heq Hle]].
    + assert (H2 : 2 <= P) by (apply pow2_ge_2; lia).
      assert (H3 : Zpos m * 2 <= Zpos m * P)
        by (apply Z.mul_le_mono_nonneg_l; lia).
      change (2 ^ 53) with (2 ^ 52 * 2) in Hml. clear - H3 Hm Hml. lia.
    + clear - H1 Hle. lia.
Qed.

(** IEEE addition of two floats between [l] and [h] (positive, normal) is
    between [2 l] and [2 h]. *)
Lemma add_between (ml : positive) (el : Z) (mh : positive) (eh : Z)
      (ma : positive) (ea : Z) (mb : positive) (eb : Z) :
  Zpos (digits2_pos ml) = 53 -> Zpos (digits2_pos mh) = 53 ->
  -1074 <= el -> eh < 969 ->
  between ml el mh eh ma ea -> between ml el mh eh mb eb ->
  exists m e,
    SFadd prec emax (S754_finite false ma ea) (S754_finite false mb eb)
    = S754_finite false m e
    /\ between ml (el + 1) mh (eh + 1) m e.
Proof.
  intros Hml Hmh Hel Heh (Hda & Hla & Hha) (Hdb & Hlb & Hhb).
  apply digits_53_bounds in Hml, Hmh, Hda, Hdb.
  unfold SFadd. set (ez := Z.min ea eb).
  rewrite !shl_align_spec by (unfold ez; lia).
  cbn [cond_Zopp].
  assert (Hez : el <= ez <= eh) by (unfold ez; lia).
  set (x := Zpos ma * 2 ^ (ea - ez)). set (y := Zpos mb * 2 ^ (eb - ez)).
  set (u := eh - ez).
  assert (Hu : 0 <= u) by (unfold u; lia).
  assert (Hpu : 0 < 2 ^ u) by (apply pow2_pos; lia).
  (* each summand is between the bounds, on the scale of [ez] *)
  assert (Hx : Zpos ma <= x /\ x <= Zpos mh * 2 ^ u
               /\ (ez = el -> Zpos ml <= x)).
  { apply (scaled_between ml el mh eh ma ea ez); auto; unfold ez; lia. }
  assert (Hy : Zpos mb <= y /\ y <= Zpos mh * 2 ^ u
               /\ (ez = el -> Zpos ml <= y)).
  { apply (scaled_between ml el mh eh mb eb ez); auto; unfold ez; lia. }
  destruct Hx as (Hx1 & Hx2 & Hx3). destruct Hy as (Hy1 & Hy2 & Hy3).
  clearbody x y.
  destruct (x + y) as [|M|M] eqn:EM; try lia.
  unfold binary_normalize, binary_round.
  pose proof (digits2_pos_bounds M) as [B1 B2].
  set (d := Zpos (digits2_pos M)) in *.
  assert (Hd : 54 <= d).
  { destruct (Z_lt_le_dec d 54) as [Hlt|Hge]; [|exact Hge]. exfalso.
    assert (2 ^ d <= 2 ^ 53) by (apply Z.pow_le_mono_r; lia). lia. }
  rewrite fexp_normal by lia.
  assert (Hal : shl_align M ez (d + ez - 53) = (M, ez)).
  { unfold shl_align. destruct (d + ez - 53 - ez) eqn:E; try reflexivity. lia. }
  rewrite Hal.
  set (k := d - 53). set (T := Zpos M / 2 ^ k).
  assert (Hpk : 2 <= 2 ^ k) by (apply pow2_ge_2; unfold k; lia).
  (* the sum is at most 2 h: its exponent is at most that of 2 h *)
  assert (Hku : k <= u + 1).
  { destruct (Z_lt_le_dec (u + 1) k) as [Hlt|Hge]; [|lia]. exfalso.
    assert (H : 2 ^ (54 + u) <= 2 ^ (d - 1))
      by (apply Z.pow_le_mono_r; unfold k in *; lia).
    rewrite Z.pow_add_r in H by lia. change (2 ^ 54) with (2 * 2 ^ 53) in H.
    assert (H53 : Zpos mh * 2 ^ u < 2 ^ 53 * 2 ^ u)
      by (apply Z.mul_lt_mono_pos_r; lia).
    clear - H H53 B1 EM Hx2 Hy2. lia. }
  destruct (binary_round_aux_normal M ez k T loc_Exact eq_refl eq_refl
              ltac:(unfold k; lia) ltac:(lia) ltac:(unfold u in *; lia))
    as (HT & m' & e' & -> & Hd' & Hcases).
  exists m', e'. split; [reflexivity|].
  assert (HTk : T * 2 ^ k <= Zpos M < (T + 1) * 2 ^ k).
  { unfold T. pose proof (Z.mul_div_le (Zpos M) (2 ^ k) ltac:(lia)).
    pose proof (Z.mul_succ_div_gt (Zpos M) (2 ^ k) ltac:(lia)). lia. }
  assert (Hexact : Zpos M = T * 2 ^ k -> Zpos M mod 2 ^ k = 0).
  { intros ->. apply Z.mod_mul. lia. }
  (* at the exponent of 2 l the truncation is at least l's mantissa *)
  assert (HlowT : ez + k = el + 1 -> Zpos ml <= T).
  { intros HE. assert (k = 1) by (clear - HE Hd Hez; unfold k in *; lia).
    assert (ez = el) by (clear - HE H Hez; lia).
    rewrite H in HTk. change (2 ^ 1) with 2 in HTk.
    specialize (Hx3 H0). specialize (Hy3 H0).
    clear - HTk Hx3 Hy3 EM. lia. }
  (* at the exponent of 2 h the truncation is at most h's mantissa *)
  assert (HhighT : ez + k = eh + 1 -> T <= Zpos mh
                                     /\ (T = Zpos mh -> Zpos M = T * 2 ^ k)).
  { intros HE. assert (k = u + 1) by (clear - HE; unfold u; lia).
    assert (Hp2 : 2 ^ k = 2 * 2 ^ u)
      by (rewrite H, Z.pow_add_r by lia; change (2 ^ 1) with 2; lia).
    rewrite Hp2 in HTk. destruct HTk as [HTk1 HTk2].
    assert (H2P : T * 2 ^ u <= Zpos mh * 2 ^ u)
      by (clear - HTk1 EM Hx2 Hy2; lia).
    split.
    - apply (Z.mul_le_mono_pos_r _ _ (2 ^ u)); [exact Hpu|exact H2P].
    - intros Et. rewrite Hp2. rewrite Et in *. clear - HTk1 EM Hx2 Hy2. lia. }
  assert (HE : el + 1 <= ez + k <= eh + 1)
    by (clear - Hd Hez Hku; unfold k, u in *; lia).
  unfold between. split; [exact Hd'|].
  clear - HE Hmh HT HlowT HhighT Hexact Hcases.
  destruct Hcases as [[Hm He]|[Hnex [[Hm He]|(HT1 & Hm & He)]]]; rewrite Hm, He.
  - split.
    + destruct (Z.eq_dec (ez + k) (el + 1)) as [E|E]; [|lia].
      right. split; [lia|]. apply HlowT; exact E.
    + destruct (Z.eq_dec (ez + k) (eh + 1)) as [E|E]; [|lia].
      right. split; [lia|]. apply HhighT; exact E.
  - split.
    + destruct (Z.eq_dec (ez + k) (el + 1)) as [E|E]; [|lia].
      right. split; [lia|]. specialize (HlowT E). lia.
    + destruct (Z.eq_dec (ez + k) (eh + 1)) as [E|E]; [|lia].
      right. split; [lia|]. destruct (HhighT E) as [H1 H2].
      destruct (Z.eq_dec T (Zpos mh)) as [Et|Et]; [|lia].
      exfalso. apply Hnex; [reflexivity|]. apply Hexact. apply H2. exact Et.
  - split.
    + left. lia.
    + destruct (Z.eq_dec (ez + k) (eh + 1)) as [E|E].
      * exfalso. destruct (HhighT E) as [H1 H2].
        destruct (Z.eq_dec T (Zpos mh)) as [Et|Et]; [|lia].
        apply Hnex; [reflexivity|]. apply Hexact. apply H2. exact Et.
      * destruct (Z.eq_dec (ez + k + 1) (eh + 1)) as [E1|E1]; [|left; lia].
        right. split; [lia|]. lia.
Qed.

Lemma new_location_exact (nb : Z) : new_location nb 0 = loc_Exact.
Proof.
  unfold new_location, new_location_even, new_location_odd.
  destruct (Z.even nb); reflexivity.
Qed.

(** The quotient, exponent and location that IEEE division rounds. *)
Lemma SFdiv_core_spec (m1 : positive) (e1 : Z) (m2 : positive) (e2 e' s : Z) :
  e' = Z.min (fexp prec emax (Zpos (digits2_pos m1) + e1
                              - (Zpos (digits2_pos m2) + e2)))
             (e1 - e2) ->
  s = e1 - e2 - e' -> 0 < s ->
  SFdiv_core_binary prec emax (Zpos m1) e1 (Zpos m2) e2
  = ((Zpos m1 * 2 ^ s) / Zpos m2, e',
     new_location (Zpos m2) ((Zpos m1 * 2 ^ s) mod Zpos m2)).
Proof.
  intros He' Hs Hpos. unfold SFdiv_core_binary.
  change (Zdigits2 (Zpos m1)) with (Zpos (digits2_pos m1)).
  change (Zdigits2 (Zpos m2)) with (Zpos (digits2_pos m2)).
  rewrite <- He', <- Hs.
  destruct s as [|ps|ps]; try lia.
  rewrite Z.shiftl_mul_pow2 by lia.
  unfold Z.div, Z.modulo.
  destruct (Z.div_eucl (Zpos m1 * 2 ^ Zpos ps) (Zpos m2)) as [q r].
  reflexivity.
Qed.

Lemma Prim2SF_two : Prim2SF 2 = S754_finite false 4503599627370496 (-51).
Proof. reflexivity. Qed.

(** Halving a normal float is exact. *)
Lemma div2_finite (m : positive) (e : Z) :
  Zpos (digits2_pos m) = 53 -> -1072 <= e -> e < 970 ->
  SFdiv prec emax (S754_finite false m e)
        (S754_finite false 4503599627370496 (-51))
  = S754_finite false m (e - 1).
Proof.
  intros Hd Hlo Hhi. unfold SFdiv.
  rewrite (SFdiv_core_spec m e 4503599627370496 (-51) (e - 2) 53).
  - assert (Hq : Zpos m * 2 ^ 53 / 4503599627370496 = Zpos m~0).
    { change (2 ^ 53) with (2 * 4503599627370496).
      rewrite Z.mul_assoc, Z.div_mul by lia. lia. }
    assert (Hr : (Zpos m * 2 ^ 53) mod 4503599627370496 = 0).
    { change (2 ^ 53) with (2 * 4503599627370496).
      rewrite Z.mul_assoc, Z.mod_mul by lia. reflexivity. }
    rewrite Hq, Hr, new_location_exact. cbn [xorb].
    destruct (binary_round_aux_normal m~0 (e - 2) 1 (Zpos m) loc_Exact)
      as (_ & m' & e' & -> & _ & Hcases).
    + cbn [digits2_pos]. rewrite Pos2Z.inj_succ, Hd. reflexivity.
    + change (2 ^ 1) with 2. rewrite Pos2Z.inj_xO, Z.mul_comm, Z.div_mul by lia.
      reflexivity.
    + lia.
    + lia.
    + lia.
    + assert (Hex : Zpos m~0 mod 2 ^ 1 = 0).
      { change (2 ^ 1) with 2. rewrite Pos2Z.inj_xO, Z.mul_comm, Z.mod_mul by lia.
        reflexivity. }
      destruct Hcases as [[Hm He]|[Hnex _]].
      * injection Hm as ->. f_equal. lia.
      * exfalso. apply Hnex; [reflexivity|exact Hex].
  - rewrite Hd. change (Zpos (digits2_pos 4503599627370496)) with 53.
    rewrite fexp_normal by lia. lia.
  - lia.
  - lia.
Qed.

Lemma lo_hi_digits :
  Zpos (digits2_pos lo_m) = 53 /\ Zpos (digits2_pos hi_m) = 53.
Proof. split; reflexivity. Qed.

(** The midpoint of two floats of the search interval is in the interval. *)
Lemma midpoint_in_range (a b : float) :
  in_range a -> in_range b -> in_range ((a + b) / 2)%float.
Proof.
  intros [Ha1 Ha2] [Hb1 Hb2]. destruct lo_hi_digits as [Hdl Hdh].
  destruct (in_range_between lo_m (-66) hi_m (-46) _ _ a Prim2SF_lo Prim2SF_hi
              ltac:(lia) Ha1 Ha2) as (ma & ea & Ea & Hba).
  destruct (in_range_between lo_m (-66) hi_m (-46) _ _ b Prim2SF_lo Prim2SF_hi
              ltac:(lia) Hb1 Hb2) as (mb & eb & Eb & Hbb).
  destruct (add_between lo_m (-66) hi_m (-46) ma ea mb eb Hdl Hdh
              ltac:(lia) ltac:(lia) Hba Hbb) as (m & e & Hadd & Hd & Hl & Hh).
  assert (Hmid : Prim2SF ((a + b) / 2)%float = S754_finite false m (e - 1)).
  { rewrite div_spec, add_spec, Ea, Eb, Prim2SF_two.
    unfold SF64div, SF64add. rewrite Hadd.
    apply div2_finite; [exact Hd|lia|lia]. }
  apply (between_in_range lo_m (-66) hi_m (-46) _ _ _ m (e - 1)
           Prim2SF_lo Prim2SF_hi Hmid).
  unfold between. split; [exact Hd|]. split; lia.
Qed.

Lemma round_half_even_shift_cases (m k : Z) :
  0 <= k ->
  PyFloat.round_half_even_shift m k = m / 2 ^ k
  \/ (PyFloat.round_half_even_shift m k = m / 2 ^ k + 1 /\ m mod 2 ^ k <> 0).
Proof.
  intros Hk. unfold PyFloat.round_half_even_shift.
  assert (Hp : 0 < 2 ^ k) by (apply pow2_pos; lia).
  destruct (Z.compare_spec (2 * (m mod 2 ^ k)) (2 ^ k)) as [E|E|E].
  - destruct (Z.even (m / 2 ^ k)); [auto|]. right. split; [reflexivity|lia].
  - auto.
  - right. split; [reflexivity|lia].
Qed.

(** The number of ten-thousandths a rate of the search interval rounds to. *)
Lemma round4_scaled_bounds (m : positive) (e : Z) :
  between lo_m (-66) hi_m (-46) m e ->
  1 <= PyFloat.round_half_even_shift (Zpos m * 10 ^ 4) (- e) <= 10 ^ 6.
Proof.
  intros (Hd & Hl & Hh). apply digits_53_bounds in Hd.
  set (k := - e). assert (Hk : 46 <= k <= 66) by (unfold k; lia).
  assert (Hp : 0 < 2 ^ k) by (apply pow2_pos; lia).
  set (scaled := Zpos m * 10 ^ 4).
  pose proof (Z.mul_div_le scaled (2 ^ k) Hp) as Q1.
  pose proof (Z.mul_succ_div_gt scaled (2 ^ k) Hp) as Q2.
  pose proof (Z.div_mod scaled (2 ^ k) ltac:(lia)) as Q3.
  assert (Hlow : 1 <= scaled / 2 ^ k).
  { apply Z.div_le_lower_bound; [exact Hp|]. rewrite Z.mul_1_r. unfold scaled.
    destruct (Z.eq_dec k 66) as [E|E].
    - rewrite E. assert (Zpos lo_m <= Zpos m) by (unfold k in *; lia).
      change (2 ^ 66) with 73786976294838206464. change (10 ^ 4) with 10000.
      unfold lo_m in *. lia.
    - assert (2 ^ k <= 2 ^ 65) by (apply Z.pow_le_mono_r; lia).
      change (2 ^ 65) with 36893488147419103232 in *. change (10 ^ 4) with 10000.
      change (2 ^ 52) with 4503599627370496 in *. lia. }
  assert (Hhigh : scaled / 2 ^ k <= 10 ^ 6
                  /\ (scaled / 2 ^ k = 10 ^ 6 -> scaled mod 2 ^ k = 0)).
  { destruct (Z.eq_dec k 46) as [E|E].
    - assert (Hm : Zpos m <= Zpos hi_m) by (unfold k in *; lia).
      rewrite E in *. clear Hp. unfold scaled in *.
      change (2 ^ 46) with 70368744177664 in *. change (10 ^ 4) with 10000 in *.
      change (10 ^ 6) with 1000000. unfold hi_m in *. split; lia.
    - assert (2 ^ 47 <= 2 ^ k) by (apply Z.pow_le_mono_r; lia).
      assert (scaled / 2 ^ k < 640000).
      { apply Z.div_lt_upper_bound; [exact Hp|]. unfold scaled.
        change (2 ^ 47) with 140737488355328 in *. change (10 ^ 4) with 10000.
        change (2 ^ 53) with 9007199254740992 in *. lia. }
      change (10 ^ 6) with 1000000. split; lia. }
  fold k.
  destruct (round_half_even_shift_cases scaled k ltac:(lia)) as [-> | [-> Hne]].
  - lia.
  - destruct Hhigh as [H1 H2]. split; [lia|].
    destruct (Z.eq_dec (scaled / 2 ^ k) (10 ^ 6)) as [E|E]; [|lia].
    exfalso. apply Hne. apply H2. exact E.
Qed.

(** The float nearest to [p / 10000], for [p] ten-thousandths up to 100. *)
Lemma of_ratio_range (p : positive) :
  Zpos p <= 10 ^ 6 ->
  exists m e,
    SFdiv prec emax (S754_finite false p 0) (S754_finite false 10000 0)
    = S754_finite false m e
    /\ Zpos (digits2_pos m) = 53
    /\ -1074 <= e
    /\ (e < -46 \/ (e = -46 /\ Zpos m <= Zpos hi_m)).
Proof.
  intros Hp.
  pose proof (digits2_pos_bounds p) as [B1 B2].
  set (d := Zpos (digits2_pos p)) in *.
  assert (Hd : 1 <= d <= 20).
  { split; [unfold d; lia|].
    destruct (Z_lt_le_dec 20 d) as [Hlt|Hge]; [|exact Hge]. exfalso.
    assert (2 ^ 20 <= 2 ^ (d - 1)) by (apply Z.pow_le_mono_r; lia).
    change (2 ^ 20) with 1048576 in H. change (10 ^ 6) with 1000000 in Hp. lia. }
  set (s := 67 - d).
  assert (Hs : 47 <= s <= 66) by (unfold s; lia).
  unfold SFdiv.
  rewrite (SFdiv_core_spec p 0 10000 0 (- s) s).
  2:{ fold d. change (Zpos (digits2_pos 10000)) with 14.
      rewrite fexp_normal by lia. unfold s. lia. }
  2:{ lia. }
  2:{ lia. }
  cbn [xorb].
  set (N := Zpos p * 2 ^ s).
  assert (Hps : 0 < 2 ^ s) by (apply pow2_pos; lia).
  (* the scaled numerator has 67 digits *)
  assert (HN : 2 ^ 66 <= N < 2 ^ 67).
  { unfold N. replace 66 with ((d - 1) + s) by (unfold s; lia).
    replace 67 with (d + s) by (unfold s; lia).
    rewrite !Z.pow_add_r by lia. split.
    - apply Z.mul_le_mono_nonneg_r; lia.
    - apply Z.mul_lt_mono_pos_r; lia. }
  assert (HN100 : N <= 100 * 10000 * 2 ^ s).
  { unfold N. change (10 ^ 6) with (100 * 10000) in Hp.
    apply Z.mul_le_mono_nonneg_r; lia. }
  pose proof (Z.mul_div_le N 10000 ltac:(lia)) as Q1.
  pose proof (Z.mul_succ_div_gt N 10000 ltac:(lia)) as Q2.
  pose proof (Z.div_mod N 10000 ltac:(lia)) as Q3.
  set (q := N / 10000) in *. set (r := N mod 10000) in *.
  assert (Hq : 2 ^ 52 <= q < 2 ^ 54).
  { change (2 ^ 66) with 73786976294838206464 in HN.
    change (2 ^ 67) with 147573952589676412928 in HN.
    change (2 ^ 52) with 4503599627370496. change (2 ^ 54) with 18014398509481984.
    lia. }
  assert (Hq100 : q <= 100 * 2 ^ s) by lia.
  destruct q as [|pq|pq] eqn:Eq; try lia.
  set (dq := Zpos (digits2_pos pq)).
  assert (Hdq : dq = 53 \/ dq = 54).
  { pose proof (digits2_pos_bounds pq) as [C1 C2]. fold dq in C1, C2.
    destruct (Z_lt_le_dec dq 53) as [H1|H1].
    - exfalso. assert (2 ^ dq <= 2 ^ 52) by (apply Z.pow_le_mono_r; lia). lia.
    - destruct (Z_lt_le_dec 54 dq) as [H2|H2]; [|lia].
      exfalso. assert (2 ^ 54 <= 2 ^ (dq - 1)) by (apply Z.pow_le_mono_r; lia). lia. }
  set (k := dq - 53). set (T := Zpos pq / 2 ^ k).
  destruct (binary_round_aux_normal pq (- s) k T (new_location 10000 r)
              eq_refl eq_refl ltac:(unfold k; lia) ltac:(lia) ltac:(unfold k; lia))
    as (HT & m' & e' & -> & Hd' & Hcases).
  exists m', e'. split; [reflexivity|]. split; [exact Hd'|].
  assert (Hpk : 0 < 2 ^ k) by (apply pow2_pos; unfold k; lia).
  pose proof (Z.mul_div_le (Zpos pq) (2 ^ k) Hpk) as T1. fold T in T1.
  (* the exponent is at most that of 100 *)
  assert (Hsk : 46 <= s - k).
  { destruct (Z_lt_le_dec (s - k) 46) as [Hlt|Hge]; [|exact Hge]. exfalso.
    assert (Hle : 2 ^ s * 2 ^ 7 <= 2 ^ (52 + k)).
    { rewrite <- Z.pow_add_r by lia. apply Z.pow_le_mono_r; lia. }
    rewrite Z.pow_add_r in Hle by (unfold k; lia).
    change (2 ^ 7) with 128 in Hle.
    assert (2 ^ 52 * 2 ^ k <= Zpos pq) by lia. lia. }
  (* at the exponent of 100 the truncation is at most its mantissa *)
  assert (HhighT : s - k = 46 ->
                   T <= Zpos hi_m
                   /\ (T = Zpos hi_m ->
                       new_location 10000 r = loc_Exact
                       /\ Zpos pq mod 2 ^ k = 0)).
  { intros E. assert (Hsplit : 2 ^ s = 2 ^ 46 * 2 ^ k).
    { rewrite <- Z.pow_add_r by (unfold k; lia). f_equal. lia. }
    assert (Hhi : Zpos hi_m = 100 * 2 ^ 46) by reflexivity.
    assert (HTle : T * 2 ^ k <= Zpos hi_m * 2 ^ k).
    { rewrite Hhi. rewrite Hsplit in Hq100. lia. }
    split.
    - apply (Z.mul_le_mono_pos_r _ _ (2 ^ k)); [exact Hpk|exact HTle].
    - intros Et. rewrite Et in T1.
      assert (Hqmax : Zpos pq = 100 * 2 ^ s) by (rewrite Hsplit, Hhi in *; lia).
      split.
      + assert (r = 0) by lia. rewrite H. apply new_location_exact.
      + rewrite Hqmax, Hsplit, Z.mul_assoc. apply Z.mod_mul. lia. }
  split.
  - destruct Hcases as [[_ ->]|[_ [[_ ->]|(_ & _ & ->)]]]; unfold k; lia.
  - destruct Hcases as [[Hm He]|[Hnex [[Hm He]|(HT1 & Hm & He)]]]; rewrite Hm, He.
    + destruct (Z.eq_dec (s - k) 46) as [E|E]; [|left; lia].
      right. split; [lia|]. apply HhighT; exact E.
    + destruct (Z.eq_dec (s - k) 46) as [E|E]; [|left; lia].
      right. split; [lia|]. destruct (HhighT E) as [H1 H2].
      destruct (Z.eq_dec T (Zpos hi_m)) as [Et|Et]; [|lia].
      exfalso. destruct (H2 Et) as [H3 H4]. apply Hnex; assumption.
    + destruct (Z.eq_dec (s - k) 46) as [E|E].
      * exfalso. destruct (HhighT E) as [H1 _]. unfold hi_m in H1.
        change (2 ^ 53) with 9007199254740992 in HT1. lia.
      * destruct (Z.eq_dec (s - k) 47) as [E1|E1]; [|left; lia].
        right. split; [lia|]. unfold hi_m.
        change (2 ^ 52) with 4503599627370496. lia.
Qed.

Lemma valid_normal (m : positive) (e : Z) :
  Zpos (digits2_pos m) = 53 -> -1074 <= e <= 971 ->
  valid_binary (S754_finite false m e) = true.
Proof.
  intros Hd He.
  unfold SpecFloat.valid_binary, bounded, canonical_mantissa.
  rewrite Hd, fexp_normal by lia.
  apply andb_true_iff. split; [apply Z.eqb_eq; lia|].
  apply Z.leb_le. unfold emax, prec. lia.
Qed.

(** A rate of the search interval rounds to four decimals as a positive
    float that is at most 100. *)
Lemma round4_range (mid : float) :
  in_range mid ->
  (0 <? PyFloat.round mid 4)%float = true
  /\ (PyFloat.round mid 4 <=? 100)%float = true.
Proof.
  intros [H1 H2].
  destruct (in_range_between lo_m (-66) hi_m (-46) _ _ mid Prim2SF_lo Prim2SF_hi
              ltac:(lia) H1 H2) as (m & e & Em & Hb).
  pose proof (round4_scaled_bounds m e Hb) as Hn.
  destruct Hb as (Hd & Hl & Hh).
  unfold PyFloat.round. rewrite Em.
  replace (0 <=? e) with false by (symmetry; apply Z.leb_gt; lia).
  destruct (PyFloat.round_half_even_shift (Zpos m * 10 ^ 4) (- e)) as [|p|p];
    try lia.
  destruct (of_ratio_range p ltac:(lia)) as (m' & e' & Hdiv & Hd' & He' & Hle).
  unfold PyFloat.of_ratio. change (Z.to_pos (10 ^ 4)) with 10000%positive.
  rewrite Hdiv.
  assert (Hp : Prim2SF (SF2Prim (S754_finite false m' e'))
               = S754_finite false m' e').
  { apply Prim2SF_SF2Prim. apply valid_normal; [exact Hd'|lia]. }
  rewrite ltb_spec, leb_spec, Hp, Prim2SF_zero, Prim2SF_hi.
  split; [reflexivity|]. apply SFleb_finite. exact Hle.
Qed.

(** The same rounding is reached from a rate strictly inside the interval. *)
Lemma round4_strictly_inside (mid : float) :
  in_range mid ->
  exists mid',
    (0.0001 <? mid')%float = true /\ (mid' <? 100)%float = true
    /\ PyFloat.round mid 4 = PyFloat.round mid' 4.
Proof.
  intros [H1 H2].
  destruct (in_range_between lo_m (-66) hi_m (-46) _ _ mid Prim2SF_lo Prim2SF_hi
              ltac:(lia) H1 H2) as (m & e & Em & (Hd & Hl & Hh)).
  destruct (SFltb (S754_finite false lo_m (-66)) (S754_finite false m e)) eqn:El.
  - destruct (SFltb (S754_finite false m e) (S754_finite false hi_m (-46))) eqn:Eh.
    + exists mid. rewrite !ltb_spec, Prim2SF_lo, Prim2SF_hi, Em. auto.
    + (* the upper end *)
      assert (Prim2SF mid = Prim2SF 100).
      { rewrite Em, Prim2SF_hi.
        assert (~ (e < -46 \/ (e = -46 /\ Zpos m < Zpos hi_m))).
        { intros H. apply SFltb_finite in H. congruence. }
        assert (e = -46 /\ m = hi_m) as [-> ->] by lia. reflexivity. }
      apply Prim2SF_inj in H. subst mid.
      exists 99.99999%float. repeat split; reflexivity.
  - (* the lower end *)
    assert (Prim2SF mid = Prim2SF 0.0001).
    { rewrite Em, Prim2SF_lo.
      assert (~ (-66 < e \/ (-66 = e /\ Zpos lo_m < Zpos m))).
      { intros H. apply SFltb_finite in H. congruence. }
      assert (e = -66 /\ m = lo_m) as [-> ->] by lia. reflexivity. }
    apply Prim2SF_inj in H. subst mid.
    exists 0.00011%float. repeat split; reflexivity.
Qed.

(** * The range of the rate solver *)

Lemma bisect_body_in_range (today : date) (balance monthly_payment : float)
      (end_date : date) (lh lh' : float * float) :
  in_range (fst lh) /\ in_range (snd lh) ->
  bisect_body today balance monthly_payment end_date lh = Next lh' ->
  in_range (fst lh') /\ in_range (snd lh').
Proof.
  intros [Hl Hh]. unfold bisect_body. destruct lh as [low high]. simpl in Hl, Hh.
  pose proof (midpoint_in_range low high Hl Hh) as Hm.
  destruct (calculate_monthly_payment _ _ _ _) as [est|]; [|discriminate].
  destruct (abs (est - monthly_payment) <? 0.01)%float; [discriminate|].
  destruct (monthly_payment <? est)%float; intros H; injection H as <-; auto.
Qed.

Lemma in_range_start : in_range 0.0001 /\ in_range 100.
Proof. repeat split; reflexivity. Qed.

(** C10: a rate returned by [calculate_interest_rate] is [round(mid, 4)]
    for some [mid] strictly between 0.0001 and 100.0; it is strictly positive
    and at most 100.0. *)
Theorem rate_in_range (today : date) (balance monthly_payment : float)
        (end_date : date) (r : float) :
  calculate_interest_rate today balance monthly_payment end_date
  = Returns (Some r) ->
  (exists mid,
      (0.0001 <? mid)%float = true /\ (mid <? 100)%float = true
      /\ r = PyFloat.round mid 4)
  /\ (0 <? r)%float = true
  /\ (r <=? 100)%float = true.
Proof.
  intros Hr.
  destruct (calculate_interest_rate_some _ _ _ _ _ Hr) as (k & lh & _ & Hs & Hb).
  assert (Hin : in_range (fst lh) /\ in_range (snd lh)).
  { apply (state_at_invariant
             (bisect_body today balance monthly_payment end_date)
             (fun lh => in_range (fst lh) /\ in_range (snd lh)))
      with (k := k) (s := (0.0001, 100.0)%float).
    - intros s s' Hp Hn. eapply bisect_body_in_range; eauto.
    - exact in_range_start.
    - exact Hs. }
  destruct (bisect_body_ret _ _ _ _ _ _ Hb) as (-> & _).
  destruct Hin as [Hl Hh].
  pose proof (midpoint_in_range _ _ Hl Hh) as Hm.
  split.
  - destruct (round4_strictly_inside _ Hm) as (mid' & H1 & H2 & H3).
    exists mid'. auto.
  - apply round4_range. exact Hm.
Qed.

Lemma rate_in_range_witness :
  calculate_interest_rate (mkdate 2025 1 15) 24000 1063.69 (mkdate 2027 1 15)
  = Returns (Some 5.9998%float)
  /\ (0 <? 5.9998)%float = true
  /\ (5.9998 <=? 100)%float = true.
Proof.
  assert (Hr : calculate_interest_rate (mkdate 2025 1 15) 24000 1063.69
                 (mkdate 2027 1 15) = Returns (Some 5.9998%float))
    by (vm_compute; reflexivity).
  split; [exact Hr|].
  exact (proj2 (rate_in_range (mkdate 2025 1 15) 24000 1063.69
                  (mkdate 2027 1 15) 5.9998 Hr)).
Defined.

(** * The calendar *)

(** X1: for a date with a year in 1..9999 and a month in 1..12,
    [increment_month] raises [ValueError] in December 9999 and otherwise
    returns the first day of the next month: January of the next year after
    a December, the next month of the same year after any other month. *)
Theorem increment_month_next (d : date) :
  1 <= year d <= MAXYEAR -> 1 <= month d <= 12 ->
  increment_month d
  = if (year d =? MAXYEAR) && (month d =? 12) then Raises ValueError
    else Returns (mkdate (if month d =? 12 then year d + 1 else year d)
                         (if month d =? 12 then 1 else month d + 1) 1).
Proof.
  intros Hy Hm. unfold increment_month, first_of_month, MAXYEAR in *.
  destruct (Z.eqb_spec (month d) 12) as [E|E].
  - rewrite E. change (12 / 12) with 1. change (12 mod 12 + 1) with 1.
    destruct (Z.eqb_spec (year d) 9999) as [Ey|Ey]; cbn [andb].
    + rewrite Ey. reflexivity.
    + match goal with |- (if ?c then _ else _) = _ =>
        replace c with true; [reflexivity|] end.
      symmetry. rewrite !andb_true_iff, !Z.leb_le. lia.
  - rewrite andb_false_r.
    assert (Hq : month d / 12 = 0) by (apply Z.div_small; lia).
    assert (Hr : month d mod 12 = month d) by (apply Z.mod_small; lia).
    rewrite Hq, Hr, Z.add_0_r.
    match goal with |- (if ?c then _ else _) = _ =>
      replace c with true; [reflexivity|] end.
    symmetry. rewrite !andb_true_iff, !Z.leb_le. lia.
Qed.

Lemma increment_month_next_witness :
  increment_month (mkdate 2025 12 15) = Returns (mkdate 2026 1 1)
  /\ increment_month (mkdate 9999 12 31) = Raises ValueError.
Proof.
  split.
  - apply (increment_month_next (mkdate 2025 12 15)); simpl; unfold MAXYEAR; lia.
  - apply (increment_month_next (mkdate 9999 12 31)); simpl; unfold MAXYEAR; lia.
Defined.

(** The date of the payoff loop is [count] months after the clock. *)
Lemma state_at_current (today : date) (monthly_payment monthly_rate : float)
      (k : nat) (s s' : sim) (j : Z) :
  0 <= j -> current s = add_months today j ->
  state_at (end_date_body monthly_payment monthly_rate) k s = Some s' ->
  current s' = add_months today (j + Z.of_nat k).
Proof.
  revert s j. induction k as [|k IH]; intros s j Hj Hc H.
  - simpl in H. injection H as <-. rewrite Z.add_0_r. exact Hc.
  - simpl in H.
    destruct (end_date_body monthly_payment monthly_rate s) as [s1| | |] eqn:E;
      try discriminate.
    apply end_date_body_next in E. destruct E as (_ & _ & Hi & _).
    rewrite Hc in Hi. apply increment_month_add_months in Hi; [|exact Hj].
    rewrite (IH s1 (j + 1) ltac:(lia) Hi H). f_equal. lia.
Qed.

Lemma add_months_shape (d : date) (k : Z) :
  k <> 0 -> day (add_months d k) = 1 /\ 1 <= month (add_months d k) <= 12.
Proof.
  intros Hk. unfold add_months.
  replace (k =? 0) with false by (symmetry; apply Z.eqb_neq; lia).
  simpl. split; [reflexivity|]. Z.div_mod_to_equations. lia.
Qed.

(** X2: a date that [calculate_end_date] returns for a positive balance is
    the first day of a month, between 1 and 1199 months after the clock; the
    loop ran that many iterations, and the balance it reached is exactly
    0. *)
Theorem payoff_date_bounds (today : date) (fuel : nat)
        (balance monthly_payment interest_rate : float) (d : date) :
  (0 <? balance)%float = true ->
  calculate_end_date today fuel balance monthly_payment interest_rate
  = Some (Returns (Some d)) ->
  let body := end_date_body monthly_payment (monthly_rate_of interest_rate) in
  exists n : nat,
    (1 <= n <= 1199)%nat
    /\ d = add_months today (Z.of_nat n)
    /\ months_until today d = Z.of_nat n
    /\ day d = 1 /\ 1 <= month d <= 12
    /\ iterations body fuel (mksim balance today 0) = n
    /\ exists s,
        state_at body n (mksim balance today 0) = Some s
        /\ balance_of s = 0%float /\ current s = d.
Proof.
  intros Hpos H body. unfold calculate_end_date in H.
  destruct (monthly_payment <=? 0)%float; [discriminate|].
  fold body in H.
  destruct (while body fuel _) as [[r|e]|] eqn:Ew; try discriminate.
  injection H as H.
  destruct (while_inv _ _ _ _ Ew) as (k & s & Hk & Hs & Hst & Hit).
  pose proof (state_at_count _ _ _ _ _ Hs) as Hc. simpl in Hc.
  pose proof (state_at_current today _ _ k (mksim balance today 0) s 0
                ltac:(lia) eq_refl Hs) as Hd.
  simpl in Hd.
  unfold stops in Hst.
  destruct (body s) as [x|x|v|e] eqn:E; try contradiction; try discriminate.
  - apply end_date_body_exit in E. destruct E as [-> Hg].
    injection Hst as ->. simpl in H.
    destruct (count s <? max_months) eqn:Ec; [|discriminate].
    injection H as <-. rewrite ?Ec, ?andb_true_r in Hg.
    apply Z.ltb_lt in Ec. unfold max_months in Ec.
    destruct k as [|k].
    { simpl in Hs. injection Hs as <-. simpl in Hg. congruence. }
    assert (Hz : balance_of s = 0%float).
    { rewrite state_at_succ in Hs.
      destruct (state_at body k _) as [s0|]; [|discriminate].
      destruct (body s0) as [s1| | |] eqn:E0; try discriminate.
      injection Hs as ->. apply end_date_body_next in E0.
      destruct E0 as (_ & Hb & _). rewrite Hb in *. unfold balance_step in *.
      destruct (max0_cases (PyFloat.round
                  (balance_of s0
                   - (monthly_payment
                      - balance_of s0 * monthly_rate_of interest_rate)) 2))
        as [Hm|Hm]; [exact Hm|congruence]. }
    exists (Datatypes.S k).
    destruct (add_months_shape today (Z.of_nat (Datatypes.S k)) ltac:(lia))
      as [Hday Hmonth].
    rewrite Hd. split; [lia|]. split; [reflexivity|].
    split; [apply months_until_add_months|].
    split; [exact Hday|]. split; [exact Hmonth|]. split; [exact Hit|].
    exists s. rewrite Hd. auto.
  - apply end_date_body_ret in E. destruct E as [-> _].
    injection Hst as ->. discriminate.
Qed.

Lemma payoff_date_bounds_witness :
  exists n : nat,
    (1 <= n <= 1199)%nat
    /\ mkdate 2027 2 1 = add_months (mkdate 2025 1 15) (Z.of_nat n)
    /\ months_until (mkdate 2025 1 15) (mkdate 2027 2 1) = Z.of_nat n.
Proof.
  destruct (payoff_date_bounds (mkdate 2025 1 15) 1201 24000 1063.69 6
              (mkdate 2027 2 1) eq_refl ltac:(vm_compute; reflexivity))
    as (n & H1 & H2 & H3 & _).
  exists n. auto.
Defined.

(** * Exceptions *)

(** With fuel above the cap [calculate_end_date] has a result. *)
Lemma calculate_end_date_result (today : date)
      (balance monthly_payment interest_rate : float) :
  exists r, forall extra,
    calculate_end_date today (1201 + extra) balance monthly_payment
                       interest_rate = Some r.
Proof.
  assert (H : exists r,
             calculate_end_date today 1201 balance monthly_payment
                                interest_rate = Some r).
  { unfold calculate_end_date.
    destruct (monthly_payment <=? 0)%float; [eauto|].
    destruct (while_measure
                (end_date_body monthly_payment (monthly_rate_of interest_rate))
                months_left
                (months_left_decreases monthly_payment
                   (monthly_rate_of interest_rate))
                1201%nat (mksim balance today 0)) as [Hw _].
    { unfold months_left, max_months. simpl. lia. }
    destruct (while _ 1201 _) as [[w|e]|]; [eauto|eauto|contradiction]. }
  destruct H as [r H]. exists r. intros extra.
  apply calculate_end_date_more_fuel. exact H.
Qed.

(** The loop without calendar raises nothing. *)
Lemma payoff_months_no_raise (fuel : nat)
      (balance monthly_payment interest_rate : float) (e : exn) :
  payoff_months fuel balance monthly_payment interest_rate <> Some (Raises e).
Proof.
  unfold payoff_months. destruct (monthly_payment <=? 0)%float; [discriminate|].
  destruct (while _ fuel _) as [[r|e']|] eqn:Ew; try discriminate.
  exfalso. destruct (while_inv _ _ _ _ Ew) as (k & bc & _ & _ & Hst & _).
  unfold stops in Hst.
  destruct (payoff_body monthly_payment (monthly_rate_of interest_rate) bc)
    as [x|x|v|e0] eqn:E; try contradiction; try discriminate.
  revert E. unfold payoff_body. destruct bc as [b n].
  destruct (_ && _); [|discriminate]. destruct (_ && _); discriminate.
Qed.

(** With a clock that leaves a hundred years of valid dates
    [calculate_end_date] raises nothing. *)
Lemma calculate_end_date_returns (today : date)
        (balance monthly_payment interest_rate : float) :
  valid_today today ->
  exists v : option date, forall extra,
    calculate_end_date today (1201 + extra) balance monthly_payment
                       interest_rate = Some (Returns v).
Proof.
  intros Hv.
  destruct (calculate_end_date_result today balance monthly_payment
              interest_rate) as [[v|e] H].
  - exists v. exact H.
  - exfalso. specialize (H 0%nat).
    rewrite calculate_end_date_payoff in H by exact Hv.
    destruct (payoff_months _ _ _ _) as [[w|e']|] eqn:E; try discriminate.
    injection H as <-. exact (payoff_months_no_raise _ _ _ _ _ E).
Qed.

(** X3: with the clock in December 9999 [calculate_interest_breakdown]
    raises [ValueError] on every input, and [calculate_end_date] raises it
    for every positive balance and every payment that is not [<= 0]: the
    month after the clock is no date. *)
Theorem december_9999_raises (today : date) (fuel : nat)
        (balance monthly_payment interest_rate : float) (end_date : date) :
  year today = MAXYEAR -> month today = 12 ->
  calculate_interest_breakdown today fuel balance monthly_payment
                               interest_rate end_date
  = Some (Raises ValueError)
  /\ ((0 <? balance)%float = true -> (monthly_payment <=? 0)%float = false ->
      calculate_end_date today (Datatypes.S fuel) balance monthly_payment
                         interest_rate
      = Some (Raises ValueError)).
Proof.
  intros Hy Hm.
  assert (Hi : increment_month today = Raises ValueError).
  { unfold increment_month, first_of_month. rewrite Hy, Hm. reflexivity. }
  split.
  - unfold calculate_interest_breakdown. rewrite Hi. reflexivity.
  - intros Hb Hp. unfold calculate_end_date. rewrite Hp.
    cbn [while]. unfold end_date_body. cbn [balance_of count current].
    rewrite Hb, Hi, andb_false_r. reflexivity.
Qed.

Lemma december_9999_raises_witness :
  calculate_interest_breakdown (mkdate 9999 12 1) 1201 1000 100 5
                               (mkdate 9999 12 31)
  = Some (Raises ValueError)
  /\ calculate_end_date (mkdate 9999 12 1) 1201 1000 100 5
     = Some (Raises ValueError).
Proof.
  destruct (december_9999_raises (mkdate 9999 12 1) 1200 1000 100 5
              (mkdate 9999 12 31) eq_refl eq_refl) as [H1 H2].
  split; [exact H1|]. apply H2; reflexivity.
Defined.

(** * Balances that are not positive *)

Lemma end_date_of_non_positive (today : date) (fuel : nat)
      (balance monthly_payment interest_rate : float) :
  (0 <? balance)%float = false -> (monthly_payment <=? 0)%float = false ->
  calculate_end_date today (Datatypes.S fuel) balance monthly_payment
                     interest_rate
  = Some (Returns (Some today)).
Proof.
  intros Hb Hp. unfold calculate_end_date. rewrite Hp. cbn [while].
  unfold end_date_body. cbn [balance_of count]. rewrite Hb. reflexivity.
Qed.

Lemma breakdown_of_non_positive (today : date) (fuel : nat)
      (balance monthly_payment interest_rate : float) (end_date start : date) :
  (0 <? balance)%float = false -> (monthly_payment <=? 0)%float = false ->
  increment_month today = Returns start ->
  calculate_interest_breakdown today (Datatypes.S fuel) balance
                               monthly_payment interest_rate end_date
  = Some (Returns (Schedule [] 0%float)).
Proof.
  intros Hb Hp Hi. unfold calculate_interest_breakdown.
  rewrite Hi, (end_date_of_non_positive today fuel _ _ _ Hb Hp).
  cbn [while]. unfold breakdown_body. cbn [sched_balance]. rewrite Hb.
  reflexivity.
Qed.

(** X4: with a balance that is not positive (zero, negative or NaN) and a
    payment that is not [<= 0], [calculate_end_date] returns the clock's own
    date after no iteration, and the schedule has no line and a total
    interest of 0. *)
Theorem non_positive_balance (today : date) (fuel : nat)
        (balance monthly_payment interest_rate : float) (end_date : date) :
  (0 <? balance)%float = false -> (monthly_payment <=? 0)%float = false ->
  calculate_end_date today (Datatypes.S fuel) balance monthly_payment
                     interest_rate
  = Some (Returns (Some today))
  /\ (forall start, increment_month today = Returns start ->
      calculate_interest_breakdown today (Datatypes.S fuel) balance
                                   monthly_payment interest_rate end_date
      = Some (Returns (Schedule [] 0%float))).
Proof.
  intros Hb Hp. split.
  - apply end_date_of_non_positive; assumption.
  - intros start Hi. eapply breakdown_of_non_positive; eassumption.
Qed.

Lemma non_positive_balance_witness :
  calculate_end_date (mkdate 2025 1 15) 1201 (-5) 100 5
  = Some (Returns (Some (mkdate 2025 1 15)))
  /\ calculate_interest_breakdown (mkdate 2025 1 15) 1201 (-5) 100 5
                                  (mkdate 2026 1 15)
     = Some (Returns (Schedule [] 0%float)).
Proof.
  destruct (non_positive_balance (mkdate 2025 1 15) 1200 (-5) 100 5
              (mkdate 2026 1 15) eq_refl eq_refl) as [H1 H2].
  split; [exact H1|]. apply (H2 (mkdate 2025 2 1)). reflexivity.
Defined.

(** * The schedule always comes *)

Lemma calculate_interest_breakdown_more_fuel (today : date) (fuel extra : nat)
      (balance monthly_payment interest_rate : float) (end_date : date)
      (r : result breakdown) :
  calculate_interest_breakdown today fuel balance monthly_payment
                               interest_rate end_date = Some r ->
  calculate_interest_breakdown today (fuel + extra) balance monthly_payment
                               interest_rate end_date = Some r.
Proof.
  unfold calculate_interest_breakdown.
  destruct (increment_month today) as [start|e]; [|auto].
  destruct (calculate_end_date today fuel _ _ _) as [c|] eqn:Ec; [|discriminate].
  rewrite (calculate_end_date_more_fuel _ _ extra _ _ _ _ Ec).
  destruct c as [[d|]|e]; auto.
  destruct (while _ fuel _) as [w|] eqn:Ew; [|discriminate].
  rewrite (while_more_fuel _ _ extra _ _ Ew). auto.
Qed.

(** X5: with a clock that leaves a hundred years of valid dates,
    [calculate_interest_breakdown] returns one and the same answer with any
    fuel above 1200 and raises nothing: the refusal exactly when
    [calculate_end_date] returns [None], and otherwise a schedule of at most
    1199 lines. *)
Theorem breakdown_always_answers (today : date)
        (balance monthly_payment interest_rate : float) (end_date : date) :
  valid_today today ->
  exists answer : breakdown,
    (forall extra,
        calculate_interest_breakdown today (1201 + extra) balance
                                     monthly_payment interest_rate end_date
        = Some (Returns answer))
    /\ match answer with
       | Refused message =>
           message = "Breakdown cannot be generated: Monthly payment does not cover interest."%string
           /\ forall extra,
               calculate_end_date today (1201 + extra) balance monthly_payment
                                  interest_rate = Some (Returns None)
       | Schedule lines total =>
           (List.length lines <= 1199)%nat
           /\ exists d, forall extra,
               calculate_end_date today (1201 + extra) balance monthly_payment
                                  interest_rate = Some (Returns (Some d))
       end.
Proof.
  intros Hv.
  destruct (calculate_end_date_returns today balance monthly_payment
              interest_rate Hv) as [v Hd].
  assert (Hfuel : forall b,
             calculate_interest_breakdown today 1201 balance monthly_payment
                                          interest_rate end_date
             = Some (Returns b) ->
             forall extra,
               calculate_interest_breakdown today (1201 + extra) balance
                                            monthly_payment interest_rate
                                            end_date
               = Some (Returns b)).
  { intros b Hb extra. apply calculate_interest_breakdown_more_fuel. exact Hb. }
  pose proof (Hd 0%nat) as Hd0. change (1201 + 0)%nat with 1201%nat in Hd0.
  destruct v as [d|].
  - destruct (0 <? balance)%float eqn:Hpos.
    + destruct (schedule_shape today 1201 balance monthly_payment interest_rate
                  end_date d Hv Hpos Hd0)
        as (n & lines & total & Hn & Hb & _ & Hlen).
      destruct (payoff_date_months _ _ _ _ _ _ Hv Hpos Hd0) as (n' & Hn' & _ & Hn2).
      assert (n = n').
      { apply Nat2Z.inj. rewrite <- (months_until_add_months today (Z.of_nat n)).
        rewrite <- Hn, Hn2. apply months_until_add_months. }
      subst n'. exists (Schedule lines total).
      split; [apply Hfuel; exact Hb|]. split; [lia|]. exists d. exact Hd.
    + exists (Schedule [] 0%float).
      assert (Hp : (monthly_payment <=? 0)%float = false).
      { revert Hd0. unfold calculate_end_date.
        destruct (monthly_payment <=? 0)%float; [discriminate|reflexivity]. }
      split.
      * apply Hfuel.
        apply (breakdown_of_non_positive today 1200 balance monthly_payment
                 interest_rate end_date (add_months today 1) Hpos Hp).
        apply increment_month_today. exact Hv.
      * split; [simpl; lia|]. exists d. exact Hd.
  - exists (Refused "Breakdown cannot be generated: Monthly payment does not cover interest.").
    split.
    + apply Hfuel. unfold calculate_interest_breakdown.
      rewrite (increment_month_today today Hv), Hd0. reflexivity.
    + split; [reflexivity|exact Hd].
Qed.

Lemma breakdown_always_answers_witness :
  exists answer : breakdown,
    forall extra,
      calculate_interest_breakdown (mkdate 2025 1 15) (1201 + extra) 10000 10 12
                                   (mkdate 2026 1 15)
      = Some (Returns answer).
Proof.
  destruct (breakdown_always_answers (mkdate 2025 1 15) 10000 10 12
              (mkdate 2026 1 15)) as (answer & H & _).
  - unfold valid_today, MAXYEAR. simpl. lia.
  - exists answer. exact H.
Defined.

(** * The columns of the schedule *)

(** The line a turn of the schedule loop appends. *)
Lemma breakdown_step_row (monthly_payment monthly_rate : float)
      (end_date_calc : date) (s s' : sched) :
  breakdown_step monthly_payment monthly_rate end_date_calc s s' ->
  exists r,
    rows s' = (rows s ++ [r])%list
    /\ row_date r = current_date s
    /\ total_interest_paid s' = (total_interest_paid s + row_interest r)%float
    /\ sched_balance s' = row_balance r
    /\ (if final_payment monthly_payment end_date_calc s
        then closing_line monthly_rate (sched_balance s) r
        else regular_line monthly_payment monthly_rate (sched_balance s) r).
Proof.
  intros [Hg Hb].
  unfold breakdown_guard in Hg. unfold breakdown_body in Hb. rewrite Hg in Hb.
  fold (final_payment monthly_payment end_date_calc s) in Hb.
  destruct (final_payment monthly_payment end_date_calc s) eqn:Ef.
  - cbv zeta in Hb. rewrite clamp_zero in Hb.
    change (0 =? 0)%float with true in Hb. cbv iota in Hb.
    destruct Hb as [Hb|Hb]; [discriminate|]. injection Hb as <-.
    eexists. cbn [rows total_interest_paid sched_balance].
    split; [reflexivity|]. unfold closing_line. simpl. auto 10.
  - cbv zeta in Hb.
    destruct (_ =? 0)%float.
    + destruct Hb as [Hb|Hb]; [discriminate|]. injection Hb as <-.
      eexists. cbn [rows total_interest_paid sched_balance].
      split; [reflexivity|]. unfold regular_line. simpl. auto 10.
    + destruct (increment_month (current_date s)) as [d|e].
      * destruct Hb as [Hb|Hb]; [|discriminate]. injection Hb as <-.
        eexists. cbn [rows total_interest_paid sched_balance].
        split; [reflexivity|]. unfold regular_line. simpl. auto 10.
      * destruct Hb as [Hb|Hb]; discriminate.
Qed.

(** The result of the schedule loop, from an invariant of its turns. *)
Lemma breakdown_loop_result (monthly_payment monthly_rate : float)
      (end_date_calc : date) (P Q : sched -> Prop) (fuel : nat)
      (s : sched) (w : sched + Empty_set) :
  (forall s s', P s ->
     breakdown_body monthly_payment monthly_rate end_date_calc s = Next s' ->
     P s') ->
  (forall s s', P s ->
     breakdown_body monthly_payment monthly_rate end_date_calc s = Exit s' ->
     Q s') ->
  P s ->
  while (breakdown_body monthly_payment monthly_rate end_date_calc) fuel s
  = Some (Returns w) ->
  exists s', w = inl s' /\ Q s'.
Proof.
  intros Hnext Hexit Hp Hw.
  destruct (while_invariant
              (breakdown_body monthly_payment monthly_rate end_date_calc)
              P Hnext fuel s (Returns w) Hp Hw) as (s1 & Hp1 & Hst).
  unfold stops in Hst.
  destruct (breakdown_body monthly_payment monthly_rate end_date_calc s1)
    as [s2|s2|v|e] eqn:E.
  - contradiction.
  - injection Hst as ->. exists s2. split; [reflexivity|]. eapply Hexit; eauto.
  - destruct v.
  - discriminate.
Qed.

(** The schedule behind a result of [calculate_interest_breakdown]. *)
Lemma breakdown_schedule_loop (today : date) (fuel : nat)
      (balance monthly_payment interest_rate : float) (end_date : date)
      (lines : list row) (total : float) :
  calculate_interest_breakdown today fuel balance monthly_payment
                               interest_rate end_date
  = Some (Returns (Schedule lines total)) ->
  exists start end_date_calc s',
    while (breakdown_body monthly_payment (monthly_rate_of interest_rate)
                          end_date_calc)
          fuel (mksched balance start 0 [])
    = Some (Returns (inl s'))
    /\ lines = rows s'
    /\ total = PyFloat.round (total_interest_paid s') 2.
Proof.
  unfold calculate_interest_breakdown.
  destruct (increment_month today) as [start|]; [|discriminate].
  destruct (calculate_end_date _ _ _ _ _) as [[[D|]|]|]; try discriminate.
  destruct (while _ fuel _) as [[[s'|[]]|]|] eqn:Ew; try discriminate.
  intros H. injection H as <- <-. exists start, D, s'. auto.
Qed.

Lemma interest_sum_snoc (lines : list row) (r : row) :
  interest_sum (lines ++ [r]) = (interest_sum lines + row_interest r)%float.
Proof. unfold interest_sum. rewrite fold_left_app. reflexivity. Qed.

Lemma total_interest_step (monthly_payment monthly_rate : float)
      (end_date_calc : date) (s s' : sched) :
  breakdown_step monthly_payment monthly_rate end_date_calc s s' ->
  total_interest_paid s = interest_sum (rows s) ->
  total_interest_paid s' = interest_sum (rows s').
Proof.
  intros Hst Hp.
  destruct (breakdown_step_row _ _ _ _ _ Hst) as (r & Hr & _ & Ht & _).
  rewrite Hr, interest_sum_snoc, Ht, Hp. reflexivity.
Qed.

(** X6: the total interest of a schedule is [round(_, 2)] of the sum of
    its interest column, added up from 0 line by line in the order of the
    lines. *)
Theorem total_interest_is_sum (today : date) (fuel : nat)
        (balance monthly_payment interest_rate : float) (end_date : date)
        (lines : list row) (total : float) :
  calculate_interest_breakdown today fuel balance monthly_payment
                               interest_rate end_date
  = Some (Returns (Schedule lines total)) ->
  total = PyFloat.round (interest_sum lines) 2.
Proof.
  intros H.
  destruct (breakdown_schedule_loop _ _ _ _ _ _ _ _ H)
    as (start & D & s' & Hw & -> & ->).
  destruct (fun Hn He Hp =>
              breakdown_loop_result monthly_payment
                (monthly_rate_of interest_rate) D
                (fun s => total_interest_paid s = interest_sum (rows s))
                (fun s => total_interest_paid s = interest_sum (rows s))
                fuel (mksched balance start 0 []) (inl s') Hn He Hp Hw)
    as (s2 & Hs2 & Hq).
  - intros s s1 Hp Hn. apply breakdown_body_next in Hn.
    eapply total_interest_step; eauto.
  - intros s s1 Hp He.
    destruct (breakdown_body_exit _ _ _ _ _ He) as [[_ ->]|Hst]; [exact Hp|].
    eapply total_interest_step; eauto.
  - reflexivity.
  - injection Hs2 as <-. rewrite Hq. reflexivity.
Qed.

Lemma total_interest_is_sum_witness :
  exists lines total,
    calculate_interest_breakdown (mkdate 2025 1 15) 1201 24000 1063.69 6
                                 (mkdate 2027 1 15)
    = Some (Returns (Schedule lines total))
    /\ total = PyFloat.round (interest_sum lines) 2.
Proof.
  eexists. eexists. split; [vm_compute; reflexivity|].
  apply (total_interest_is_sum (mkdate 2025 1 15) 1201 24000 1063.69 6
           (mkdate 2027 1 15)).
  vm_compute. reflexivity.
Defined.

(** X7: the lines of a schedule are computed one from the other.  Each
    line's interest is [round(b * monthly_rate, 2)] for the balance [b] the
    line before left (the loan's balance for the first line).  Every line
    but the last pays the fixed payment, with the principal
    [round(monthly_payment - b * monthly_rate, 2)]; the last line does so
    too, or closes the loan with the payment [round(b + b * monthly_rate,
    2)], the principal [round(b, 2)] and the balance 0. *)
Theorem schedule_columns (today : date) (fuel : nat)
        (balance monthly_payment interest_rate : float) (end_date : date)
        (lines : list row) (total : float) :
  calculate_interest_breakdown today fuel balance monthly_payment
                               interest_rate end_date
  = Some (Returns (Schedule lines total)) ->
  tabulates monthly_payment (monthly_rate_of interest_rate) balance lines.
Proof.
  intros H.
  destruct (breakdown_schedule_loop _ _ _ _ _ _ _ _ H)
    as (start & D & s' & Hw & -> & _).
  set (mr := monthly_rate_of interest_rate) in *.
  destruct (fun Hn He Hp =>
              breakdown_loop_result monthly_payment mr D
                (fun s => forall rest,
                     tabulates monthly_payment mr (sched_balance s) rest ->
                     tabulates monthly_payment mr balance (rows s ++ rest))
                (fun s => tabulates monthly_payment mr balance (rows s))
                fuel (mksched balance start 0 []) (inl s') Hn He Hp Hw)
    as (s2 & Hs2 & Hq).
  - intros s s1 Hp Hn.
    pose proof (breakdown_body_next _ _ _ _ _ Hn) as Hst.
    destruct (breakdown_step_row _ _ _ _ _ Hst) as (r & Hr & _ & _ & Hb & Hk).
    destruct (breakdown_step_spec _ _ _ _ _ Hst) as (_ & Hf & _ & Hnx & _).
    destruct (Hnx Hn) as [Hpos _].
    destruct (final_payment monthly_payment D s).
    + rewrite Hf in Hpos. discriminate.
    + intros rest Ht. rewrite Hr, <- app_assoc. apply Hp. simpl.
      apply tabulates_regular; [exact Hk|]. rewrite <- Hb. exact Ht.
  - intros s s1 Hp He.
    destruct (breakdown_body_exit _ _ _ _ _ He) as [[_ ->]|Hst].
    + rewrite <- (app_nil_r (rows s)). apply Hp. apply tabulates_nil.
    + destruct (breakdown_step_row _ _ _ _ _ Hst) as (r & Hr & _ & _ & Hb & Hk).
      rewrite Hr. apply Hp.
      destruct (final_payment monthly_payment D s).
      * apply tabulates_closing. exact Hk.
      * apply tabulates_regular; [exact Hk|apply tabulates_nil].
  - intros rest Ht. exact Ht.
  - injection Hs2 as <-. exact Hq.
Qed.

Lemma schedule_columns_witness :
  exists lines total,
    calculate_interest_breakdown (mkdate 2025 1 15) 1201 24000 1063.69 6
                                 (mkdate 2027 1 15)
    = Some (Returns (Schedule lines total))
    /\ tabulates 1063.69 (monthly_rate_of 6) 24000 lines.
Proof.
  eexists. eexists. split; [vm_compute; reflexivity|].
  apply (schedule_columns (mkdate 2025 1 15) 1201 24000 1063.69 6
           (mkdate 2027 1 15) _ _ ltac:(vm_compute; reflexivity)).
Defined.

(** * Input validation *)

Lemma Prim2SF_nan (x : float) : Prim2SF x = S754_nan -> x = nan.
Proof. intros H. apply Prim2SF_inj. rewrite H. reflexivity. Qed.

(** [x <= 0] fails for the positive numbers and for NaN. *)
Lemma not_leb_zero (x : float) :
  (x <=? 0)%float = false <-> positive_or_nan x.
Proof.
  unfold positive_or_nan. split.
  - intros H. destruct (Prim2SF x) as [s|s| |s m e] eqn:E.
    + exfalso. revert H. rewrite leb_spec, E. discriminate.
    + left. revert H. rewrite leb_spec, ltb_spec, E, Prim2SF_zero.
      destruct s; [discriminate|reflexivity].
    + right. apply Prim2SF_nan. exact E.
    + left. revert H. rewrite leb_spec, ltb_spec, E, Prim2SF_zero.
      destruct s; [discriminate|reflexivity].
  - intros [H| ->]; [|reflexivity].
    revert H. rewrite leb_spec, ltb_spec, Prim2SF_zero.
    destruct (Prim2SF x) as [s|s| |s m e]; try discriminate;
      destruct s; try discriminate; reflexivity.
Qed.

(** What a passed validation has checked. *)
Lemma validate_inputs_none (today : date) (balance : float)
      (monthly_payment interest_rate : option float) (end_date : option date) :
  validate_inputs today balance monthly_payment interest_rate end_date = None ->
  (balance <=? 0)%float = false
  /\ (match monthly_payment with Some x => x | None => 1000000 end
      <=? 0)%float = false
  /\ (match interest_rate with Some x => x | None => 100 end
      <=? 0)%float = false
  /\ match end_date with
     | Some d => date_leb d today = false
     | None => True
     end.
Proof.
  unfold validate_inputs.
  destruct (balance <=? 0)%float; [discriminate|].
  destruct (_ <=? 0)%float; [discriminate|].
  destruct (_ <=? 0)%float; [discriminate|].
  destruct end_date as [d|]; [|auto].
  destruct (date_leb d today); [discriminate|auto].
Qed.

(** X8: [validate_inputs] accepts exactly the inputs whose balance,
    payment and rate are each positive or NaN (a payment or a rate that is
    not given passes) and whose target date, if given, is after the clock's
    date: a NaN is never rejected. *)
Theorem validate_inputs_accepts (today : date) (balance : float)
        (monthly_payment interest_rate : option float)
        (end_date : option date) :
  validate_inputs today balance monthly_payment interest_rate end_date = None
  <-> positive_or_nan balance
      /\ (forall x, monthly_payment = Some x -> positive_or_nan x)
      /\ (forall x, interest_rate = Some x -> positive_or_nan x)
      /\ (forall d, end_date = Some d -> date_leb d today = false).
Proof.
  unfold validate_inputs.
  assert (Hmp : (match monthly_payment with Some x => x | None => 1000000 end
                 <=? 0)%float = false
                <-> forall x, monthly_payment = Some x -> positive_or_nan x).
  { rewrite not_leb_zero. destruct monthly_payment as [x|].
    - split; [intros H y Hy; injection Hy as <-; exact H|auto].
    - split; [discriminate|]. intros _. left. reflexivity. }
  assert (Hir : (match interest_rate with Some x => x | None => 100 end
                 <=? 0)%float = false
                <-> forall x, interest_rate = Some x -> positive_or_nan x).
  { rewrite not_leb_zero. destruct interest_rate as [x|].
    - split; [intros H y Hy; injection Hy as <-; exact H|auto].
    - split; [discriminate|]. intros _. left. reflexivity. }
  rewrite <- (not_leb_zero balance), <- Hmp, <- Hir.
  destruct (balance <=? 0)%float;
    [split; [intros H|intros [H _]]; discriminate H|].
  destruct (_ <=? 0)%float;
    [split; [intros H|intros (_ & H & _)]; discriminate H|].
  destruct (_ <=? 0)%float;
    [split; [intros H|intros (_ & _ & H & _)]; discriminate H|].
  destruct end_date as [d|].
  - destruct (date_leb d today) eqn:Ed.
    + split; [discriminate|]. intros (_ & _ & _ & H).
      specialize (H d eq_refl). congruence.
    + split; [|reflexivity]. intros _. repeat split; auto.
      intros d' H. injection H as H. subst d'. exact Ed.
  - split; [|reflexivity]. intros _. repeat split; auto. discriminate.
Qed.

(** X9: a target date that [validate_inputs] accepts is in no month before
    the clock's; when it is in the clock's own month, it is on a later
    day. *)
Theorem validated_target_not_past (today d : date) (balance : float)
        (monthly_payment interest_rate : option float) :
  1 <= month today <= 12 -> 1 <= month d <= 12 ->
  validate_inputs today balance monthly_payment interest_rate (Some d) = None ->
  0 <= months_until today d
  /\ (months_until today d = 0 ->
      year d = year today /\ month d = month today /\ day today < day d).
Proof.
  intros Ht Hd H.
  apply validate_inputs_none in H. destruct H as (_ & _ & _ & H).
  revert H. unfold date_leb, months_until.
  rewrite !orb_false_iff, !andb_false_iff, !orb_false_iff, !andb_false_iff.
  rewrite !Z.ltb_ge, !Z.eqb_neq, !Z.leb_gt. lia.
Qed.

Lemma validated_target_not_past_witness :
  0 <= months_until (mkdate 2025 1 15) (mkdate 2025 1 31)
  /\ (months_until (mkdate 2025 1 15) (mkdate 2025 1 31) = 0 ->
      2025 = 2025 /\ 1 = 1 /\ 15 < 31).
Proof.
  apply (validated_target_not_past (mkdate 2025 1 15) (mkdate 2025 1 31)
           1000 None (Some 5%float)); simpl; try lia.
  reflexivity.
Defined.

(** X10: a target date later in the clock's month passes the date check of
    [validate_inputs] and is zero months away: [calculate_monthly_payment]
    and [calculate_interest_rate] then return [None] whatever the
    amounts. *)
Theorem same_month_target_passes (today d : date) (balance : float)
        (monthly_payment interest_rate : option float) :
  year d = year today -> month d = month today -> day today < day d ->
  validate_inputs today balance monthly_payment interest_rate (Some d)
  = validate_inputs today balance monthly_payment interest_rate None
  /\ months_until today d = 0
  /\ (forall b r, calculate_monthly_payment today b r d = None)
  /\ (forall b p, calculate_interest_rate today b p d = Returns None).
Proof.
  intros Hy Hm Hd.
  assert (Hl : date_leb d today = false).
  { unfold date_leb. rewrite Hy, Hm, Z.ltb_irrefl, Z.ltb_irrefl, !Z.eqb_refl.
    simpl. apply Z.leb_gt. exact Hd. }
  assert (H0 : months_until today d = 0).
  { unfold months_until. rewrite Hy, Hm. lia. }
  split; [|split; [exact H0|split]].
  - unfold validate_inputs. rewrite Hl. reflexivity.
  - intros b r. unfold calculate_monthly_payment. rewrite H0. reflexivity.
  - intros b p. unfold calculate_interest_rate. rewrite H0. reflexivity.
Qed.

Lemma same_month_target_passes_witness :
  validate_inputs (mkdate 2025 1 15) 1000 None (Some 5%float)
                  (Some (mkdate 2025 1 31)) = None
  /\ calculate_monthly_payment (mkdate 2025 1 15) 1000 5 (mkdate 2025 1 31)
     = None.
Proof.
  destruct (same_month_target_passes (mkdate 2025 1 15) (mkdate 2025 1 31)
              1000 None (Some 5%float) eq_refl eq_refl eq_refl)
    as (H1 & _ & H2 & _).
  split; [rewrite H1; reflexivity|apply H2].
Defined.

(** X11: on a validated balance, payment and rate, with a clock that
    leaves a hundred years of valid dates, [calculate_end_date] raises
    nothing.  [None] means that the payment did not exceed the interest of
    some month after the first, or that 1200 iterations were completed; a
    date is between 1 and 1199 months after the clock, or is the clock's own
    date when the balance is NaN. *)
Theorem validated_end_date (today : date) (extra : nat)
        (balance monthly_payment interest_rate : float) :
  valid_today today ->
  validate_inputs today balance (Some monthly_payment) (Some interest_rate)
                  None = None ->
  match calculate_end_date today (1201 + extra) balance monthly_payment
                           interest_rate with
  | Some (Returns None) =>
      (exists k, unrepayable_at today balance monthly_payment interest_rate k)
      \/ capped today balance monthly_payment interest_rate
  | Some (Returns (Some d)) =>
      (balance = nan /\ d = today)
      \/ (exists n : nat,
             (1 <= n < 1200)%nat /\ d = add_months today (Z.of_nat n))
  | Some (Raises _) | None => False
  end.
Proof.
  intros Hv H. apply validate_inputs_none in H.
  destruct H as (Hb & Hp & _).
  destruct (calculate_end_date_returns today balance monthly_payment
              interest_rate Hv) as [v Hd].
  specialize (Hd extra). rewrite Hd.
  destruct v as [d|].
  - apply not_leb_zero in Hb. destruct Hb as [Hb| ->].
    + right. destruct (payoff_date_months _ _ _ _ _ _ Hv Hb Hd)
        as (n & Hn & _ & ->).
      exists n. auto.
    + left. split; [reflexivity|].
      pose proof (end_date_of_non_positive today (1200 + extra) nan
                    monthly_payment interest_rate eq_refl Hp) as Hn.
      change (Datatypes.S (1200 + extra)) with (1201 + extra)%nat in Hn.
      rewrite Hn in Hd. injection Hd as <-. reflexivity.
  - destruct (calculate_end_date_none _ _ _ _ _ Hd) as [H|H]; [|exact H].
    congruence.
Qed.

Lemma validated_end_date_witness :
  exists n : nat,
    (1 <= n < 1200)%nat
    /\ mkdate 2027 2 1 = add_months (mkdate 2025 1 15) (Z.of_nat n).
Proof.
  assert (Hv : valid_today (mkdate 2025 1 15)).
  { unfold valid_today, MAXYEAR. simpl. lia. }
  pose proof (validated_end_date (mkdate 2025 1 15) 0 24000 1063.69 6 Hv
                eq_refl) as H.
  vm_compute calculate_end_date in H.
  destruct H as [[H _]|H]; [discriminate H|exact H].
Defined.

(** * Floats: signs through rounding *)

Lemma binary_round_aux_class (s : bool) (m e : Z) (l : location) :
  sign_class s (binary_round_aux prec emax s m e l).
Proof.
  unfold binary_round_aux.
  destruct (shr_fexp prec emax m e l) as [mrs' e'].
  destruct (shr_fexp prec emax _ e' loc_Exact) as [mrs'' e''].
  destruct (shr_m mrs''); [exact I| |exact I].
  destruct (_ <=? _); reflexivity.
Qed.

Lemma binary_round_class (s : bool) (m : positive) (e : Z) :
  sign_class s (binary_round prec emax s m e).
Proof.
  unfold binary_round. destruct (shl_align _ _ _) as [mz ez].
  apply binary_round_aux_class.
Qed.

Lemma SFldexp_class (s : bool) (x : spec_float) (e : Z) :
  sign_class s x -> sign_class s (SFldexp prec emax x e).
Proof.
  destruct x as [s'|s'| |s' m' e']; simpl; auto.
  intros ->. apply binary_round_class.
Qed.

Lemma of_uint63_class (n : PrimInt63.int) :
  sign_class false (Prim2SF (of_uint63 n)).
Proof.
  rewrite of_uint63_spec. pose proof (Uint63.to_Z_bounded n) as [H _].
  unfold binary_normalize. destruct (Uint63Axioms.to_Z n); [exact I| |lia].
  apply binary_round_class.
Qed.

Lemma SFopp_class (x : spec_float) :
  sign_class false x -> sign_class true (SFopp x).
Proof. destruct x; simpl; auto; intros ->; reflexivity. Qed.

(** The float of a specification value keeps its sign class, valid or
    not. *)
Lemma SF2Prim_class (s : bool) (x : spec_float) :
  sign_class s x -> sign_class s (Prim2SF (SF2Prim x)).
Proof.
  destruct x as [s'|s'| |s' m e].
  - intros _. destruct s'; exact I.
  - simpl. intros ->. destruct s; reflexivity.
  - intros _. exact I.
  - simpl sign_class at 1. intros ->. unfold SF2Prim.
    assert (H : sign_class false
                  (Prim2SF (Z.ldexp (of_uint63 (Uint63Axioms.of_Z (Zpos m))) e))).
    { unfold Z.ldexp. rewrite ldshiftexp_spec. apply SFldexp_class.
      apply of_uint63_class. }
    destruct s; [|exact H]. rewrite opp_spec. apply SFopp_class. exact H.
Qed.

Lemma of_ratio_class (s : bool) (n d : positive) :
  sign_class s (Prim2SF (PyFloat.of_ratio s n d)).
Proof.
  unfold PyFloat.of_ratio. apply SF2Prim_class. unfold SFdiv.
  destruct (SFdiv_core_binary prec emax (Zpos n) 0 (Zpos d) 0) as [[mz ez] lz].
  rewrite xorb_false_r. apply binary_round_aux_class.
Qed.

Lemma ltb_zero_class (x : float) :
  (0 <? x)%float = false <-> sign_class true (Prim2SF x).
Proof.
  rewrite ltb_spec, Prim2SF_zero.
  destruct (Prim2SF x) as [s|s| |s m e]; simpl; try tauto;
    destruct s; simpl; split; auto; discriminate.
Qed.

(** [round] makes nothing positive out of a number that is not. *)
Lemma round_not_positive (x : float) (ndigits : Z) :
  (0 <? x)%float = false -> (0 <? PyFloat.round x ndigits)%float = false.
Proof.
  rewrite !ltb_zero_class. unfold PyFloat.round.
  destruct (Prim2SF x) as [s|s| |s m e] eqn:E; try (rewrite E; auto).
  simpl. intros ->.
  destruct (if 0 <=? e then _ else _); try exact I.
  apply of_ratio_class.
Qed.

(** A month that leaves nothing of the balance. *)
Lemma balance_step_zero (monthly_payment monthly_rate balance : float) :
  (0 <? balance - (monthly_payment - balance * monthly_rate))%float = false ->
  balance_step monthly_payment monthly_rate balance = 0%float.
Proof.
  intros H. unfold balance_step, PyFloat.max0.
  rewrite (round_not_positive _ 2 H). reflexivity.
Qed.

(** * Paying off at once *)

Lemma date_leb_refl (d : date) : date_leb d d = true.
Proof.
  unfold date_leb. rewrite !Z.ltb_irrefl, !Z.eqb_refl, Z.leb_refl. reflexivity.
Qed.

(** The payoff loop when the first month leaves nothing. *)
Lemma end_date_one_month (today start : date) (fuel : nat)
      (balance monthly_payment interest_rate : float) :
  increment_month today = Returns start ->
  (0 <? balance)%float = true -> (monthly_payment <=? 0)%float = false ->
  balance_step monthly_payment (monthly_rate_of interest_rate) balance
  = 0%float ->
  calculate_end_date today (Datatypes.S (Datatypes.S fuel)) balance
                     monthly_payment interest_rate
  = Some (Returns (Some start)).
Proof.
  intros Hi Hb Hp Hz. unfold calculate_end_date. rewrite Hp.
  cbn [while]. unfold end_date_body at 1. cbn [balance_of count current].
  rewrite Hb, Hi, andb_false_r.
  change (if true && (0 <? max_months) then ?a else ?b) with a.
  cbv iota. unfold balance_step in Hz. rewrite Hz.
  reflexivity.
Qed.

(** X12: when the first payment leaves nothing, [balance - (payment -
    interest)] not being positive, [calculate_end_date] returns the month
    after the clock and the schedule is one line, which charges the balance
    and its interest, not the fixed payment. *)
Theorem pays_off_in_one_month (today start : date) (fuel : nat)
        (balance monthly_payment interest_rate : float) (end_date : date) :
  increment_month today = Returns start ->
  (0 <? balance)%float = true -> (monthly_payment <=? 0)%float = false ->
  (0 <? balance
        - (monthly_payment - balance * monthly_rate_of interest_rate))%float
  = false ->
  let interest := (balance * monthly_rate_of interest_rate)%float in
  calculate_end_date today (Datatypes.S (Datatypes.S fuel)) balance
                     monthly_payment interest_rate
  = Some (Returns (Some start))
  /\ calculate_interest_breakdown today (Datatypes.S (Datatypes.S fuel))
                                  balance monthly_payment interest_rate
                                  end_date
     = Some (Returns
               (Schedule
                  [mkrow start (PyFloat.round (balance + interest) 2)
                         (PyFloat.round interest 2) (PyFloat.round balance 2)
                         0%float]
                  (PyFloat.round (0 + PyFloat.round interest 2) 2))).
Proof.
  intros Hi Hb Hp Hz interest.
  assert (He : calculate_end_date today (Datatypes.S (Datatypes.S fuel))
                                  balance monthly_payment interest_rate
               = Some (Returns (Some start))).
  { apply end_date_one_month; auto. apply balance_step_zero. exact Hz. }
  split; [exact He|].
  unfold calculate_interest_breakdown. rewrite Hi, He.
  cbn [while]. unfold breakdown_body.
  cbn [sched_balance current_date total_interest_paid rows].
  rewrite Hb, date_leb_refl, !Z.eqb_refl. cbn [andb orb].
  rewrite clamp_zero. change (0 =? 0)%float with true. cbv iota.
  reflexivity.
Qed.

Lemma pays_off_in_one_month_witness :
  calculate_end_date (mkdate 2025 1 15) 1201 1000 2000 12
  = Some (Returns (Some (mkdate 2025 2 1)))
  /\ exists total,
      calculate_interest_breakdown (mkdate 2025 1 15) 1201 1000 2000 12
                                   (mkdate 2026 1 15)
      = Some (Returns (Schedule [mkrow (mkdate 2025 2 1) 1010 10 1000 0]
                                total)).
Proof.
  destruct (pays_off_in_one_month (mkdate 2025 1 15) (mkdate 2025 2 1) 1199
              1000 2000 12 (mkdate 2026 1 15) eq_refl eq_refl eq_refl eq_refl)
    as [H1 H2].
  split; [exact H1|]. eexists. exact H2.
Defined.

(** * Not a number *)

Lemma sub_nan_r (x : float) : (x - nan)%float = nan.
Proof.
  apply Prim2SF_inj. rewrite sub_spec. change (Prim2SF nan) with S754_nan.
  unfold SF64sub, SFsub. destruct (Prim2SF x); reflexivity.
Qed.

Lemma sub_nan_l (x : float) : (nan - x)%float = nan.
Proof.
  apply Prim2SF_inj. rewrite sub_spec. change (Prim2SF nan) with S754_nan.
  reflexivity.
Qed.

(** The bisection with a payment that is not a number: no estimate is
    close to it or above it, so no rate is returned. *)
Lemma bisect_nan (today : date) (balance : float) (end_date : date) (n : nat)
      (lh : float * float) :
  (exists x,
      for_range (bisect_body today balance nan end_date) n lh
      = Returns (inl x))
  \/ for_range (bisect_body today balance nan end_date) n lh
     = Returns (inr None).
Proof.
  revert lh. induction n as [|n IH]; intros lh.
  - left. exists lh. reflexivity.
  - cbn [for_range]. unfold bisect_body at 1 3. destruct lh as [low high].
    destruct (calculate_monthly_payment _ _ _ _) as [estimated|]; [|auto].
    rewrite sub_nan_r.
    change (abs nan <? 0.01)%float with false. cbv iota.
    replace (nan <? estimated)%float with false.
    + apply IH.
    + symmetry. rewrite ltb_spec. reflexivity.
Qed.

(** X13: a payment that is NaN is validated like a payment that is not
    given; [calculate_end_date] then returns the month after the clock for
    every positive balance, and [calculate_interest_rate] returns
    [None]. *)
Theorem nan_payment (today start : date) (fuel : nat)
        (balance interest_rate : float) (end_date : date) :
  increment_month today = Returns start ->
  (0 <? balance)%float = true ->
  validate_inputs today balance (Some nan) (Some interest_rate) None
  = validate_inputs today balance None (Some interest_rate) None
  /\ calculate_end_date today (Datatypes.S (Datatypes.S fuel)) balance nan
                        interest_rate
     = Some (Returns (Some start))
  /\ calculate_interest_rate today balance nan end_date = Returns None.
Proof.
  intros Hi Hb. split; [reflexivity|]. split.
  - apply end_date_one_month; auto. apply balance_step_zero.
    rewrite sub_nan_l, sub_nan_r. reflexivity.
  - rewrite calculate_interest_rate_guarded.
    destruct (_ || _); [reflexivity|].
    destruct (nan <=? _)%float; [reflexivity|].
    destruct (bisect_nan today balance end_date 300 (0.0001, 100)%float)
      as [[x ->]| ->]; reflexivity.
Qed.

Lemma nan_payment_witness :
  calculate_end_date (mkdate 2025 1 15) 1201 1000 nan 5
  = Some (Returns (Some (mkdate 2025 2 1)))
  /\ calculate_interest_rate (mkdate 2025 1 15) 1000 nan (mkdate 2026 1 15)
     = Returns None.
Proof.
  destruct (nan_payment (mkdate 2025 1 15) (mkdate 2025 2 1) 1199 1000 5
              (mkdate 2026 1 15) eq_refl eq_refl) as (_ & H1 & H2).
  split; [exact H1|exact H2].
Defined.

(** * Rates that the payment formula cannot take *)

Lemma Prim2SF_one : Prim2SF 1 = S754_finite false 4503599627370496 (-52).
Proof. reflexivity. Qed.

Lemma pow_2_52 (k : positive) :
  Zpos (Pos.pow 4503599627370496 k) = 2 ^ (52 * Zpos k).
Proof.
  rewrite Pos2Z.inj_pow. change (Zpos 4503599627370496) with (2 ^ 52).
  rewrite <- Z.pow_mul_r by lia. reflexivity.
Qed.

(** The reciprocal of a power of one is one. *)
Lemma SFdiv_one_pow (k : positive) :
  SFdiv prec emax (S754_finite false 1 0)
        (S754_finite false (Pos.pow 4503599627370496 k) (-52 * Zpos k))
  = S754_finite false 4503599627370496 (-52).
Proof.
  assert (Hp : 0 < 2 ^ (52 * Zpos k)) by (apply pow2_pos; lia).
  assert (Hd : Zpos (digits2_pos (Pos.pow 4503599627370496 k))
               = 52 * Zpos k + 1).
  { apply digits2_pos_unique. rewrite pow_2_52.
    replace (52 * Zpos k + 1 - 1) with (52 * Zpos k) by lia.
    rewrite Z.pow_add_r by lia. change (2 ^ 1) with 2. lia. }
  unfold SFdiv.
  rewrite (SFdiv_core_spec 1 0 (Pos.pow 4503599627370496 k) (-52 * Zpos k)
             (-53) (52 * Zpos k + 53)).
  - rewrite pow_2_52.
    replace (1 * 2 ^ (52 * Zpos k + 53)) with (2 ^ 53 * 2 ^ (52 * Zpos k))
      by (rewrite Z.pow_add_r by lia; lia).
    rewrite Z.div_mul, Z.mod_mul, new_location_exact by lia.
    reflexivity.
  - rewrite Hd. change (Zpos (digits2_pos 1)) with 1.
    replace (1 + 0 - (52 * Zpos k + 1 + -52 * Zpos k)) with 0 by lia.
    rewrite fexp_normal by lia. lia.
  - lia.
  - lia.
Qed.

Lemma pow_one_negative (n : Z) : n < 0 -> PyFloat.pow 1 n = Returns 1%float.
Proof.
  intros Hn. unfold PyFloat.pow.
  replace (n =? 0) with false by (symmetry; apply Z.eqb_neq; lia).
  rewrite Prim2SF_one.
  replace (0 <? n) with false by (symmetry; apply Z.ltb_ge; lia).
  cbn [andb].
  destruct n as [|p|p]; try lia.
  change (Z.to_pos (Z.abs (Zneg p))) with p.
  change (-52 * Z.abs (Zneg p)) with (-52 * Zpos p).
  rewrite SFdiv_one_pow. reflexivity.
Qed.

(** X14: [calculate_monthly_payment] returns [None] for a nonzero monthly
    rate that [1 + monthly_rate] loses (the sum is 1, as for rates of
    1e-15 percent) or that makes the sum 0 (the rate -1200): the division by
    zero in the formula is caught. *)
Theorem degenerate_rate_payment (today end_date : date)
        (balance interest_rate : float) :
  0 < months_until today end_date ->
  (monthly_rate_of interest_rate =? 0)%float = false ->
  (1 + monthly_rate_of interest_rate = 1
   \/ 1 + monthly_rate_of interest_rate = 0)%float ->
  calculate_monthly_payment today balance interest_rate end_date = None.
Proof.
  intros Hm H0 H1. unfold calculate_monthly_payment, payment_formula.
  replace (months_until today end_date <=? 0) with false
    by (symmetry; apply Z.leb_gt; lia).
  rewrite H0. destruct H1 as [-> | ->].
  - rewrite pow_one_negative by lia. reflexivity.
  - unfold PyFloat.pow.
    replace (- months_until today end_date =? 0) with false
      by (symmetry; apply Z.eqb_neq; lia).
    rewrite Prim2SF_zero.
    replace (0 <? - months_until today end_date) with false
      by (symmetry; apply Z.ltb_ge; lia).
    reflexivity.
Qed.

Lemma degenerate_rate_payment_witness :
  calculate_monthly_payment (mkdate 2025 1 15) 1000 1e-15 (mkdate 2026 1 15)
  = None
  /\ calculate_monthly_payment (mkdate 2025 1 15) 1000 (-1200)
                               (mkdate 2026 1 15)
     = None.
Proof.
  split.
  - apply degenerate_rate_payment; [reflexivity|reflexivity|].
    left. reflexivity.
  - apply degenerate_rate_payment; [reflexivity|reflexivity|].
    right. reflexivity.
Defined.

(** * The bracket of the bisection *)

Lemma bisect_body_brackets (today : date) (balance monthly_payment : float)
      (end_date : date) (lh lh' : float * float) :
  brackets today balance monthly_payment end_date lh ->
  bisect_body today balance monthly_payment end_date lh = Next lh' ->
  brackets today balance monthly_payment end_date lh'.
Proof.
  unfold bisect_body. destruct lh as [low high]. intros [Hl Hh].
  destruct (calculate_monthly_payment today balance ((low + high) / 2)
              end_date) as [estimated|] eqn:E; [|discriminate].
  destruct (abs (estimated - monthly_payment) <? 0.01)%float eqn:Ea;
    [discriminate|].
  destruct (monthly_payment <? estimated)%float eqn:Ec;
    intros H; injection H as <-; split; simpl in *; auto;
    right; exists estimated; auto.
Qed.

(** X15: at the start of every iteration of the bisection both ends of
    the interval are within 0.0001 and 100, and an end that has moved is a
    rate whose solved payment missed the target by a cent or more: not
    above it at [low], above it at [high]. *)
Theorem bisection_brackets (today : date) (balance monthly_payment : float)
        (end_date : date) (k : nat) (lh : float * float) :
  state_at (bisect_body today balance monthly_payment end_date) k
           (0.0001, 100)%float = Some lh ->
  brackets today balance monthly_payment end_date lh
  /\ in_range (fst lh) /\ in_range (snd lh).
Proof.
  intros H. split.
  - apply (state_at_invariant
             (bisect_body today balance monthly_payment end_date)
             (brackets today balance monthly_payment end_date)
             (bisect_body_brackets today balance monthly_payment end_date)
             k (0.0001, 100)%float lh); [|exact H].
    split; left; reflexivity.
  - apply (state_at_invariant
             (bisect_body today balance monthly_payment end_date)
             (fun lh => in_range (fst lh) /\ in_range (snd lh))
             (bisect_body_in_range today balance monthly_payment end_date)
             k (0.0001, 100)%float lh); [|exact H].
    exact in_range_start.
Qed.

Lemma bisection_brackets_witness :
  exists lh,
    state_at (bisect_body (mkdate 2025 1 15) 1000 85.61 (mkdate 2026 1 15)) 3
             (0.0001, 100)%float = Some lh
    /\ brackets (mkdate 2025 1 15) 1000 85.61 (mkdate 2026 1 15) lh.
Proof.
  eexists. split; [vm_compute; reflexivity|].
  apply (bisection_brackets (mkdate 2025 1 15) 1000 85.61 (mkdate 2026 1 15) 3).
  vm_compute. reflexivity.
Defined.

(** * The clock and the count of months *)

(** X16: the number of months to the payoff does not depend on the clock:
    from two clocks that each leave a hundred years of valid dates
    [calculate_end_date] returns [None] both times, or dates as many months
    after the one clock as after the other. *)
Theorem payoff_months_clock_independent (today today' : date) (fuel : nat)
        (balance monthly_payment interest_rate : float) :
  valid_today today -> valid_today today' ->
  match calculate_end_date today fuel balance monthly_payment interest_rate,
        calculate_end_date today' fuel balance monthly_payment interest_rate
  with
  | Some (Returns (Some d)), Some (Returns (Some d')) =>
      months_until today d = months_until today' d'
  | Some (Returns None), Some (Returns None) => True
  | None, None => True
  | _, _ => False
  end.
Proof.
  intros Hv Hv'. rewrite !calculate_end_date_payoff by assumption.
  destruct (payoff_months fuel balance monthly_payment interest_rate)
    as [[[n|]|e]|] eqn:E; simpl; auto.
  - rewrite !months_until_add_months. reflexivity.
  - exact (payoff_months_no_raise _ _ _ _ _ E).
Qed.

Lemma payoff_months_clock_independent_witness :
  months_until (mkdate 2025 1 15) (mkdate 2027 2 1)
  = months_until (mkdate 2031 12 31) (mkdate 2034 1 1).
Proof.
  assert (Hv : valid_today (mkdate 2025 1 15)).
  { unfold valid_today, MAXYEAR. simpl. lia. }
  assert (Hv' : valid_today (mkdate 2031 12 31)).
  { unfold valid_today, MAXYEAR. simpl. lia. }
  pose proof (payoff_months_clock_independent (mkdate 2025 1 15)
                (mkdate 2031 12 31) 1201 24000 1063.69 6 Hv Hv') as H.
  vm_compute calculate_end_date in H. exact H.
Defined.

(** * The signs of the amounts *)

Lemma ltb_zero_r_class (x : float) :
  (x <? 0)%float = false <-> sign_class false (Prim2SF x).
Proof.
  rewrite ltb_spec, Prim2SF_zero.
  destruct (Prim2SF x) as [s|s| |s m e]; simpl; try tauto;
    destruct s; simpl; split; auto; discriminate.
Qed.

Lemma round_class (s : bool) (x : float) (ndigits : Z) :
  sign_class s (Prim2SF x) -> sign_class s (Prim2SF (PyFloat.round x ndigits)).
Proof.
  unfold PyFloat.round.
  destruct (Prim2SF x) as [s'|s'| |s' m e] eqn:E; try (rewrite E; auto).
  simpl. intros ->.
  destruct (if 0 <=? e then _ else _); try (destruct s; exact I).
  apply of_ratio_class.
Qed.

(** Dividing by a positive number keeps the sign class. *)
Lemma div_class (s : bool) (x c : float) (m : positive) (e : Z) :
  Prim2SF c = S754_finite false m e ->
  sign_class s (Prim2SF x) -> sign_class s (Prim2SF (x / c)).
Proof.
  intros Hc. rewrite div_spec, Hc. unfold SF64div, SFdiv.
  destruct (Prim2SF x) as [s'|s'| |s' m' e']; simpl; auto.
  - intros ->. apply xorb_false_r.
  - intros ->. destruct (SFdiv_core_binary _ _ _ _ _ _) as [[mz ez] lz].
    rewrite xorb_false_r. apply binary_round_aux_class.
Qed.

Lemma monthly_rate_class (interest_rate : float) :
  sign_class false (Prim2SF interest_rate) ->
  sign_class false (Prim2SF (monthly_rate_of interest_rate)).
Proof.
  intros H. unfold monthly_rate_of.
  apply (div_class false _ 12 6755399441055744 (-49) eq_refl).
  apply (div_class false _ 100 7036874417766400 (-46) eq_refl). exact H.
Qed.

(** The interest on a positive balance at a rate that is not negative. *)
Lemma mul_class (b r : float) :
  (0 <? b)%float = true -> sign_class false (Prim2SF r) ->
  sign_class false (Prim2SF (b * r)).
Proof.
  rewrite ltb_spec, Prim2SF_zero, mul_spec. unfold SF64mul, SFmul.
  destruct (Prim2SF b) as [sb|sb| |sb mb eb]; try discriminate;
    destruct sb; try discriminate; intros _;
    destruct (Prim2SF r) as [sr|sr| |sr mr er]; simpl; auto.
  intros ->. apply binary_round_aux_class.
Qed.

Lemma add_class (x y : float) :
  sign_class false (Prim2SF x) -> sign_class false (Prim2SF y) ->
  sign_class false (Prim2SF (x + y)).
Proof.
  rewrite add_spec. unfold SF64add, SFadd.
  destruct (Prim2SF x) as [sx|sx| |sx mx ex];
    destruct (Prim2SF y) as [sy|sy| |sy my ey]; simpl; auto;
    try (intros -> ->; reflexivity);
    try (destruct sx, sy; simpl; auto; fail).
  intros -> ->. unfold cond_Zopp. cbn [Z.add binary_normalize].
  apply binary_round_class.
Qed.

Lemma positive_class (b : float) :
  (0 <? b)%float = true -> sign_class false (Prim2SF b).
Proof.
  rewrite ltb_spec, Prim2SF_zero.
  destruct (Prim2SF b) as [s|s| |s m e]; simpl; auto;
    destruct s; auto; discriminate.
Qed.

Lemma amounts_sign_step (monthly_payment monthly_rate : float)
      (end_date_calc : date) (s s' : sched) :
  sign_class false (Prim2SF monthly_payment) ->
  sign_class false (Prim2SF monthly_rate) ->
  breakdown_step monthly_payment monthly_rate end_date_calc s s' ->
  Forall (fun r => (row_interest r <? 0)%float = false
                   /\ (row_payment r <? 0)%float = false) (rows s)
  /\ sign_class false (Prim2SF (total_interest_paid s)) ->
  Forall (fun r => (row_interest r <? 0)%float = false
                   /\ (row_payment r <? 0)%float = false) (rows s')
  /\ sign_class false (Prim2SF (total_interest_paid s')).
Proof.
  intros Hp Hr Hst [Hf Ht].
  destruct (breakdown_step_row _ _ _ _ _ Hst) as (r & Hrows & _ & Htot & _ & Hk).
  assert (Hb : (0 <? sched_balance s)%float = true).
  { destruct Hst as [Hg _]. unfold breakdown_guard in Hg.
    apply andb_true_iff in Hg. tauto. }
  assert (Hm : sign_class false (Prim2SF (sched_balance s * monthly_rate)))
    by (apply mul_class; assumption).
  assert (Hc : sign_class false (Prim2SF (row_interest r))
               /\ sign_class false (Prim2SF (row_payment r))).
  { destruct (final_payment monthly_payment end_date_calc s).
    - destruct Hk as (-> & -> & _). split; apply round_class; [exact Hm|].
      apply add_class; [apply positive_class; exact Hb|exact Hm].
    - destruct Hk as (-> & -> & _). split; apply round_class; assumption. }
  split.
  - rewrite Hrows. apply Forall_app. split; [exact Hf|].
    constructor; [|constructor]. rewrite !ltb_zero_r_class. exact Hc.
  - rewrite Htot. apply add_class; tauto.
Qed.

(** X17: for a payment and a rate that are not negative, no line of a
    schedule shows a negative interest or a negative payment, and the total
    interest is not negative. *)
Theorem amounts_never_negative (today : date) (fuel : nat)
        (balance monthly_payment interest_rate : float) (end_date : date)
        (lines : list row) (total : float) :
  (monthly_payment <? 0)%float = false ->
  (interest_rate <? 0)%float = false ->
  calculate_interest_breakdown today fuel balance monthly_payment
                               interest_rate end_date
  = Some (Returns (Schedule lines total)) ->
  Forall (fun r => (row_interest r <? 0)%float = false
                   /\ (row_payment r <? 0)%float = false) lines
  /\ (total <? 0)%float = false.
Proof.
  intros Hp Hr H.
  destruct (breakdown_schedule_loop _ _ _ _ _ _ _ _ H)
    as (start & D & s' & Hw & -> & ->).
  apply ltb_zero_r_class in Hp.
  apply ltb_zero_r_class, monthly_rate_class in Hr.
  destruct (fun Hn He Hi =>
              breakdown_loop_result monthly_payment
                (monthly_rate_of interest_rate) D
                (fun s =>
                   Forall (fun r => (row_interest r <? 0)%float = false
                                    /\ (row_payment r <? 0)%float = false)
                          (rows s)
                   /\ sign_class false (Prim2SF (total_interest_paid s)))
                (fun s =>
                   Forall (fun r => (row_interest r <? 0)%float = false
                                    /\ (row_payment r <? 0)%float = false)
                          (rows s)
                   /\ sign_class false (Prim2SF (total_interest_paid s)))
                fuel (mksched balance start 0 []) (inl s') Hn He Hi Hw)
    as (s2 & Hs2 & Hf & Ht).
  - intros s s1 Hi Hn. apply breakdown_body_next in Hn.
    exact (amounts_sign_step _ _ _ _ _ Hp Hr Hn Hi).
  - intros s s1 Hi He.
    destruct (breakdown_body_exit _ _ _ _ _ He) as [[_ ->]|Hst]; [exact Hi|].
    exact (amounts_sign_step _ _ _ _ _ Hp Hr Hst Hi).
  - split; [constructor|exact I].
  - injection Hs2 as <-. split; [exact Hf|].
    apply ltb_zero_r_class, round_class. exact Ht.
Qed.

Lemma amounts_never_negative_witness :
  exists lines total,
    calculate_interest_breakdown (mkdate 2025 1 15) 1201 24000 1063.69 6
                                 (mkdate 2027 1 15)
    = Some (Returns (Schedule lines total))
    /\ Forall (fun r => (row_interest r <? 0)%float = false
                        /\ (row_payment r <? 0)%float = false) lines
    /\ (total <? 0)%float = false.
Proof.
  eexists. eexists. split; [vm_compute; reflexivity|].
  apply (amounts_never_negative (mkdate 2025 1 15) 1201 24000 1063.69 6
           (mkdate 2027 1 15) _ _ eq_refl eq_refl).
  vm_compute. reflexivity.
Defined.

(** * The clock and the schedule *)

Lemma same_month_add_months (d : date) (a b : Z) :
  1 <= a -> 1 <= b ->
  (year (add_months d a) =? year (add_months d b))
  && (month (add_months d a) =? month (add_months d b))
  = (a =? b).
Proof.
  intros Ha Hb. unfold add_months.
  replace (a =? 0) with false by (symmetry; apply Z.eqb_neq; lia).
  replace (b =? 0) with false by (symmetry; apply Z.eqb_neq; lia).
  simpl. destruct (Z.eqb_spec a b) as [->|Hn].
  - rewrite !Z.eqb_refl. reflexivity.
  - apply andb_false_iff. rewrite !Z.eqb_neq.
    Z.div_mod_to_equations. lia.
Qed.

(** A turn of the schedule loop in month [j + 1] of [N], without its
    calendar. *)
Lemma breakdown_body_on_schedule (today : date)
      (monthly_payment monthly_rate : float) (N j : nat) (s : sched) :
  valid_today today -> (N < 1200)%nat -> sched_inv today N j s ->
  let b := sched_balance s in
  let interest := (b * monthly_rate)%float in
  let final := (Z.of_nat j + 1 =? Z.of_nat N) || (b <? monthly_payment)%float in
  let principal := if final then b else (monthly_payment - interest)%float in
  let payment := if final then (b + interest)%float else monthly_payment in
  let nb :=
    PyFloat.max0
      (PyFloat.round (if final then 0 else b - (monthly_payment - interest)) 2) in
  let line :=
    mkrow (current_date s) (PyFloat.round payment 2)
          (PyFloat.round interest 2) (PyFloat.round principal 2) nb in
  let total := (total_interest_paid s + PyFloat.round interest 2)%float in
  breakdown_body monthly_payment monthly_rate
                 (add_months today (Z.of_nat N)) s
  = if (nb =? 0)%float
    then Exit (mksched nb (current_date s) total (rows s ++ [line]))
    else Next (mksched nb (add_months today (Z.of_nat j + 2)) total
                       (rows s ++ [line])).
Proof.
  intros Hv HN (Hd & Hb & Hj). cbv zeta. unfold breakdown_body.
  rewrite Hb, Hd.
  rewrite (date_leb_add_months today (Z.of_nat j + 1) (Z.of_nat N)) by lia.
  rewrite (same_month_add_months today (Z.of_nat j + 1) (Z.of_nat N)) by lia.
  cbn [andb].
  rewrite (increment_month_valid today (Z.of_nat j + 1) Hv) by lia.
  replace (Z.of_nat j + 1 + 1) with (Z.of_nat j + 2) by lia.
  destruct ((Z.of_nat j + 1 =? Z.of_nat N)
            || (sched_balance s <? monthly_payment)%float); reflexivity.
Qed.

Section TwoClocks.
Variables today today' : date.
Variables monthly_payment monthly_rate : float.
Variable N : nat.
Hypothesis today_ok : valid_today today.
Hypothesis today_ok' : valid_today today'.
Hypothesis N_bound : (N < 1200)%nat.

Lemma lockstep (fuel : nat) :
  forall (j : nat) (s s' x : sched),
    sched_inv today N j s -> sched_inv today' N j s' ->
    same_ledger today today' s s' ->
    while (breakdown_body monthly_payment monthly_rate
                          (add_months today (Z.of_nat N))) fuel s
    = Some (Returns (inl x)) ->
    exists x',
      while (breakdown_body monthly_payment monthly_rate
                            (add_months today' (Z.of_nat N))) fuel s'
      = Some (Returns (inl x'))
      /\ same_ledger today today' x x'.
Proof.
  induction fuel as [|fuel IH]; intros j s s' x Hi Hi' Hl; [discriminate|].
  cbn [while].
  pose proof (breakdown_body_on_schedule today monthly_payment monthly_rate
                N j s today_ok N_bound Hi) as E.
  pose proof (breakdown_body_on_schedule today' monthly_payment monthly_rate
                N j s' today_ok' N_bound Hi') as E'.
  cbv zeta in E, E'.
  destruct Hl as (Hb & Ht & Ha & Hm).
  destruct Hi as (Hd & Hpos & Hj). destruct Hi' as (Hd' & Hpos' & _).
  rewrite <- Hb, <- Ht in E'.
  set (final := (Z.of_nat j + 1 =? Z.of_nat N)
                || (sched_balance s <? monthly_payment)%float) in *.
  set (nb := PyFloat.max0 _) in *.
  rewrite E, E'. clear E E'.
  assert (Hrows : forall p i q,
             same_ledger today today'
               (mksched nb (current_date s)
                        (total_interest_paid s + i)
                        (rows s ++ [mkrow (current_date s) p i q nb]))
               (mksched nb (current_date s')
                        (total_interest_paid s + i)
                        (rows s' ++ [mkrow (current_date s') p i q nb]))
             /\ forall d d',
                 same_ledger today today'
                   (mksched nb d (total_interest_paid s + i)
                            (rows s ++ [mkrow (current_date s) p i q nb]))
                   (mksched nb d' (total_interest_paid s + i)
                            (rows s' ++ [mkrow (current_date s') p i q nb]))).
  { intros p i q.
    assert (H : forall d d',
               same_ledger today today'
                 (mksched nb d (total_interest_paid s + i)
                          (rows s ++ [mkrow (current_date s) p i q nb]))
                 (mksched nb d' (total_interest_paid s + i)
                          (rows s' ++ [mkrow (current_date s') p i q nb]))).
    { intros d d'. unfold same_ledger. simpl.
      rewrite !map_app, Ha, Hm. simpl.
      rewrite Hd, Hd', !months_until_add_months. auto. }
    split; [apply H|exact H]. }
  destruct (nb =? 0)%float eqn:Ez.
  - intros H. injection H as <-. eexists. split; [reflexivity|].
    apply Hrows.
  - intros H.
    assert (Hnb : (0 <? nb)%float = true).
    { destruct (max0_cases
                  (PyFloat.round
                     (if final then 0
                      else sched_balance s
                           - (monthly_payment
                              - sched_balance s * monthly_rate)) 2))
        as [H0|H0]; fold nb in H0; [|exact H0].
      rewrite H0 in Ez. discriminate Ez. }
    assert (HjN : (Datatypes.S j < N)%nat).
    { destruct (Z.eq_dec (Z.of_nat j + 1) (Z.of_nat N)) as [Heq|Hne]; [|lia].
      exfalso. assert (Hf : final = true).
      { unfold final. rewrite (proj2 (Z.eqb_eq _ _) Heq). reflexivity. }
      unfold nb in Ez. rewrite Hf, clamp_zero in Ez. discriminate Ez. }
    apply (IH (Datatypes.S j)) with (4 := H).
    + unfold sched_inv. simpl. split; [f_equal; lia|]. split; [exact Hnb|lia].
    + unfold sched_inv. simpl. split; [f_equal; lia|]. split; [exact Hnb|lia].
    + apply Hrows.
Qed.

End TwoClocks.

(** X18: but for its dates the schedule does not depend on the clock: from
    two clocks that each leave a hundred years of valid dates
    [calculate_interest_breakdown] returns schedules with the same total
    interest and, line by line, the same amounts, as many months after the
    one clock as after the other. *)
Theorem schedule_clock_independent (today today' : date) (fuel : nat)
        (balance monthly_payment interest_rate : float)
        (end_date end_date' : date) (lines : list row) (total : float) :
  valid_today today -> valid_today today' ->
  calculate_interest_breakdown today fuel balance monthly_payment
                               interest_rate end_date
  = Some (Returns (Schedule lines total)) ->
  exists lines',
    calculate_interest_breakdown today' fuel balance monthly_payment
                                 interest_rate end_date'
    = Some (Returns (Schedule lines' total))
    /\ map amounts lines = map amounts lines'
    /\ map (fun r => months_until today (row_date r)) lines
       = map (fun r => months_until today' (row_date r)) lines'.
Proof.
  intros Hv Hv' H.
  destruct (breakdown_schedule_end_date _ _ _ _ _ _ _ _ H) as [d Hd].
  pose proof Hd as Hd0.
  rewrite calculate_end_date_payoff in Hd0 by exact Hv.
  destruct (payoff_months fuel balance monthly_payment interest_rate)
    as [[[n|]|e]|] eqn:Ep; try discriminate.
  simpl in Hd0. injection Hd0 as <-.
  assert (Hd' : calculate_end_date today' fuel balance monthly_payment
                                   interest_rate
                = Some (Returns (Some (add_months today' n)))).
  { rewrite calculate_end_date_payoff by exact Hv'. rewrite Ep. reflexivity. }
  revert H. unfold calculate_interest_breakdown.
  rewrite Hd, Hd', !increment_month_today by assumption.
  destruct (0 <? balance)%float eqn:Hpos.
  - destruct (payoff_date_months _ _ _ _ _ _ Hv Hpos Hd) as (N & HN & _ & HdN).
    assert (n = Z.of_nat N).
    { rewrite <- (months_until_add_months today n), HdN.
      apply months_until_add_months. }
    subst n.
    destruct (while _ fuel _) as [[[x|[]]|]|] eqn:Ew; try discriminate.
    intros Hx. injection Hx as <- <-.
    destruct (lockstep today today' monthly_payment
                (monthly_rate_of interest_rate) N Hv Hv' ltac:(lia) fuel 0%nat
                (mksched balance (add_months today 1) 0 [])
                (mksched balance (add_months today' 1) 0 []) x)
      as (x' & Hw' & _ & Ht & Ha & Hm).
    + unfold sched_inv. simpl. split; [reflexivity|]. split; [exact Hpos|lia].
    + unfold sched_inv. simpl. split; [reflexivity|]. split; [exact Hpos|lia].
    + unfold same_ledger. simpl. auto.
    + exact Ew.
    + rewrite Hw'. exists (rows x'). simpl. rewrite Ht. auto.
  - destruct fuel as [|fuel].
    { unfold calculate_end_date in Hd.
      destruct (monthly_payment <=? 0)%float; discriminate. }
    cbn [while]. unfold breakdown_body. cbn [sched_balance]. rewrite Hpos.
    cbn [andb]. intros Hx. injection Hx as <- <-.
    exists []. simpl. auto.
Qed.

Lemma schedule_clock_independent_witness :
  exists lines lines' total,
    calculate_interest_breakdown (mkdate 2025 1 15) 1201 24000 1063.69 6
                                 (mkdate 2027 1 15)
    = Some (Returns (Schedule lines total))
    /\ calculate_interest_breakdown (mkdate 2031 12 31) 1201 24000 1063.69 6
                                    (mkdate 2040 1 1)
       = Some (Returns (Schedule lines' total))
    /\ map amounts lines = map amounts lines'.
Proof.
  assert (Hv : valid_today (mkdate 2025 1 15)).
  { unfold valid_today, MAXYEAR. simpl. lia. }
  assert (Hv' : valid_today (mkdate 2031 12 31)).
  { unfold valid_today, MAXYEAR. simpl. lia. }
  eexists.
  destruct (schedule_clock_independent (mkdate 2025 1 15) (mkdate 2031 12 31)
              1201 24000 1063.69 6 (mkdate 2027 1 15) (mkdate 2040 1 1)
              _ _ Hv Hv' ltac:(vm_compute; reflexivity))
    as (lines' & H1 & H2 & _).
  exists lines'. eexists. split; [vm_compute; reflexivity|].
  split; [exact H1|exact H2].
Defined.
